(** * OpenRoad-Autonomy: battery model, mission controller, routing weights
      and subscriber registry

    A shallow embedding of the Python services under [src/app] and the
    properties of them that the specification states.

    Numbers.  Python floats are embedded as rationals [Q] with exact
    arithmetic, where binary64 rounds every operation to the nearest
    float.  The two agree on what rounding keeps: the order and the
    sign of results, the branch that a comparison takes away from its
    threshold, values that are copied or computed once and read twice,
    sums taken in the order of the code.  The properties below are
    stated in those terms; none states that two different computations
    give the same number, and none depends on which side of a threshold
    a value within rounding of it falls.  A division raises
    [ZeroDivisionError] on a zero divisor, here as in Python; in
    binary64 a divisor can also underflow to zero, so the properties
    say what a division by zero leaves, not that none occurs.

    Concurrency.  A coroutine is run from its start to its end; where a
    property is about two calls that overlap, the call is cut at its
    suspension point and the parts are run in the order of the event
    loop.

    Effects.  Methods are computations in a state-and-exception monad
    that also logs the writes to mission fields and the task operations
    of the event loop, in program order.  Calls to the logger are left
    out, except where the message they format calls a method that can
    raise.

    The outside.  The wall clock, the random number generator and the
    trigonometry of the great-circle distance are read from an
    environment [Env], one value per read.  Every suspension point of
    a coroutine is logged.  networkx, which runs the searches, is not
    part of the repository: a search is its outcome, and the weight
    function of a search is given the argument that networkx gives
    it. *)

From stdpp Require Import gmap strings list.
From Stdlib Require Import QArith Lqa Lia ZArith.

Set Default Proof Using "Type".

(** ** Python values and exceptions *)

(** The text of an exception: the controller formats numbers into its
    messages with [:.2f]; the numbers are kept as they are. *)
Inductive Message :=
| MsgInvalidPath                       (* "Invalid path - must have at least 2 points" *)
| MsgInsufficientBattery (need_km have_km : Q)
| MsgFloatDivisionByZero               (* str(ZeroDivisionError) *)
| MsgIndexOutOfRange                   (* str(IndexError) *)
| MsgMissingKey                        (* str(KeyError) *)
| MsgDisconnected.                     (* str(WebSocketDisconnect) *)

Inductive exn :=
| ValueError (m : Message)
| ZeroDivisionError
| IndexError
| KeyError
| WebSocketDisconnect.

Definition str (e : exn) : Message :=
  match e with
  | ValueError m => m
  | ZeroDivisionError => MsgFloatDivisionByZero
  | IndexError => MsgIndexOutOfRange
  | KeyError => MsgMissingKey
  | WebSocketDisconnect => MsgDisconnected
  end.

Inductive Res (A : Type) :=
| Ok (a : A)
| Raise (e : exn).
Arguments Ok {A} a.
Arguments Raise {A} e.

Inductive RobotMode :=
| IDLE | PICKUP | TRANSIT | DELIVERY | RETURN | CHARGING | EMERGENCY | OFFLINE.

Global Instance RobotMode_eq_dec : EqDecision RobotMode.
Proof. solve_decision. Defined.

(** Fields of the controller that a mission writes. *)
Inductive Field :=
| Fcurrent | Ftarget | Fpath | Ftotal_path | Fpath_index
| Fdistance_traveled | Femergency_stop | Fis_moving | Ferror_message
| Fobstacle_detected | Fspeed | Fbattery_percentage | Flast_update.

Global Instance Field_eq_dec : EqDecision Field.
Proof. solve_decision. Defined.

(** What a method does besides computing: writes, task operations of
    the asyncio loop and suspension points. *)
Inductive Event :=
| EvMode (m : RobotMode)        (* self.state.mode = m *)
| EvWrite (f : Field)
| EvCancel (t : nat)            (* task.cancel() *)
| EvAwaitTask (t : nat)         (* await task: returns once it has ended *)
| EvCreateTask (t : nat)        (* asyncio.create_task *)
| EvSleep                       (* await asyncio.sleep(...) *)
| EvSend (ws : nat).            (* await connection.send_text(message) *)

Global Instance Event_eq_dec : EqDecision Event.
Proof. solve_decision. Defined.

(** ** The monad of Python methods over a state [S] *)

Definition Py (S A : Type) : Type := S -> Res A * S * list Event.

Definition ret {S A} (a : A) : Py S A := fun s => (Ok a, s, []).

Definition raise {S A} (e : exn) : Py S A := fun s => (Raise e, s, []).

Definition bind {S A B} (c : Py S A) (k : A -> Py S B) : Py S B :=
  fun s =>
    match c s with
    | (Ok a, s1, l1) =>
        match k a s1 with
        | (r, s2, l2) => (r, s2, l1 ++ l2)
        end
    | (Raise e, s1, l1) => (Raise e, s1, l1)
    end.

(** [try: c except: h] with a handler that catches every exception. *)
Definition try_except {S A} (c : Py S A) (h : exn -> Py S A) : Py S A :=
  fun s =>
    match c s with
    | (Ok a, s1, l1) => (Ok a, s1, l1)
    | (Raise e, s1, l1) =>
        match h e s1 with
        | (r, s2, l2) => (r, s2, l1 ++ l2)
        end
    end.

Definition get {S} : Py S S := fun s => (Ok s, s, []).
Definition modify {S} (f : S -> S) : Py S unit := fun s => (Ok tt, f s, []).
Definition emit {S} (e : Event) : Py S unit := fun s => (Ok tt, s, [e]).
Definition lift_res {S A} (r : Res A) : Py S A := fun s => (r, s, []).

Declare Scope py_scope.
Delimit Scope py_scope with py.
Notation "'let!' x := c 'in' k" := (bind c (fun x => k))
  (at level 10, x name, c at level 100, k at level 200) : py_scope.
Notation "'exec' c 'in' k" := (bind c (fun _ => k))
  (at level 10, c at level 100, k at level 200) : py_scope.

(** The three components of an outcome. *)
Definition result_of {S A} (out : Res A * S * list Event) : Res A := fst (fst out).
Definition state_of {S A} (out : Res A * S * list Event) : S := snd (fst out).
Definition log_of {S A} (out : Res A * S * list Event) : list Event := snd out.

(** An outcome that comes after the events [l]. *)
Definition after {S A} (l : list Event) (out : Res A * S * list Event)
    : Res A * S * list Event :=
  match out with (r, s, l') => (r, s, l ++ l') end.

(** A computation run inside a component [T] of the state [S]. *)
Definition zoom {S T A} (proj : S -> T) (upd : T -> S -> S) (c : Py T A) : Py S A :=
  fun s => match c (proj s) with (r, t, l) => (r, upd t s, l) end.

(** ** Float operations *)

Local Open Scope Q_scope.

Definition Qlt_bool (x y : Q) : bool := negb (Qle_bool y x).

(** [a / b] on floats. *)
Definition py_div (a b : Q) : Res Q :=
  if Qeq_bool b 0 then Raise ZeroDivisionError else Ok (a / b).

(** [min(a, b)]: the first of the smallest. *)
Definition py_min (a b : Q) : Q := if Qlt_bool b a then b else a.

(** [max(a, b)] on integers. *)
Definition py_max (a b : Z) : Z := if (a <? b)%Z then b else a.

(** [int(x)]: truncation toward zero. *)
Definition py_int (x : Q) : Z := Z.quot (Qnum x) (Zpos (Qden x)).

(** ** config.py *)

Module settings.
Definition ROBOT_SPEED_KMH : Q := 15.
Definition ROBOT_MAX_SPEED_KMH : Q := 25.
Definition BATTERY_CAPACITY_KWH : Q := 25 # 10.
Definition BATTERY_CONSUMPTION_KWH_PER_KM : Q := 8 # 100.
End settings.

(** ** services/battery_model.py *)

Inductive BatteryHealth := EXCELLENT | GOOD | FAIR | POOR | CRITICAL.

Global Instance BatteryHealth_eq_dec : EqDecision BatteryHealth.
Proof. solve_decision. Defined.

Record BatteryStats := mkBatteryStats {
  capacity_kwh : Q;
  current_charge_kwh : Q;
  voltage_v : Q;
  current_a : Q;
  temperature_c : Q;
  cycles : Q;
  health : BatteryHealth;
  charging : bool
}.

Record BatteryModel := mkBatteryModel {
  stats : BatteryStats;
  consumption_rate : Q;
  regenerative_braking_efficiency : Q;
  temperature_derate_factor : Q;
  cycle_degradation : Q
}.

(** The dictionaries that the battery methods return. *)
Inductive ConsumeResult :=
| RobotIsCharging
| InsufficientBattery (required_kwh available_kwh : Q)
| Consumed (consumption_kwh remaining_kwh percentage : Q).

Definition success (r : ConsumeResult) : bool :=
  match r with Consumed _ _ _ => true | _ => false end.

Record ChargeResult := mkChargeResult { charged_kwh : Q; charge_percentage : Q }.

Module BatteryModel.

Local Open Scope py_scope.

Definition set_stats (f : BatteryStats -> BatteryStats) (b : BatteryModel) : BatteryModel :=
  mkBatteryModel (f (stats b)) (consumption_rate b)
    (regenerative_braking_efficiency b) (temperature_derate_factor b)
    (cycle_degradation b).

Definition with_current_charge_kwh (v : Q) (s : BatteryStats) : BatteryStats :=
  mkBatteryStats (capacity_kwh s) v (voltage_v s) (current_a s)
    (temperature_c s) (cycles s) (health s) (charging s).

Definition with_current_a (v : Q) (s : BatteryStats) : BatteryStats :=
  mkBatteryStats (capacity_kwh s) (current_charge_kwh s) (voltage_v s) v
    (temperature_c s) (cycles s) (health s) (charging s).

Definition with_cycles (v : Q) (s : BatteryStats) : BatteryStats :=
  mkBatteryStats (capacity_kwh s) (current_charge_kwh s) (voltage_v s)
    (current_a s) (temperature_c s) v (health s) (charging s).

Definition with_health (v : BatteryHealth) (s : BatteryStats) : BatteryStats :=
  mkBatteryStats (capacity_kwh s) (current_charge_kwh s) (voltage_v s)
    (current_a s) (temperature_c s) (cycles s) v (charging s).

Definition with_charging (v : bool) (s : BatteryStats) : BatteryStats :=
  mkBatteryStats (capacity_kwh s) (current_charge_kwh s) (voltage_v s)
    (current_a s) (temperature_c s) (cycles s) (health s) v.

(** [BatteryModel.__init__]: starts fully charged. *)
Definition init (capacity : Q) : BatteryModel :=
  mkBatteryModel
    (mkBatteryStats capacity capacity 48 0 25 0 EXCELLENT false)
    settings.BATTERY_CONSUMPTION_KWH_PER_KM (7 # 10) 1 (2 # 10000).

(** [calculate_consumption]: reads the battery, writes nothing. *)
Definition calculate_consumption (b : BatteryModel)
    (distance_m speed_kmh grade_percent : Q) : Res Q :=
  let distance_km := distance_m / 1000 in
  let base_consumption := distance_km * consumption_rate b in
  let speed_factor := 1 + (1 # 100) * ((speed_kmh / 10) ^ 2) in
  let grade_factor := 1 + (5 # 100) * grade_percent in
  let temp_factor := temperature_derate_factor b in
  let health_factor := 1 + (1000 - cycles (stats b)) * cycle_degradation b in
  match py_div (base_consumption * speed_factor * grade_factor * temp_factor)
               health_factor with
  | Raise e => Raise e
  | Ok consumption =>
      if Qlt_bool grade_percent 0 then
        let regen_recovery :=
          - grade_percent * (1 # 100) * regenerative_braking_efficiency b in
        Ok (consumption * (1 - py_min regen_recovery (1 # 2)))
      else Ok consumption
  end.

Definition get_percentage : Py BatteryModel Q :=
  let! b := get in
  let! r := lift_res (py_div (current_charge_kwh (stats b)) (capacity_kwh (stats b))) in
  ret (r * 100).

(** The threshold classification of a capacity retention ratio. *)
Definition classify (capacity_retention : Q) : BatteryHealth :=
  if Qlt_bool (8 # 10) capacity_retention then EXCELLENT
  else if Qlt_bool (6 # 10) capacity_retention then GOOD
  else if Qlt_bool (4 # 10) capacity_retention then FAIR
  else if Qlt_bool (2 # 10) capacity_retention then POOR
  else CRITICAL.

Definition _update_health : Py BatteryModel unit :=
  let! b := get in
  let! capacity_retention :=
    lift_res (py_div (current_charge_kwh (stats b)) (capacity_kwh (stats b))) in
  modify (set_stats (with_health (classify capacity_retention))).

Definition consume_energy (distance_m speed_kmh grade_percent : Q)
    : Py BatteryModel ConsumeResult :=
  let! b := get in
  if charging (stats b) then ret RobotIsCharging
  else
    let! consumption :=
      lift_res (calculate_consumption b distance_m speed_kmh grade_percent) in
    if Qlt_bool (current_charge_kwh (stats b)) consumption then
      ret (InsufficientBattery consumption (current_charge_kwh (stats b)))
    else
      exec modify (set_stats
             (with_current_charge_kwh (current_charge_kwh (stats b) - consumption))) in
      let! amps :=
        (if Qlt_bool 0 distance_m then
           let! t := lift_res (py_div distance_m speed_kmh) in
           lift_res (py_div (consumption * 1000) (t * 3600))
         else ret 0) in
      exec modify (set_stats (with_current_a amps)) in
      let! b1 := get in
      let! ratio :=
        lift_res (py_div (current_charge_kwh (stats b1)) (capacity_kwh (stats b1))) in
      let depth_of_discharge := 1 - ratio in
      exec (if Qlt_bool (8 # 10) depth_of_discharge then
              modify (set_stats (with_cycles (cycles (stats b1) + (1 # 10))))
            else ret tt) in
      exec _update_health in
      (* the percentage is computed for the log line and again for the
         answer; the second computation cannot fail where the first has not *)
      let! pct := get_percentage in
      let! b2 := get in
      ret (Consumed consumption (current_charge_kwh (stats b2)) pct).

Definition charge (energy_kwh : Q) : Py BatteryModel ChargeResult :=
  let! b := get in
  let old_charge := current_charge_kwh (stats b) in
  exec modify (set_stats
         (with_current_charge_kwh
            (py_min (current_charge_kwh (stats b) + energy_kwh)
                    (capacity_kwh (stats b))))) in
  exec modify (set_stats (with_charging (Qlt_bool 0 energy_kwh))) in
  let! b1 := get in
  let charged := current_charge_kwh (stats b1) - old_charge in
  let! pct := get_percentage in
  ret (mkChargeResult charged pct).

Definition can_complete_route (route_distance_m avg_speed_kmh : Q)
    : Py BatteryModel bool :=
  let! b := get in
  let! required :=
    lift_res (calculate_consumption b route_distance_m avg_speed_kmh 0) in
  ret (Qle_bool required (current_charge_kwh (stats b) * (9 # 10))).

Definition estimate_range (avg_speed_kmh : Q) : Py BatteryModel Q :=
  let! b := get in
  let! remaining_km :=
    lift_res (py_div (current_charge_kwh (stats b)) (consumption_rate b)) in
  ret (remaining_km * 1000).

(** The dictionary of [to_dict]. *)
Record BatteryDict := mkBatteryDict {
  dict_percentage : Q;
  dict_range_km : Q;
  dict_health : BatteryHealth;
  dict_charging : bool;
  dict_cycles : Q;
  dict_temperature_c : Q
}.

Definition to_dict : Py BatteryModel BatteryDict :=
  let! percentage := get_percentage in
  let! range := estimate_range settings.ROBOT_SPEED_KMH in
  let! b := get in
  ret (mkBatteryDict percentage (range / 1000) (health (stats b)) (charging (stats b))
         (cycles (stats b)) (temperature_c (stats b))).

End BatteryModel.


(** ** models/robot_state.py *)

Definition Point : Type := Q * Q.

Record RobotState := mkRobotState {
  mode : RobotMode;
  current_lat : Q;
  current_lon : Q;
  battery_percentage : Q;
  current_speed_kmh : Q;
  target_lat : option Q;
  target_lon : option Q;
  current_delivery_id : option Z;
  path_index : Z;
  total_path : option (list Point);
  distance_traveled_m : Q;
  last_update : Q;
  obstacle_detected : bool;
  error_message : option Message
}.

Module RobotState.

Definition with_mode v (s : RobotState) :=
  mkRobotState v (current_lat s) (current_lon s) (battery_percentage s)
    (current_speed_kmh s) (target_lat s) (target_lon s) (current_delivery_id s)
    (path_index s) (total_path s) (distance_traveled_m s) (last_update s)
    (obstacle_detected s) (error_message s).

Definition with_current v (s : RobotState) :=
  mkRobotState (mode s) (fst v) (snd v) (battery_percentage s)
    (current_speed_kmh s) (target_lat s) (target_lon s) (current_delivery_id s)
    (path_index s) (total_path s) (distance_traveled_m s) (last_update s)
    (obstacle_detected s) (error_message s).

Definition with_battery_percentage v (s : RobotState) :=
  mkRobotState (mode s) (current_lat s) (current_lon s) v
    (current_speed_kmh s) (target_lat s) (target_lon s) (current_delivery_id s)
    (path_index s) (total_path s) (distance_traveled_m s) (last_update s)
    (obstacle_detected s) (error_message s).

Definition with_current_speed_kmh v (s : RobotState) :=
  mkRobotState (mode s) (current_lat s) (current_lon s) (battery_percentage s)
    v (target_lat s) (target_lon s) (current_delivery_id s)
    (path_index s) (total_path s) (distance_traveled_m s) (last_update s)
    (obstacle_detected s) (error_message s).

Definition with_target (v : Point) (s : RobotState) :=
  mkRobotState (mode s) (current_lat s) (current_lon s) (battery_percentage s)
    (current_speed_kmh s) (Some (fst v)) (Some (snd v)) (current_delivery_id s)
    (path_index s) (total_path s) (distance_traveled_m s) (last_update s)
    (obstacle_detected s) (error_message s).

Definition with_path_index v (s : RobotState) :=
  mkRobotState (mode s) (current_lat s) (current_lon s) (battery_percentage s)
    (current_speed_kmh s) (target_lat s) (target_lon s) (current_delivery_id s)
    v (total_path s) (distance_traveled_m s) (last_update s)
    (obstacle_detected s) (error_message s).

Definition with_total_path v (s : RobotState) :=
  mkRobotState (mode s) (current_lat s) (current_lon s) (battery_percentage s)
    (current_speed_kmh s) (target_lat s) (target_lon s) (current_delivery_id s)
    (path_index s) v (distance_traveled_m s) (last_update s)
    (obstacle_detected s) (error_message s).

Definition with_distance_traveled_m v (s : RobotState) :=
  mkRobotState (mode s) (current_lat s) (current_lon s) (battery_percentage s)
    (current_speed_kmh s) (target_lat s) (target_lon s) (current_delivery_id s)
    (path_index s) (total_path s) v (last_update s)
    (obstacle_detected s) (error_message s).

Definition with_last_update v (s : RobotState) :=
  mkRobotState (mode s) (current_lat s) (current_lon s) (battery_percentage s)
    (current_speed_kmh s) (target_lat s) (target_lon s) (current_delivery_id s)
    (path_index s) (total_path s) (distance_traveled_m s) v
    (obstacle_detected s) (error_message s).

Definition with_obstacle_detected v (s : RobotState) :=
  mkRobotState (mode s) (current_lat s) (current_lon s) (battery_percentage s)
    (current_speed_kmh s) (target_lat s) (target_lon s) (current_delivery_id s)
    (path_index s) (total_path s) (distance_traveled_m s) (last_update s)
    v (error_message s).

Definition with_error_message v (s : RobotState) :=
  mkRobotState (mode s) (current_lat s) (current_lon s) (battery_percentage s)
    (current_speed_kmh s) (target_lat s) (target_lon s) (current_delivery_id s)
    (path_index s) (total_path s) (distance_traveled_m s) (last_update s)
    (obstacle_detected s) v.

(** [RobotState()] with the dataclass defaults; [t0] is the value
    of [time.time()] when the class was defined. *)
Definition default (t0 : Q) : RobotState :=
  mkRobotState IDLE 0 0 100 0 None None None 0%Z None 0 t0 false None.

(** [get_progress_percentage]: the index over the number of points. *)
Definition get_progress_percentage (s : RobotState) : Res Q :=
  match total_path s with
  | None | Some [] => Ok 0
  | Some l =>
      match py_div (inject_Z (path_index s)) (inject_Z (Z.of_nat (length l))) with
      | Ok r => Ok (r * 100)
      | Raise e => Raise e
      end
  end.

(** The dictionary of [to_dict]. *)
Record StateDict := mkStateDict {
  dict_mode : RobotMode;
  dict_position : Point;
  dict_battery : Q;
  dict_speed : Q;
  dict_delivery_id : option Z;
  dict_obstacle_detected : bool;
  dict_progress : Q
}.

Definition to_dict (s : RobotState) : Res StateDict :=
  match (match total_path s with
         | None | Some [] => Ok 0
         | Some _ => get_progress_percentage s
         end) with
  | Ok progress =>
      Ok (mkStateDict (mode s) (current_lat s, current_lon s) (battery_percentage s)
            (current_speed_kmh s) (current_delivery_id s) (obstacle_detected s) progress)
  | Raise e => Raise e
  end.

End RobotState.

(** ** services/robot_controller.py *)

(** An [asyncio.Task] running [_move_along_path]. *)
Record Task := mkTask { task_id : nat; task_done : bool }.

(** A road type as the graph data has it: a string or a list of strings. *)
Inductive RoadTypeValue :=
| RoadStr (s : string)
| RoadList (l : list string).

Record RobotController := mkRobotController {
  robot_id : string;
  state : RobotState;
  battery : BatteryModel;
  path : list Point;
  self_obstacle_detected : bool;      (* self.obstacle_detected *)
  emergency_stop_activated : bool;
  movement_task : option Task;
  is_moving : bool;
  speed_limits : gmap string Q;
  gps_noise : Q
}.

(** The controller together with what the process shares with it: the
    number of draws made so far from the clock and the random number
    generator, and the number of tasks the event loop has created. *)
Record World := mkWorld {
  self : RobotController;
  draws : nat;
  tasks_created : nat
}.

(** What the process reads from outside: the wall clock, the random
    number generator and [math]'s trigonometry, which has no rational
    counterpart.  The [n]-th read gets the value at [n]. *)
Record Env := mkEnv {
  haversine : Point -> Point -> Q;   (* great-circle distance in metres *)
  now_hour : nat -> Z;               (* datetime.now().hour *)
  random : nat -> Q;                 (* random.random(), in [0, 1) *)
  normal : nat -> Q;                 (* a standard normal draw *)
  time : nat -> Q                    (* time.time() *)
}.

(** What [start_delivery] returns. *)
Inductive StartResult :=
| Started (estimated_duration_min battery_start distance_m : Q) (path_points : nat)
| Failed (error : Message).

(** [l[i]] with Python's negative indices. *)
Definition py_index {A} (l : list A) (i : Z) : Res A :=
  let n := Z.of_nat (length l) in
  let j := if (i <? 0)%Z then (n + i)%Z else i in
  if (j <? 0)%Z then Raise IndexError
  else match l !! Z.to_nat j with
       | Some x => Ok x
       | None => Raise IndexError
       end.

(** What [get_state] returns: the full dictionary, or the degraded one
    with ['mode': 'ERROR'] and the error. *)
Inductive Snapshot :=
| FullSnapshot (state_dict : RobotState.StateDict)
    (battery_details : BatteryModel.BatteryDict) (robot_id : string)
    (is_moving : bool) (path_progress : Z * Z) (traffic_factor : Q)
| ErrorSnapshot (robot_id : string) (error : Message).

Module RobotController.

Local Open Scope py_scope.

Definition with_state (f : RobotState -> RobotState) (c : RobotController) :=
  mkRobotController (robot_id c) (f (state c)) (battery c) (path c)
    (self_obstacle_detected c) (emergency_stop_activated c) (movement_task c)
    (is_moving c) (speed_limits c) (gps_noise c).

Definition with_battery (b : BatteryModel) (c : RobotController) :=
  mkRobotController (robot_id c) (state c) b (path c)
    (self_obstacle_detected c) (emergency_stop_activated c) (movement_task c)
    (is_moving c) (speed_limits c) (gps_noise c).

Definition with_path (p : list Point) (c : RobotController) :=
  mkRobotController (robot_id c) (state c) (battery c) p
    (self_obstacle_detected c) (emergency_stop_activated c) (movement_task c)
    (is_moving c) (speed_limits c) (gps_noise c).

Definition with_emergency_stop_activated (v : bool) (c : RobotController) :=
  mkRobotController (robot_id c) (state c) (battery c) (path c)
    (self_obstacle_detected c) v (movement_task c)
    (is_moving c) (speed_limits c) (gps_noise c).

Definition with_movement_task (t : option Task) (c : RobotController) :=
  mkRobotController (robot_id c) (state c) (battery c) (path c)
    (self_obstacle_detected c) (emergency_stop_activated c) t
    (is_moving c) (speed_limits c) (gps_noise c).

Definition with_is_moving (v : bool) (c : RobotController) :=
  mkRobotController (robot_id c) (state c) (battery c) (path c)
    (self_obstacle_detected c) (emergency_stop_activated c) (movement_task c)
    v (speed_limits c) (gps_noise c).

Definition on_self (f : RobotController -> RobotController) (w : World) : World :=
  mkWorld (f (self w)) (draws w) (tasks_created w).

(** A write to a field of [self] or [self.state], logged. *)
Definition write (f : Field) (upd : RobotController -> RobotController) : Py World unit :=
  exec modify (on_self upd) in emit (EvWrite f).

Definition set_mode (m : RobotMode) : Py World unit :=
  exec modify (on_self (with_state (RobotState.with_mode m))) in emit (EvMode m).

(** A method of [self.battery] called from the controller. *)
Definition on_battery {A} (c : Py BatteryModel A) : Py World A :=
  zoom (fun w => battery (self w)) (fun b => on_self (with_battery b)) c.

Definition sleep : Py World unit := emit EvSleep.

(** [RobotController.__init__]: Bangalore, a full battery, no task. *)
Definition init (robot_id : string) (t0 : Q) : RobotController :=
  mkRobotController robot_id
    (RobotState.with_current (129716 # 10000, 775946 # 10000) (RobotState.default t0))
    (BatteryModel.init settings.BATTERY_CAPACITY_KWH)
    [] false false None false
    (list_to_map
       [("motorway", 25); ("trunk", 25); ("primary", 20); ("secondary", 18);
        ("tertiary", 15); ("residential", 12); ("service", 8);
        ("unclassified", 10); ("path", 5); ("footway", 5); ("default", 15)]%string)
    (5 # 1000000).

Section WithEnv.

Variable env : Env.

(** One read of the clock or of the random number generator. *)
Definition draw {A} (oracle : Env -> nat -> A) : Py World A :=
  let! w := get in
  exec modify (fun w => mkWorld (self w) (S (draws w)) (tasks_created w)) in
  ret (oracle env (draws w)).

(** [random.uniform(a, b)] is [a + (b - a) * random()]. *)
Definition uniform (a b : Q) : Py World Q :=
  let! u := draw random in ret (a + (b - a) * u).

(** [random.gauss(mu, sigma)]. *)
Definition gauss (mu sigma : Q) : Py World Q :=
  let! z := draw normal in ret (mu + z * sigma).

Definition rush_hour (hour : Z) : bool :=
  ((8 <=? hour)%Z && (hour <=? 10)%Z) || ((17 <=? hour)%Z && (hour <=? 20)%Z).

Definition _get_traffic_factor : Py World Q :=
  let! hour := draw now_hour in
  if rush_hour hour then ret (6 # 10)
  else if ((hour <=? 6)%Z || (22 <=? hour)%Z) then ret (12 # 10)
  else ret 1.

Definition _get_road_type_speed (road_type : RoadTypeValue) : Py World Q :=
  let! w := get in
  let road_type :=
    match road_type with
    | RoadList (r :: _) => r
    | RoadList [] => "default"%string
    | RoadStr r => r
    end in
  match speed_limits (self w) !! "default"%string with
  | None => raise KeyError
  | Some dflt => ret (default dflt (speed_limits (self w) !! road_type))
  end.

Definition _haversine_distance (p1 p2 : Point) : Q := haversine env p1 p2.

(** The loop of [_calculate_path_distance]: [total] is added to from
    the first segment to the last, in the order of the code. *)
Fixpoint path_distance_loop (total : Q) (path : list Point) : Q :=
  match path with
  | p :: (q :: _) as rest => path_distance_loop (total + _haversine_distance p q) rest
  | _ => total
  end.

Definition _calculate_path_distance (path : list Point) : Q :=
  path_distance_loop 0 path.

Definition _estimate_grade (lat lon : Q) : Py World Q := uniform (-3) 3.

Definition _check_obstacles : Py World bool :=
  let! hour := draw now_hour in
  let! u := draw random in
  if rush_hour hour then ret (Qlt_bool u (5 # 100))
  else ret (Qlt_bool u (1 # 100)).

Definition _handle_obstacle : Py World unit :=
  exec write Fspeed (with_state (RobotState.with_current_speed_kmh 0)) in
  let! wait_time := uniform 2 8 in
  sleep.

(** The body of [for step in range(steps)] in [_move_to_point];
    it answers [false] when it breaks out of the loop. *)
Definition move_step (lat1 lon1 lat2 lon2 distance current_speed movement_time : Q)
    (steps : Z) (step : nat) : Py World bool :=
  let! w := get in
  if emergency_stop_activated (self w) then ret false
  else
    let fraction := inject_Z (Z.of_nat step + 1) / inject_Z steps in
    let new_lat := lat1 + (lat2 - lat1) * fraction in
    let new_lon := lon1 + (lon2 - lon1) * fraction in
    let! n1 := gauss 0 (gps_noise (self w)) in
    let new_lat := new_lat + n1 in
    let! n2 := gauss 0 (gps_noise (self w)) in
    let new_lon := new_lon + n2 in
    exec write Fcurrent (with_state (RobotState.with_current (new_lat, new_lon))) in
    let! u := uniform (95 # 100) (105 # 100) in
    exec write Fspeed (with_state (RobotState.with_current_speed_kmh (current_speed * u))) in
    let segment_distance := distance / inject_Z steps in
    let! grade := _estimate_grade new_lat new_lon in
    let! consumption :=
      on_battery (BatteryModel.consume_energy segment_distance (current_speed * u) grade) in
    match consumption with
    | Consumed _ _ percentage =>
        let! w1 := get in
        exec write Fdistance_traveled
               (with_state (RobotState.with_distance_traveled_m
                  (distance_traveled_m (state (self w1)) + segment_distance))) in
        exec write Fbattery_percentage
               (with_state (RobotState.with_battery_percentage percentage)) in
        let! t := draw time in
        exec write Flast_update (with_state (RobotState.with_last_update t)) in
        exec sleep in
        ret true
    | _ =>
        exec write Femergency_stop (with_emergency_stop_activated true) in
        exec set_mode EMERGENCY in
        ret false
    end.

Fixpoint for_steps (body : nat -> Py World bool) (range : list nat) : Py World unit :=
  match range with
  | [] => ret tt
  | step :: rest =>
      let! continue := body step in
      if continue then for_steps body rest else ret tt
  end.

Definition _move_to_point (target : Point) (segment_index : Z) : Py World unit :=
  let! start_time := draw time in
  let! w := get in
  let lat1 := current_lat (state (self w)) in
  let lon1 := current_lon (state (self w)) in
  let lat2 := fst target in
  let lon2 := snd target in
  let distance := _haversine_distance (lat1, lon1) (lat2, lon2) in
  let road_type :=
    if Qlt_bool 100 distance then "primary"%string
    else if Qlt_bool 50 distance then "residential"%string
    else "service"%string in
  let! base_speed := _get_road_type_speed (RoadStr road_type) in
  let! traffic_factor := _get_traffic_factor in
  let current_speed := base_speed * traffic_factor in
  let! jitter := uniform (9 # 10) (11 # 10) in
  let current_speed := current_speed * jitter in
  let speed_ms := current_speed / (36 # 10) in
  let movement_time := if Qlt_bool 0 speed_ms then distance / speed_ms else 0 in
  let steps := py_max 1 (py_int (movement_time * 2)) in
  exec for_steps
         (move_step lat1 lon1 lat2 lon2 distance current_speed movement_time steps)
         (seq 0 (Z.to_nat steps)) in
  let! end_time := draw time in
  ret tt.

Definition last_index (w : World) : Z := (Z.of_nat (length (path (self w))) - 1)%Z.

(** The [while] loop of [_move_along_path]; [fuel] bounds the number
    of iterations and the loop answers [false] when it runs out. *)
Fixpoint move_loop (fuel : nat) : Py World bool :=
  match fuel with
  | O => ret false
  | S fuel =>
      let! w := get in
      if (path_index (state (self w)) <? last_index w)%Z
         && negb (emergency_stop_activated (self w))
      then
        if emergency_stop_activated (self w) then
          exec set_mode EMERGENCY in
          exec sleep in
          move_loop fuel
        else
          let! obstacle := _check_obstacles in
          if obstacle then
            exec write Fobstacle_detected
                   (with_state (RobotState.with_obstacle_detected true)) in
            exec _handle_obstacle in
            move_loop fuel
          else
            exec write Fobstacle_detected
                   (with_state (RobotState.with_obstacle_detected false)) in
            let! w1 := get in
            let current_index := path_index (state (self w1)) in
            let! next_point :=
              lift_res (py_index (path (self w1)) (current_index + 1)) in
            exec _move_to_point next_point current_index in
            let! w2 := get in
            exec write Fpath_index
                   (with_state (RobotState.with_path_index
                      (path_index (state (self w2)) + 1))) in
            let! w3 := get in
            let! progress :=
              lift_res (py_div (inject_Z (path_index (state (self w3))))
                               (inject_Z (last_index w3))) in
            exec (if (last_index w3 <=? path_index (state (self w3)))%Z then
                    match mode (state (self w3)) with
                    | PICKUP => set_mode TRANSIT
                    | TRANSIT => set_mode DELIVERY
                    | DELIVERY => set_mode RETURN
                    | RETURN =>
                        exec set_mode IDLE in
                        write Fis_moving (with_is_moving false)
                    | _ => ret tt
                    end
                  else ret tt) in
            exec sleep in
            move_loop fuel
      else ret true
  end.

Definition _move_along_path (fuel : nat) : Py World bool :=
  try_except (move_loop fuel)
    (fun e =>
       exec set_mode EMERGENCY in
       exec write Ferror_message
              (with_state (RobotState.with_error_message (Some (str e)))) in
       ret true).

Definition start_delivery (pickup delivery : Point) (path : list Point)
    : Py World StartResult :=
  try_except
    (exec (if (length path <? 2)%nat
           then raise (ValueError MsgInvalidPath) else ret tt) in
     let route_distance := _calculate_path_distance path in
     let! battery_check :=
       on_battery (BatteryModel.can_complete_route route_distance
                     settings.ROBOT_SPEED_KMH) in
     exec (if negb battery_check then
             let! available_range :=
               on_battery (BatteryModel.estimate_range settings.ROBOT_SPEED_KMH) in
             raise (ValueError (MsgInsufficientBattery
                                  (route_distance / 1000) (available_range / 1000)))
           else ret tt) in
     let! logged_percentage := on_battery BatteryModel.get_percentage in
     exec set_mode PICKUP in
     exec write Fcurrent (with_state (RobotState.with_current pickup)) in
     exec write Ftarget (with_state (RobotState.with_target delivery)) in
     exec write Fpath (with_path path) in
     exec write Ftotal_path (with_state (RobotState.with_total_path (Some path))) in
     exec write Fpath_index (with_state (RobotState.with_path_index 0)) in
     exec write Fdistance_traveled
            (with_state (RobotState.with_distance_traveled_m 0)) in
     exec write Femergency_stop (with_emergency_stop_activated false) in
     exec write Fis_moving (with_is_moving true) in
     let! w := get in
     exec match movement_task (self w) with
          | Some t =>
              if negb (task_done t) then
                exec emit (EvCancel (task_id t)) in
                exec emit (EvAwaitTask (task_id t)) in
                modify (on_self (with_movement_task
                                   (Some (mkTask (task_id t) true))))
              else ret tt
          | None => ret tt
          end in
     let! w1 := get in
     let new_task := tasks_created w1 in
     exec modify (fun w => mkWorld (self w) (draws w) (S (tasks_created w))) in
     exec emit (EvCreateTask new_task) in
     exec modify (on_self (with_movement_task (Some (mkTask new_task false)))) in
     let estimated_duration := route_distance / 1000 / settings.ROBOT_SPEED_KMH * 60 in
     let! battery_start := on_battery BatteryModel.get_percentage in
     ret (Started estimated_duration battery_start route_distance (length path)))
    (fun e =>
       exec set_mode IDLE in
       exec write Ferror_message
              (with_state (RobotState.with_error_message (Some (str e)))) in
       ret (Failed (str e))).

(** *** [start_delivery] around its suspension point

    [start_delivery] has one suspension point, [await
    self.movement_task]: the coroutine stops there until the task has
    ended, and other coroutines of the event loop run meanwhile.  The
    three definitions below are the call before that point, the end of
    the awaited task, and the call from that point on. *)

(** The two [except] clauses of [start_delivery]: they do the same. *)
Definition on_exception (e : exn) : Py World StartResult :=
  exec set_mode IDLE in
  exec write Ferror_message
         (with_state (RobotState.with_error_message (Some (str e)))) in
  ret (Failed (str e)).

(** From [asyncio.create_task] to the [return]. *)
Definition start_delivery_launch (path : list Point) : Py World StartResult :=
  let route_distance := _calculate_path_distance path in
  let! w1 := get in
  let new_task := tasks_created w1 in
  exec modify (fun w => mkWorld (self w) (draws w) (S (tasks_created w))) in
  exec emit (EvCreateTask new_task) in
  exec modify (on_self (with_movement_task (Some (mkTask new_task false)))) in
  let estimated_duration := route_distance / 1000 / settings.ROBOT_SPEED_KMH * 60 in
  let! battery_start := on_battery BatteryModel.get_percentage in
  ret (Started estimated_duration battery_start route_distance (length path)).

(** The call up to its suspension: [inr t] when it has cancelled the
    task [t] and waits for its end, [inl r] when it has returned [r]
    without waiting. *)
Definition start_delivery_until_await (pickup delivery : Point) (path : list Point)
    : Py World (StartResult + nat) :=
  try_except
    (exec (if (length path <? 2)%nat
           then raise (ValueError MsgInvalidPath) else ret tt) in
     let route_distance := _calculate_path_distance path in
     let! battery_check :=
       on_battery (BatteryModel.can_complete_route route_distance
                     settings.ROBOT_SPEED_KMH) in
     exec (if negb battery_check then
             let! available_range :=
               on_battery (BatteryModel.estimate_range settings.ROBOT_SPEED_KMH) in
             raise (ValueError (MsgInsufficientBattery
                                  (route_distance / 1000) (available_range / 1000)))
           else ret tt) in
     let! logged_percentage := on_battery BatteryModel.get_percentage in
     exec set_mode PICKUP in
     exec write Fcurrent (with_state (RobotState.with_current pickup)) in
     exec write Ftarget (with_state (RobotState.with_target delivery)) in
     exec write Fpath (with_path path) in
     exec write Ftotal_path (with_state (RobotState.with_total_path (Some path))) in
     exec write Fpath_index (with_state (RobotState.with_path_index 0)) in
     exec write Fdistance_traveled
            (with_state (RobotState.with_distance_traveled_m 0)) in
     exec write Femergency_stop (with_emergency_stop_activated false) in
     exec write Fis_moving (with_is_moving true) in
     let! w := get in
     match movement_task (self w) with
     | Some t =>
         if negb (task_done t) then
           exec emit (EvCancel (task_id t)) in
           exec emit (EvAwaitTask (task_id t)) in
           ret (inr (task_id t))
         else
           let! r := start_delivery_launch path in ret (inl r)
     | None =>
         let! r := start_delivery_launch path in ret (inl r)
     end)
    (fun e => let! r := on_exception e in ret (inl r)).

(** The task [t] has ended: [t.done()] is true from now on. *)
Definition task_ended (t : nat) (w : World) : World :=
  match movement_task (self w) with
  | Some t' =>
      if decide (task_id t' = t)
      then on_self (with_movement_task (Some (mkTask t true))) w
      else w
  | None => w
  end.

(** The call from the point where it is resumed. *)
Definition start_delivery_resumed (path : list Point) : Py World StartResult :=
  try_except (start_delivery_launch path) on_exception.

(** The call run from its start to its end, as [start_delivery] above
    runs it: nothing else happens while it is suspended but the end of
    the task it waits for. *)
Definition start_delivery_alone (pickup delivery : Point) (path : list Point)
    : Py World StartResult :=
  fun w =>
    match start_delivery_until_await pickup delivery path w with
    | (Ok (inl r), w1, l1) => (Ok r, w1, l1)
    | (Ok (inr t), w1, l1) => after l1 (start_delivery_resumed path (task_ended t w1))
    | (Raise e, w1, l1) => (Raise e, w1, l1)
    end.

Definition emergency_stop : Py World unit :=
  exec write Femergency_stop (with_emergency_stop_activated true) in
  exec set_mode EMERGENCY in
  write Fspeed (with_state (RobotState.with_current_speed_kmh 0)).

Definition resume_mission : Py World unit :=
  exec write Femergency_stop (with_emergency_stop_activated false) in
  let! w := get in
  if decide (mode (state (self w)) = EMERGENCY) then set_mode TRANSIT
  else ret tt.

(** [get_state]: the snapshot that status queries and the broadcaster
    read; [path_progress] is kept as the two numbers it prints. *)
Definition get_state : Py World Snapshot :=
  try_except
    (let! w := get in
     let! state_dict := lift_res (RobotState.to_dict (state (self w))) in
     let! battery_details := on_battery BatteryModel.to_dict in
     let path_progress :=
       (path_index (state (self w)),
        match path (self w) with
        | [] => 0%Z
        | _ => (Z.of_nat (length (path (self w))) - 1)%Z
        end) in
     let! traffic_factor := _get_traffic_factor in
     ret (FullSnapshot state_dict battery_details (robot_id (self w))
            (is_moving (self w)) path_progress traffic_factor))
    (fun e =>
       let! w := get in
       ret (ErrorSnapshot (robot_id (self w)) (str e))).

End WithEnv.

End RobotController.

(** ** services/routing_engine.py and the A* search of services/map_service.py *)

(** The attribute dictionary of an edge: ['length'] and, when the
    provider gave one, ['highway']. *)
Record EdgeData := mkEdgeData {
  length_m : Q;
  highway : option RoadTypeValue
}.

(** The dictionary [d] that networkx hands to a weight function for
    the nodes [u] and [v].  On a DiGraph it is the attribute dictionary
    of the edge.  On a MultiDiGraph, the only kind of graph that
    [MapService] builds ([ox.graph_from_point], [_create_fallback_graph],
    [_create_graph_from_google]), it is the dictionary of the parallel
    edges from [u] to [v]: one attribute dictionary per edge key, an
    integer, and at least one.  networkx is not part of the repository;
    this is the calling convention of its [astar_path] and
    [shortest_path]. *)
Inductive EdgeDict :=
| Attributes (d : EdgeData)
| ParallelEdges (key : Z) (d : EdgeData) (others : list (Z * EdgeData)).

Module RoadType.
Definition HIGHWAY : Q := 1.
Definition MAIN_ROAD : Q := 12 # 10.
Definition RESIDENTIAL : Q := 15 # 10.
Definition SERVICE : Q := 2.
Definition PEDESTRIAN : Q := 3.
End RoadType.

Module RoutingEngine.

Definition road_type_weights : gmap string Q :=
  list_to_map
    [("motorway", RoadType.HIGHWAY); ("trunk", RoadType.HIGHWAY);
     ("primary", RoadType.MAIN_ROAD); ("secondary", RoadType.MAIN_ROAD);
     ("tertiary", RoadType.RESIDENTIAL); ("residential", RoadType.RESIDENTIAL);
     ("service", RoadType.SERVICE); ("unclassified", RoadType.SERVICE);
     ("path", RoadType.PEDESTRIAN); ("footway", RoadType.PEDESTRIAN)]%string.

(** [road_type_weights.get(road_type, RoadType.RESIDENTIAL.value)] *)
Definition weight_factor (road_type : string) : Q :=
  default RoadType.RESIDENTIAL (road_type_weights !! road_type).

(** The closure [weight(u, v, d)] of [calculate_route_astar].  Its
    first statement is [d['length']]: among the keys of the parallel
    edges, which are integers, there is no ['length']. *)
Definition weight (d : EdgeDict) : Res Q :=
  match d with
  | ParallelEdges _ _ _ => Raise KeyError
  | Attributes d =>
      let base_distance := length_m d in
      let road_type := default (RoadStr "residential") (highway d) in
      match road_type with
      | RoadList [] => Raise IndexError
      | RoadList (r :: _) => Ok (base_distance * weight_factor r)
      | RoadStr r => Ok (base_distance * weight_factor r)
      end
  end.

(** The closure [weight(u, v, d)] of [calculate_route_dijkstra]:
    [d['length']]. *)
Definition dijkstra_weight (d : EdgeDict) : Res Q :=
  match d with
  | ParallelEdges _ _ _ => Raise KeyError
  | Attributes d => Ok (length_m d)
  end.

End RoutingEngine.

Module MapService.

(** [_osm_route] searches with [weight='length'], for A* as for
    Dijkstra.  For the name of an attribute networkx makes the weight
    function itself: the attribute of the edge and, among parallel
    edges, the smallest. *)
Definition astar_weight (d : EdgeDict) : Res Q :=
  match d with
  | Attributes d => Ok (length_m d)
  | ParallelEdges _ d others =>
      Ok (foldl (fun m e => py_min m (length_m e.2)) (length_m d) others)
  end.

(** The graph as the loop of [_osm_route] reads it: the coordinates
    [(y, x)] of a node, and the data of the edge between two
    consecutive nodes of a route. *)
Record Graph := mkGraph {
  node_coord : nat -> Point;
  get_edge_data : nat -> nat -> EdgeData
}.

(** [max(2, int(segment_distance / 10))] *)
Definition num_points (segment_distance : Q) : Z :=
  py_max 2 (py_int (segment_distance / 10)).

Section Route.

Variable graph : Graph.

(** [line.interpolate(j / num_points, normalized=True)] on the line
    from [u_coord] to [v_coord], read back as [(point.y, point.x)]. *)
Variable interpolate : Point -> Point -> Q -> Point.

(** What one iteration of the loop appends to [route_coords]. *)
Definition edge_points (i : nat) (u v : nat) : list Point :=
  let segment_distance := length_m (get_edge_data graph u v) in
  let u_coord := node_coord graph u in
  let v_coord := node_coord graph v in
  (if (i =? 0)%nat then [u_coord] else [])
  ++ map (fun j : nat =>
            interpolate u_coord v_coord
              (inject_Z (Z.of_nat j) / inject_Z (num_points segment_distance)))
         (seq 1 (Z.to_nat (num_points segment_distance) - 1))
  ++ [v_coord].

(** The loop [for i in range(len(route) - 1)]. *)
Fixpoint route_loop (i : nat) (route : list nat) (route_coords : list Point)
    (total_distance : Q) : list Point * Q :=
  match route with
  | u :: (v :: _) as rest =>
      route_loop (S i) rest (route_coords ++ edge_points i u v)
        (total_distance + length_m (get_edge_data graph u v))
  | _ => (route_coords, total_distance)
  end.

(** [_osm_route], from the route that the search has found. *)
Definition _osm_route (route : list nat) : list Point * Q * Q :=
  let '(route_coords, total_distance) := route_loop 0 route [] 0 in
  let duration_min := total_distance / 1000 / settings.ROBOT_SPEED_KMH * 60 in
  (route_coords, total_distance, duration_min).

End Route.

(** [_get_straight_line_route]; the great-circle distance is the
    environment's. *)
Definition _get_straight_line_route (env : Env)
    (start_lat start_lon end_lat end_lon : Q) : list Point * Q * Q :=
  let steps := 20%nat in
  let coords :=
    map (fun i : nat =>
           let t := inject_Z (Z.of_nat i) / inject_Z (Z.of_nat steps) in
           (start_lat + (end_lat - start_lat) * t,
            start_lon + (end_lon - start_lon) * t))
        (seq 0 (steps + 1)) in
  let distance := haversine env (start_lat, start_lon) (end_lat, end_lon) in
  let duration_min := distance / 1000 / settings.ROBOT_SPEED_KMH * 60 in
  (coords, distance, duration_min).

(** [get_route]: [routed] is the outcome of the routing it tries,
    [_google_route] or [_osm_route] with its search. *)
Definition get_route (env : Env) (routed : Res (list Point * Q * Q))
    (start_lat start_lon end_lat end_lon : Q) : list Point * Q * Q :=
  match routed with
  | Ok route => route
  | Raise _ => _get_straight_line_route env start_lat start_lon end_lat end_lon
  end.

End MapService.

(** The two A* searches of the repository. *)
Inductive AstarSearch := OsmRoute | RoutingEngineAstar.

(** What each search takes as the cost of going from [u] to [v]. *)
Definition astar_edge_cost (a : AstarSearch) (d : EdgeDict) : Res Q :=
  match a with
  | OsmRoute => MapService.astar_weight d
  | RoutingEngineAstar => RoutingEngine.weight d
  end.

(** The road class of an edge, as [weight] reads it. *)
Definition road_class (d : EdgeData) : option string :=
  match default (RoadStr "residential") (highway d) with
  | RoadList [] => None
  | RoadList (r :: _) => Some r
  | RoadStr r => Some r
  end.

Definition physical_length (edges : list EdgeData) : Q :=
  foldr (fun d acc => length_m d + acc) 0 edges.

(** ** api/websocket_manager.py *)

(** How the network answers at one moment: which handshakes and which
    sends go through.  A [WebSocket] is named by a number. *)
Record Net := mkNet {
  accept_ok : nat -> bool;
  send_ok : nat -> bool
}.

Module ConnectionManager.

Local Open Scope py_scope.

(** [self.active_connections] *)
Abbreviation Registry := (gmap string (gset nat)).

Definition init : Registry := ∅.

Definition connect (net : Net) (websocket : nat) (robot_id : string)
    : Py Registry unit :=
  exec (if accept_ok net websocket then ret tt else raise WebSocketDisconnect) in
  let! m := get in
  exec (match m !! robot_id with
        | None => modify (insert robot_id (∅ : gset nat))
        | Some _ => ret tt
        end) in
  modify (fun m => <[robot_id := {[websocket]} ∪ default ∅ (m !! robot_id)]> m).

Definition disconnect (websocket : nat) (robot_id : string) : Py Registry unit :=
  let! m := get in
  match m !! robot_id with
  | Some s =>
      exec modify (insert robot_id (s ∖ {[websocket]})) in
      let! m1 := get in
      if decide (default ∅ (m1 !! robot_id) = (∅ : gset nat))
      then modify (delete robot_id)
      else ret tt
  | None => ret tt
  end.

(** The sends of [broadcast_robot_state], one per subscriber; the
    answer is the set [disconnected]. *)
Fixpoint send_all (net : Net) (connections : list nat) (disconnected : gset nat)
    : Py Registry (gset nat) :=
  match connections with
  | [] => ret disconnected
  | connection :: rest =>
      exec emit (EvSend connection) in
      if send_ok net connection then send_all net rest disconnected
      else send_all net rest ({[connection]} ∪ disconnected)
  end.

Fixpoint discard_all (robot_id : string) (conns : list nat) : Py Registry unit :=
  match conns with
  | [] => ret tt
  | conn :: rest =>
      exec modify (fun m => <[robot_id := default ∅ (m !! robot_id) ∖ {[conn]}]> m) in
      discard_all robot_id rest
  end.

Definition broadcast_robot_state (net : Net) (robot_id : string) : Py Registry unit :=
  let! m := get in
  match m !! robot_id with
  | Some s =>
      let! disconnected := send_all net (elements s) ∅ in
      discard_all robot_id (elements disconnected)
  | None => ret tt
  end.

(** Every robot id of the registry has at least one subscriber. *)
Definition no_empty_entry (m : Registry) : Prop :=
  ∀ robot_id s, m !! robot_id = Some s → s ≠ ∅.

End ConnectionManager.

(** * Properties *)

(** ** Comparisons of floats *)

Local Open Scope Q_scope.

Lemma Qlt_bool_iff x y : Qlt_bool x y = true <-> x < y.
Proof.
  unfold Qlt_bool. rewrite negb_true_iff, <- not_true_iff_false, Qle_bool_iff.
  split; [apply Qnot_le_lt | apply Qlt_not_le].
Qed.

Lemma Qlt_bool_false_iff x y : Qlt_bool x y = false <-> y <= x.
Proof.
  unfold Qlt_bool. rewrite negb_false_iff. apply Qle_bool_iff.
Qed.

Lemma Qle_bool_false_iff x y : Qle_bool x y = false <-> y < x.
Proof.
  rewrite <- not_true_iff_false, Qle_bool_iff.
  split; [apply Qnot_le_lt | apply Qlt_not_le].
Qed.


(** ** Laws of the monad *)

Lemma after_nil {S A} (out : Res A * S * list Event) : after [] out = out.
Proof. by destruct out as [[r s] l]. Qed.

Lemma after_after {S A} l1 l2 (out : Res A * S * list Event) :
  after l1 (after l2 out) = after (l1 ++ l2) out.
Proof. destruct out as [[r s] l]. simpl. by rewrite app_assoc. Qed.

Lemma bind_after {S A B} (c : Py S A) (k : A -> Py S B) s :
  bind c k s =
  match c s with
  | (Ok a, s1, l1) => after l1 (k a s1)
  | (Raise e, s1, l1) => (Raise e, s1, l1)
  end.
Proof. reflexivity. Qed.

Lemma bind_get {S B} (k : S -> Py S B) s : bind get k s = k s s.
Proof. rewrite bind_after. cbn. apply after_nil. Qed.

Lemma bind_ret {S A B} (a : A) (k : A -> Py S B) s : bind (ret a) k s = k a s.
Proof. rewrite bind_after. cbn. apply after_nil. Qed.

Lemma bind_raise {S A B} e (k : A -> Py S B) s :
  bind (raise e) k s = (Raise e, s, []).
Proof. reflexivity. Qed.

Lemma bind_lift_res {S A B} (r : Res A) (k : A -> Py S B) s :
  bind (lift_res r) k s =
  match r with Ok a => k a s | Raise e => (Raise e, s, []) end.
Proof. rewrite bind_after. destruct r; cbn; [apply after_nil | reflexivity]. Qed.

Lemma bind_modify {S B} (f : S -> S) (k : unit -> Py S B) s :
  bind (modify f) k s = k tt (f s).
Proof. rewrite bind_after. cbn. apply after_nil. Qed.

Lemma bind_emit {S B} ev (k : unit -> Py S B) s :
  bind (emit ev) k s = after [ev] (k tt s).
Proof. reflexivity. Qed.

Lemma result_of_after {S A} l (out : Res A * S * list Event) :
  result_of (after l out) = result_of out.
Proof. by destruct out as [[? ?] ?]. Qed.

Lemma state_of_after {S A} l (out : Res A * S * list Event) :
  state_of (after l out) = state_of out.
Proof. by destruct out as [[? ?] ?]. Qed.

Lemma log_of_after {S A} l (out : Res A * S * list Event) :
  log_of (after l out) = l ++ log_of out.
Proof. by destruct out as [[? ?] ?]. Qed.

Lemma bind_assoc {S A B C} (c : Py S A) (k1 : A -> Py S B) (k2 : B -> Py S C) s :
  bind (bind c k1) k2 s = bind c (fun a => bind (k1 a) k2) s.
Proof.
  unfold bind. destruct (c s) as [[[a|e] s1] l1]; [|reflexivity].
  destruct (k1 a s1) as [[[b|e] s2] l2]; [|reflexivity].
  destruct (k2 b s2) as [[r s3] l3]. by rewrite app_assoc.
Qed.


(** ** Tactics for running a method *)

Ltac py_rewrite :=
  repeat first
    [ rewrite bind_get | rewrite bind_ret | rewrite bind_raise
    | rewrite bind_modify | rewrite bind_emit | rewrite bind_lift_res
    | rewrite bind_assoc | rewrite after_nil | rewrite after_after
    | rewrite result_of_after | rewrite state_of_after | rewrite log_of_after ].

Ltac battery_fields :=
  cbn [stats consumption_rate regenerative_braking_efficiency
       temperature_derate_factor cycle_degradation
       capacity_kwh current_charge_kwh voltage_v current_a temperature_c
       cycles health charging
       BatteryModel.set_stats BatteryModel.with_current_charge_kwh
       BatteryModel.with_current_a BatteryModel.with_cycles
       BatteryModel.with_health BatteryModel.with_charging
       state_of result_of log_of fst snd app].

(** ** The battery model *)

Section BatteryFacts.

Import BatteryModel.

(** What [consume_energy] does, case by case: refused while charging,
    a fault in the computation of the consumption, refused for want of
    charge, or the charge is reduced by the consumption. *)
Lemma consume_energy_cases (b : BatteryModel) (d s g : Q) :
  let out := consume_energy d s g b in
  (charging (stats b) = true /\ out = (Ok RobotIsCharging, b, []))
  \/ (charging (stats b) = false /\
      exists e, calculate_consumption b d s g = Raise e /\ out = (Raise e, b, []))
  \/ (charging (stats b) = false /\
      exists c, calculate_consumption b d s g = Ok c /\
        current_charge_kwh (stats b) < c /\
        out = (Ok (InsufficientBattery c (current_charge_kwh (stats b))), b, []))
  \/ (charging (stats b) = false /\
      exists c, calculate_consumption b d s g = Ok c /\
        c <= current_charge_kwh (stats b) /\
        current_charge_kwh (stats (state_of out)) = current_charge_kwh (stats b) - c /\
        capacity_kwh (stats (state_of out)) = capacity_kwh (stats b) /\
        charging (stats (state_of out)) = false /\
        log_of out = [] /\
        forall r, result_of out = Ok r ->
          exists ratio pct,
            py_div (current_charge_kwh (stats b) - c) (capacity_kwh (stats b)) = Ok ratio /\
            r = Consumed c (current_charge_kwh (stats b) - c) pct /\
            health (stats (state_of out)) = classify ratio).
Proof.
  intros out. subst out. unfold consume_energy.
  rewrite bind_get.
  destruct (charging (stats b)) eqn:Hch.
  { left. split; reflexivity. }
  right. rewrite bind_lift_res.
  destruct (calculate_consumption b d s g) as [c|e] eqn:Hc.
  2:{ left. split; [reflexivity|]. exists e. split; reflexivity. }
  right.
  destruct (Qlt_bool (current_charge_kwh (stats b)) c) eqn:Hlt.
  { left. split; [reflexivity|]. exists c. split; [reflexivity|].
    split; [apply Qlt_bool_iff; exact Hlt | reflexivity]. }
  right. split; [reflexivity|]. exists c. split; [reflexivity|].
  split; [apply Qlt_bool_false_iff; exact Hlt|].
  rewrite bind_modify.
  assert (Hamps : forall k : Q -> Py BatteryModel ConsumeResult, forall b',
    (exists e, bind (if Qlt_bool 0 d
              then
               bind (lift_res (py_div d s)) (fun t => lift_res (py_div (c * 1000) (t * 3600)))
              else ret 0) k b' = (Raise e, b', []))
    \/ exists amps, bind (if Qlt_bool 0 d
              then
               bind (lift_res (py_div d s)) (fun t => lift_res (py_div (c * 1000) (t * 3600)))
              else ret 0) k b' = k amps b').
  { intros k b'. destruct (Qlt_bool 0 d).
    - rewrite bind_assoc, bind_lift_res. destruct (py_div d s) as [t|e].
      + rewrite bind_lift_res. destruct (py_div (c * 1000) (t * 3600)) as [a|e]; eauto.
      + eauto.
    - right. exists 0. by rewrite bind_ret. }
  match goal with |- context [bind _ ?k ?b'] => destruct (Hamps k b') as [[e He]|[amps He]]; rewrite He; clear He Hamps end.
  { battery_fields. rewrite Hch. repeat split; try reflexivity. intros r Hr; discriminate Hr. }
  py_rewrite. battery_fields.
  destruct (py_div (current_charge_kwh (stats b) - c) (capacity_kwh (stats b))) as [ratio|e] eqn:Hratio.
  2:{ battery_fields. rewrite Hch. repeat split; try reflexivity. intros r Hr; discriminate Hr. }
  unfold _update_health, get_percentage.
  destruct (Qlt_bool (8 # 10) (1 - ratio)); py_rewrite; battery_fields; rewrite Hratio;
    py_rewrite; battery_fields; rewrite Hratio; py_rewrite; unfold ret; battery_fields;
    rewrite Hch;
    (repeat split; try reflexivity; intros r Hr; inversion Hr; subst r; eauto).
Qed.

Lemma py_div_ok (a b : Q) : ~ b == 0 -> py_div a b = Ok (a / b).
Proof.
  intros Hb. unfold py_div.
  destruct (Qeq_bool b 0) eqn:E; [|reflexivity].
  apply Qeq_bool_iff in E. contradiction.
Qed.

Lemma py_div_inv (a b r : Q) : py_div a b = Ok r -> ~ b == 0 /\ r = a / b.
Proof.
  unfold py_div. destruct (Qeq_bool b 0) eqn:E; [discriminate|].
  intros [= <-]. split; [|reflexivity].
  intros Hb. apply Qeq_bool_iff in Hb. congruence.
Qed.

(** With charge for the consumption, a usable capacity and a speed
    to divide by, [consume_energy] succeeds. *)
Lemma consume_energy_succeeds (b : BatteryModel) (d s g c : Q) :
  charging (stats b) = false ->
  calculate_consumption b d s g = Ok c ->
  c <= current_charge_kwh (stats b) ->
  ~ capacity_kwh (stats b) == 0 ->
  (d <= 0 \/ ~ s == 0) ->
  exists pct b',
    consume_energy d s g b
    = (Ok (Consumed c (current_charge_kwh (stats b) - c) pct), b', []).
Proof.
  intros Hch Hc Hle Hcap Hds. unfold consume_energy.
  rewrite bind_get, Hch, bind_lift_res, Hc.
  apply Qlt_bool_false_iff in Hle. rewrite Hle. rewrite bind_modify.
  assert (Hamps : exists amps, forall (k : Q -> Py BatteryModel ConsumeResult) b',
    bind (if Qlt_bool 0 d
          then bind (lift_res (py_div d s))
                    (fun t => lift_res (py_div (c * 1000) (t * 3600)))
          else ret 0) k b' = k amps b').
  { destruct (Qlt_bool 0 d) eqn:Hd.
    - apply Qlt_bool_iff in Hd.
      destruct Hds as [Hd0 | Hs]; [exfalso; lra|].
      assert (Hne : ~ d / s * 3600 == 0).
      { intros H0. assert (Hd' : d == d / s * 3600 * (s / 3600)) by (field; exact Hs).
        rewrite H0 in Hd'. lra. }
      exists (c * 1000 / (d / s * 3600)). intros k b'.
      rewrite bind_assoc, bind_lift_res, (py_div_ok d s Hs), bind_lift_res.
      by rewrite (py_div_ok _ _ Hne).
    - exists 0. intros k b'. by rewrite bind_ret. }
  destruct Hamps as [amps Hamps]. rewrite Hamps.
  py_rewrite. battery_fields.
  rewrite (py_div_ok _ _ Hcap).
  unfold _update_health, get_percentage.
  destruct (Qlt_bool (8 # 10) (1 - _)); py_rewrite; battery_fields;
    rewrite (py_div_ok _ _ Hcap); py_rewrite; battery_fields;
    rewrite (py_div_ok _ _ Hcap); py_rewrite; unfold ret; battery_fields; eauto.
Qed.

Lemma can_complete_route_spec (b : BatteryModel) (d s : Q) :
  can_complete_route d s b =
  match calculate_consumption b d s 0 with
  | Ok required =>
      (Ok (Qle_bool required (current_charge_kwh (stats b) * (9 # 10))), b, [])
  | Raise e => (Raise e, b, [])
  end.
Proof.
  unfold can_complete_route. rewrite bind_get, bind_lift_res.
  by destruct (calculate_consumption b d s 0).
Qed.

Lemma calculate_consumption_raises (b : BatteryModel) (d v g : Q) (e : exn) :
  calculate_consumption b d v g = Raise e -> e = ZeroDivisionError.
Proof.
  unfold calculate_consumption, py_div. cbn zeta.
  destruct (Qeq_bool _ 0); [congruence|].
  destruct (Qlt_bool g 0); discriminate.
Qed.



(** The inputs of the witnesses: a full battery, and the same battery
    on the charger. *)
Definition full_battery : BatteryModel := init settings.BATTERY_CAPACITY_KWH.

Definition battery_on_charger : BatteryModel := state_of (charge 1 full_battery).


(** At speed 0 the route is accepted and the consumption that follows
    raises: the current draw divides by the travel time. *)
Lemma can_complete_route_at_zero_speed :
  result_of (can_complete_route 1000 0 full_battery) = Ok true
  /\ result_of (consume_energy 1000 0 0 full_battery) = Raise ZeroDivisionError.
Proof. vm_compute. split; reflexivity. Qed.


(** *** The range of the charge *)

Definition charge_in_range (b : BatteryModel) : Prop :=
  0 <= current_charge_kwh (stats b)
  /\ current_charge_kwh (stats b) <= capacity_kwh (stats b).

Lemma consume_energy_charge (b : BatteryModel) (d s g : Q) :
  let b' := state_of (consume_energy d s g b) in
  capacity_kwh (stats b') = capacity_kwh (stats b)
  /\ (current_charge_kwh (stats b') = current_charge_kwh (stats b)
      \/ exists c, calculate_consumption b d s g = Ok c
           /\ c <= current_charge_kwh (stats b)
           /\ current_charge_kwh (stats b') = current_charge_kwh (stats b) - c).
Proof.
  destruct (consume_energy_cases b d s g)
    as [[_ H] | [[_ (e & _ & H)] | [[_ (c & _ & _ & H)] | [_ (c & Hc & Hle & H1 & H2 & _)]]]];
    cbn zeta; try (rewrite H; cbn [state_of fst snd]; by auto).
  split; [exact H2|]. right. exists c. auto.
Qed.

Lemma charge_spec (b : BatteryModel) (e : Q) :
  state_of (charge e b)
  = set_stats (with_charging (Qlt_bool 0 e))
      (set_stats (with_current_charge_kwh
                    (py_min (current_charge_kwh (stats b) + e) (capacity_kwh (stats b))))
                 b).
Proof.
  unfold charge, get_percentage. py_rewrite. battery_fields.
  destruct (py_div _ _); reflexivity.
Qed.

Lemma py_min_le_r (a b : Q) : py_min a b <= b.
Proof.
  unfold py_min. destruct (Qlt_bool b a) eqn:E; [lra|].
  apply Qlt_bool_false_iff in E. exact E.
Qed.

Lemma py_min_glb (a b c : Q) : c <= a -> c <= b -> c <= py_min a b.
Proof. unfold py_min. by destruct (Qlt_bool b a). Qed.

(** The calls of a client of the battery. *)
Inductive Op :=
| OpConsume (distance_m speed_kmh grade_percent : Q)
| OpCharge (energy_kwh : Q).

Definition exec_op (b : BatteryModel) (op : Op) : BatteryModel :=
  match op with
  | OpConsume d s g => state_of (consume_energy d s g b)
  | OpCharge e => state_of (charge e b)
  end.

(** A call that takes nothing back: the consumption it computes is not
    negative, the energy it charges is not negative. *)
Definition forward (b : BatteryModel) (op : Op) : Prop :=
  match op with
  | OpConsume d s g => forall c, calculate_consumption b d s g = Ok c -> 0 <= c
  | OpCharge e => 0 <= e
  end.

Fixpoint all_forward (b : BatteryModel) (ops : list Op) : Prop :=
  match ops with
  | [] => True
  | op :: rest => forward b op /\ all_forward (exec_op b op) rest
  end.

Lemma exec_op_in_range (b : BatteryModel) (op : Op) :
  charge_in_range b -> forward b op -> charge_in_range (exec_op b op).
Proof.
  intros [Hlo Hhi] Hfw. destruct op as [d s g | e]; cbn [exec_op forward] in *.
  - destruct (consume_energy_charge b d s g) as [Hcap [Hsame | (c & Hc & Hle & Hnew)]];
      unfold charge_in_range; rewrite Hcap.
    + rewrite Hsame. auto.
    + rewrite Hnew. specialize (Hfw c Hc). split; lra.
  - rewrite charge_spec. unfold charge_in_range. battery_fields. split.
    + apply py_min_glb; lra.
    + apply py_min_le_r.
Qed.

(** C6 (as amended).  [consume_energy] never leaves a charge below 0
    that was not below 0, and [charge] never leaves it above the
    capacity.  Both bounds hold after every sequence of calls in which
    each consumption computed and each energy charged is not negative. *)
Theorem charge_stays_in_range :
  (forall b d s g,
      0 <= current_charge_kwh (stats b) ->
      0 <= current_charge_kwh (stats (state_of (consume_energy d s g b))))
  /\ (forall b e,
      current_charge_kwh (stats (state_of (charge e b)))
      <= capacity_kwh (stats (state_of (charge e b))))
  /\ (forall ops b,
      charge_in_range b -> all_forward b ops ->
      charge_in_range (foldl exec_op b ops)).
Proof.
  split; [|split].
  - intros b d s g Hlo.
    destruct (consume_energy_charge b d s g) as [_ [-> | (c & _ & Hle & ->)]]; lra.
  - intros b e. rewrite charge_spec. battery_fields. apply py_min_le_r.
  - induction ops as [|op ops IH]; intros b Hb Hfw; [exact Hb|].
    destruct Hfw as [Hop Hrest]. cbn [foldl]. apply IH; [|exact Hrest].
    by apply exec_op_in_range.
Qed.

Lemma charge_stays_in_range_witness :
  charge_in_range
    (foldl exec_op full_battery [OpConsume 1000 15 0; OpCharge (1 # 100)]).
Proof.
  refine (proj2 (proj2 charge_stays_in_range) _ full_battery _ _).
  - split; vm_compute; discriminate.
  - cbn [all_forward]. split; [|split; [|exact I]].
    + intros c [= <-]. vm_compute. discriminate.
    + vm_compute. discriminate.
Defined.

(** C6 as stated fails: down a grade of 40 percent the consumption
    computed is negative, and a full battery ends above its capacity. *)
Lemma consume_energy_exceeds_capacity :
  charge_in_range full_battery
  /\ ~ charge_in_range (exec_op full_battery (OpConsume 1000 10 (-40))).
Proof.
  split; [split; vm_compute; discriminate|].
  intros [_ H]. revert H. vm_compute. intros H. by apply H.
Qed.

(** *** The health field *)

(** The classification that the health field should show. *)
Definition health_is_current (b : BatteryModel) : Prop :=
  exists ratio,
    py_div (current_charge_kwh (stats b)) (capacity_kwh (stats b)) = Ok ratio
    /\ health (stats b) = classify ratio.

(** A [consume_energy] that succeeds leaves the health field equal to
    the classification of the new charge. *)
Lemma consume_energy_updates_health (b : BatteryModel) (d s g : Q) r :
  result_of (consume_energy d s g b) = Ok r -> success r = true ->
  health_is_current (state_of (consume_energy d s g b)).
Proof.
  intros Hr Hs.
  destruct (consume_energy_cases b d s g)
    as [[_ H] | [[_ (e & _ & H)] | [[_ (c & _ & _ & H)] | [_ (c & _ & _ & H1 & H2 & _ & _ & H)]]]];
    cbn zeta in *.
  - rewrite H in Hr. injection Hr as <-. discriminate.
  - rewrite H in Hr. discriminate.
  - rewrite H in Hr. injection Hr as <-. discriminate.
  - destruct (H r Hr) as (ratio & pct & Hratio & _ & Hh).
    exists ratio. by rewrite H1, H2.
Qed.

(** [charge] does not touch the health field. *)
Lemma charge_keeps_health (b : BatteryModel) (e : Q) :
  health (stats (state_of (charge e b))) = health (stats b).
Proof. by rewrite charge_spec. Qed.

(** A battery drained over 25 km, then charged with 1 kWh. *)
Definition drained_battery : BatteryModel :=
  state_of (consume_energy 25000 15 0 full_battery).

Definition recharged_battery : BatteryModel := state_of (charge 1 drained_battery).

(** C7.  The code at the failing input: after [consume_energy] the
    health field is the classification of the charge (poor, at 32
    percent); after the [charge] that follows, the charge is at 72
    percent, which classifies as good, and the field still says poor. *)
Theorem charge_leaves_health_stale :
  health_is_current drained_battery
  /\ health (stats drained_battery) = POOR
  /\ health (stats recharged_battery) = POOR
  /\ py_div (current_charge_kwh (stats recharged_battery))
            (capacity_kwh (stats recharged_battery))
     = Ok (current_charge_kwh (stats recharged_battery)
           / capacity_kwh (stats recharged_battery))
  /\ classify (current_charge_kwh (stats recharged_battery)
               / capacity_kwh (stats recharged_battery)) = GOOD
  /\ ~ health_is_current recharged_battery.
Proof.
  split; [|split; [|split; [|split; [|split]]]].
  - eexists. split; vm_compute; reflexivity.
  - vm_compute. reflexivity.
  - vm_compute. reflexivity.
  - vm_compute. reflexivity.
  - vm_compute. reflexivity.
  - intros (ratio & Hr & Hh). apply py_div_inv in Hr as [_ ->].
    revert Hh. vm_compute. discriminate.
Qed.

(** *** Charging nothing *)

Lemma Qplus_0_r_eq (x : Q) : x + 0 = x.
Proof.
  destruct x as [n d]. unfold Qplus. cbn [Qnum Qden].
  by rewrite Z.mul_1_r, Z.mul_0_l, Z.add_0_r, Pos.mul_1_r.
Qed.

(** C9 (as amended).  On a battery whose charge does not exceed its
    capacity, [charge(0)] leaves the charge, the health and every other
    field as they were, except the charging flag, which it clears; it
    reports that nothing was charged. *)
Theorem charge_zero (b : BatteryModel) :
  current_charge_kwh (stats b) <= capacity_kwh (stats b) ->
  state_of (charge 0 b) = set_stats (with_charging false) b
  /\ log_of (charge 0 b) = []
  /\ (forall r, result_of (charge 0 b) = Ok r -> charged_kwh r == 0).
Proof.
  intros Hle.
  assert (Hmin : py_min (current_charge_kwh (stats b) + 0) (capacity_kwh (stats b))
                 = current_charge_kwh (stats b)).
  { rewrite Qplus_0_r_eq. unfold py_min.
    apply Qlt_bool_false_iff in Hle. by rewrite Hle. }
  split; [|split].
  - rewrite charge_spec, Hmin.
    destruct b as [[cap cur v a t cy h ch] rate regen temp deg]. reflexivity.
  - unfold charge, get_percentage. py_rewrite. battery_fields.
    by destruct (py_div _ _).
  - unfold charge, get_percentage. py_rewrite. battery_fields. rewrite Hmin.
    destruct (py_div _ _); cbn [result_of fst]; [|discriminate].
    intros r [= <-]. cbn [charged_kwh]. lra.
Qed.

Lemma charge_zero_witness :
  state_of (charge 0 full_battery) = set_stats (with_charging false) full_battery.
Proof.
  refine (proj1 (charge_zero full_battery _)).
  vm_compute. discriminate.
Defined.

(** C9 as stated fails on the charger: [charge(0)] clears the
    charging flag, so the battery is not as it was. *)
Lemma charge_zero_clears_charging :
  charging (stats battery_on_charger) = true
  /\ charging (stats (state_of (charge 0 battery_on_charger))) = false
  /\ state_of (charge 0 battery_on_charger) <> battery_on_charger.
Proof.
  split; [reflexivity|]. split; [reflexivity|].
  intros H. apply (f_equal (fun b => charging (stats b))) in H.
  revert H. vm_compute. discriminate.
Qed.

End BatteryFacts.

(** ** The mission controller *)

Ltac controller_fields :=
  cbn [self draws tasks_created
       robot_id state battery path self_obstacle_detected emergency_stop_activated
       movement_task is_moving speed_limits gps_noise
       mode current_lat current_lon battery_percentage current_speed_kmh
       target_lat target_lon current_delivery_id path_index total_path
       distance_traveled_m last_update obstacle_detected error_message
       RobotController.on_self RobotController.with_state
       RobotController.with_battery RobotController.with_path
       RobotController.with_emergency_stop_activated
       RobotController.with_movement_task RobotController.with_is_moving
       RobotState.with_mode RobotState.with_current RobotState.with_battery_percentage
       RobotState.with_current_speed_kmh RobotState.with_target
       RobotState.with_path_index RobotState.with_total_path
       RobotState.with_distance_traveled_m RobotState.with_last_update
       RobotState.with_obstacle_detected RobotState.with_error_message
       task_id task_done
       state_of result_of log_of fst snd app].

(** Record updates computed inside out. *)
Ltac controller_values :=
  cbv [self draws tasks_created
       robot_id state battery path self_obstacle_detected emergency_stop_activated
       movement_task is_moving speed_limits gps_noise
       mode current_lat current_lon battery_percentage current_speed_kmh
       target_lat target_lon current_delivery_id path_index total_path
       distance_traveled_m last_update obstacle_detected error_message
       RobotController.on_self RobotController.with_state
       RobotController.with_battery RobotController.with_path
       RobotController.with_emergency_stop_activated
       RobotController.with_movement_task RobotController.with_is_moving
       RobotState.with_mode RobotState.with_current RobotState.with_battery_percentage
       RobotState.with_current_speed_kmh RobotState.with_target
       RobotState.with_path_index RobotState.with_total_path
       RobotState.with_distance_traveled_m RobotState.with_last_update
       RobotState.with_obstacle_detected RobotState.with_error_message
       task_id task_done fst snd].

Section ControllerFacts.

Import RobotController.

Lemma write_run (f : Field) upd {B} (k : unit -> Py World B) w :
  bind (write f upd) k w = after [EvWrite f] (k tt (on_self upd w)).
Proof. unfold write. by rewrite bind_assoc, bind_modify, bind_emit. Qed.

Lemma set_mode_run m {B} (k : unit -> Py World B) w :
  bind (set_mode m) k w
  = after [EvMode m] (k tt (on_self (with_state (RobotState.with_mode m)) w)).
Proof. unfold set_mode. by rewrite bind_assoc, bind_modify, bind_emit. Qed.

Lemma on_battery_run {A B} (c : Py BatteryModel A) (k : A -> Py World B) w :
  bind (on_battery c) k w =
  match c (battery (self w)) with
  | (Ok a, b, l) => after l (k a (on_self (with_battery b) w))
  | (Raise e, b, l) => (Raise e, on_self (with_battery b) w, l)
  end.
Proof.
  rewrite bind_after. unfold on_battery, zoom.
  by destruct (c (battery (self w))) as [[[a|e] b] l].
Qed.

Lemma with_battery_same (w : World) : on_self (with_battery (battery (self w))) w = w.
Proof. by destruct w as [[? ? ? ? ? ? ? ? ? ?] ? ?]. Qed.

(** The handler of [start_delivery]: back to IDLE, with the message. *)
Definition rejected (msg : Message) (w : World) : World :=
  on_self (with_state (fun s =>
    RobotState.with_error_message (Some msg) (RobotState.with_mode IDLE s))) w.

Lemma start_delivery_handler (e : exn) (w : World) :
  (exec set_mode IDLE in
   exec write Ferror_message
          (with_state (RobotState.with_error_message (Some (str e)))) in
   ret (Failed (str e)))%py w
  = (Ok (Failed (str e)), rejected (str e) w, [EvMode IDLE; EvWrite Ferror_message]).
Proof.
  rewrite set_mode_run, write_run. unfold ret, rejected.
  by destruct w as [[? [] ? ? ? ? ? ? ? ?] ? ?].
Qed.

(** C4.  A [start_delivery] whose path has fewer than 2 points, or
    whose route fails [can_complete_route], returns a failure with its
    message; the controller is as before except for the mode, now IDLE,
    and the error message: path, target, path index, distance travelled
    and battery are untouched, no task is created. *)
Theorem start_delivery_rejects (env : Env) (pickup delivery : Point)
    (path' : list Point) (w : World) :
  (length path' < 2)%nat
  \/ result_of (BatteryModel.can_complete_route
                  (_calculate_path_distance env path') settings.ROBOT_SPEED_KMH
                  (battery (self w))) = Ok false ->
  exists msg,
    let out := start_delivery env pickup delivery path' w in
    result_of out = Ok (Failed msg)
    /\ state_of out = rejected msg w
    /\ log_of out = [EvMode IDLE; EvWrite Ferror_message]
    /\ mode (state (self (state_of out))) = IDLE
    /\ error_message (state (self (state_of out))) = Some msg
    /\ path (self (state_of out)) = path (self w)
    /\ total_path (state (self (state_of out))) = total_path (state (self w))
    /\ target_lat (state (self (state_of out))) = target_lat (state (self w))
    /\ target_lon (state (self (state_of out))) = target_lon (state (self w))
    /\ path_index (state (self (state_of out))) = path_index (state (self w))
    /\ distance_traveled_m (state (self (state_of out)))
       = distance_traveled_m (state (self w))
    /\ battery (self (state_of out)) = battery (self w)
    /\ movement_task (self (state_of out)) = movement_task (self w).
Proof.
  intros H.
  assert (Hout : exists e, start_delivery env pickup delivery path' w
                 = (Ok (Failed (str e)), rejected (str e) w,
                    [EvMode IDLE; EvWrite Ferror_message])).
  { unfold start_delivery, try_except.
    destruct (length path' <? 2)%nat eqn:Hlen.
    - rewrite bind_raise. eexists. by rewrite start_delivery_handler.
    - destruct H as [H | H]; [apply Nat.ltb_ge in Hlen; lia|].
      rewrite bind_ret, on_battery_run.
      rewrite can_complete_route_spec in H |- *.
      destruct (BatteryModel.calculate_consumption _ _ _ _) as [required|e];
        cbn [result_of fst] in H; [|discriminate].
      injection H as ->. rewrite after_nil, with_battery_same.
      cbn [negb]. rewrite bind_assoc, on_battery_run.
      unfold BatteryModel.estimate_range. rewrite bind_get, bind_lift_res.
      destruct (py_div _ _) as [remaining|e].
      + unfold ret at 1. rewrite after_nil, with_battery_same, bind_raise.
        eexists. by rewrite start_delivery_handler.
      + rewrite with_battery_same. eexists. by rewrite start_delivery_handler. }
  destruct Hout as [e Hout]. exists (str e). cbn zeta. rewrite Hout.
  cbn [result_of state_of log_of fst snd]. unfold rejected.
  repeat split.
Qed.

(** A quiet afternoon: waypoints a metre apart, no traffic, no
    obstacle, no noise. *)
Definition quiet_env : Env :=
  mkEnv (fun _ _ => 1) (fun _ => 12%Z) (fun _ => 1 # 2) (fun _ => 0)
        (fun n => inject_Z (Z.of_nat n)).

(** Waypoints a hundred kilometres apart. *)
Definition far_env : Env :=
  mkEnv (fun _ _ => 100000) (fun _ => 12%Z) (fun _ => 1 # 2) (fun _ => 0)
        (fun n => inject_Z (Z.of_nat n)).

Definition fresh_world : World := mkWorld (init "R001" 0) 0 0.

Lemma start_delivery_rejects_witness :
  exists msg,
    result_of (start_delivery far_env (0, 0) (0, 1) [(0, 0); (0, 1)] fresh_world)
    = Ok (Failed msg)
    /\ state_of (start_delivery far_env (0, 0) (0, 1) [(0, 0); (0, 1)] fresh_world)
       = rejected msg fresh_world.
Proof.
  destruct (start_delivery_rejects far_env (0, 0) (0, 1) [(0, 0); (0, 1)] fresh_world)
    as (msg & H1 & H2 & _).
  - right. vm_compute. reflexivity.
  - exists msg. split; assumption.
Defined.

(** *** Resuming *)

(** C3 (as amended).  [resume_mission] always clears the emergency
    flag and never raises.  It changes nothing else unless the mode is
    EMERGENCY, and then it sets the mode to TRANSIT, whatever mode was
    active when the emergency occurred.  It is a no-op when the mode is
    not EMERGENCY and the flag is already clear. *)
Theorem resume_mission_spec (w : World) :
  result_of (resume_mission w) = Ok tt
  /\ emergency_stop_activated (self (state_of (resume_mission w))) = false
  /\ (mode (state (self w)) = EMERGENCY ->
      state_of (resume_mission w)
      = on_self (fun c => with_state (RobotState.with_mode TRANSIT)
                            (with_emergency_stop_activated false c)) w)
  /\ (mode (state (self w)) <> EMERGENCY ->
      state_of (resume_mission w) = on_self (with_emergency_stop_activated false) w)
  /\ (mode (state (self w)) <> EMERGENCY ->
      emergency_stop_activated (self w) = false ->
      state_of (resume_mission w) = w).
Proof.
  unfold resume_mission. rewrite write_run, bind_get. controller_fields.
  destruct (decide (mode (state (self w)) = EMERGENCY)) as [He | Hne].
  - unfold set_mode. rewrite bind_modify. unfold emit. controller_fields.
    repeat split; try reflexivity; intros; contradiction.
  - unfold ret. controller_fields.
    repeat split; try reflexivity; try (intros; contradiction).
    intros _ Hflag. destruct w as [[? ? ? ? ? flag ? ? ? ?] ? ?].
    cbn in Hflag. by subst flag.
Qed.

(** After an emergency stop on the way back. *)
Definition stopped_on_return : World :=
  state_of (emergency_stop
              (on_self (with_state (RobotState.with_mode RETURN)) fresh_world)).

Lemma resume_mission_spec_witness :
  mode (state (self (state_of (resume_mission stopped_on_return)))) = TRANSIT
  /\ state_of (resume_mission fresh_world) = fresh_world.
Proof.
  split.
  - rewrite (proj1 (proj2 (proj2 (resume_mission_spec stopped_on_return)))).
    + reflexivity.
    + reflexivity.
  - apply (proj2 (proj2 (proj2 (proj2 (resume_mission_spec fresh_world))))).
    + discriminate.
    + reflexivity.
Defined.

(** An emergency stop, then a mission refused for its path. *)
Definition stopped_then_refused : World :=
  state_of (start_delivery quiet_env (0, 0) (0, 1) [(0, 0)]
              (state_of (emergency_stop fresh_world))).

(** C3 as stated fails: here the mode is IDLE, not EMERGENCY, and
    [resume_mission] still changes the state, clearing the flag. *)
Lemma resume_mission_not_noop :
  mode (state (self stopped_then_refused)) = IDLE
  /\ emergency_stop_activated (self stopped_then_refused) = true
  /\ emergency_stop_activated (self (state_of (resume_mission stopped_then_refused)))
     = false
  /\ state_of (resume_mission stopped_then_refused) <> stopped_then_refused.
Proof.
  split; [reflexivity|]. split; [reflexivity|]. split; [reflexivity|].
  intros H. apply (f_equal (fun w => emergency_stop_activated (self w))) in H.
  revert H. vm_compute. discriminate.
Qed.

(** *** Replacing a mission in flight *)

(** The fields that a mission shares with its movement task. *)
Definition mission_field (f : Field) : bool :=
  match f with
  | Fpath | Ftotal_path | Ftarget | Fpath_index => true
  | _ => false
  end.

Definition writes_mission_field (ev : Event) : bool :=
  match ev with EvWrite f => mission_field f | _ => false end.

(** The movement tasks that have not ended, after the events of a log:
    [create_task] starts one, and an [await] of a task returns when the
    task has ended. *)
Fixpoint live_tasks (live : gset nat) (log : list Event) : gset nat :=
  match log with
  | [] => live
  | EvCreateTask t :: rest => live_tasks ({[t]} ∪ live) rest
  | EvAwaitTask t :: rest => live_tasks (live ∖ {[t]}) rest
  | _ :: rest => live_tasks live rest
  end.

(** C2 as the specification states it: in the log of the call, the
    previous task has been awaited before any mission field is written. *)
Definition awaited_before_writes (t : nat) (log : list Event) : Prop :=
  forall i j ev,
    log !! i = Some ev -> writes_mission_field ev = true ->
    log !! j = Some (EvAwaitTask t) ->
    (j < i)%nat.

Definition is_started (r : StartResult) : bool :=
  match r with Started _ _ _ _ => true | Failed _ => false end.

(** The log of a [start_delivery] that replaces the task [t] by the
    task [n]. *)
Definition replacement_log (t n : nat) : list Event :=
  [EvMode PICKUP; EvWrite Fcurrent; EvWrite Ftarget; EvWrite Fpath;
   EvWrite Ftotal_path; EvWrite Fpath_index; EvWrite Fdistance_traveled;
   EvWrite Femergency_stop; EvWrite Fis_moving;
   EvCancel t; EvAwaitTask t; EvCreateTask n].

(** The controller after a [start_delivery] that starts a mission. *)
Definition launched (pickup delivery : Point) (path' : list Point) (w : World) : World :=
  mkWorld
    (with_movement_task (Some (mkTask (tasks_created w) false))
       (with_is_moving true
          (with_emergency_stop_activated false
             (with_path path'
                (with_state
                   (fun s =>
                      RobotState.with_distance_traveled_m 0
                        (RobotState.with_path_index 0
                           (RobotState.with_total_path (Some path')
                              (RobotState.with_target delivery
                                 (RobotState.with_current pickup
                                    (RobotState.with_mode PICKUP s))))))
                   (self w))))))
    (draws w) (S (tasks_created w)).

(** The task operations of [start_delivery] on the previous task. *)
Definition cancellation (previous : option Task) : list Event :=
  match previous with
  | Some t => if task_done t then [] else [EvCancel (task_id t); EvAwaitTask (task_id t)]
  | None => []
  end.

Definition launch_log (w : World) : list Event :=
  [EvMode PICKUP; EvWrite Fcurrent; EvWrite Ftarget; EvWrite Fpath;
   EvWrite Ftotal_path; EvWrite Fpath_index; EvWrite Fdistance_traveled;
   EvWrite Femergency_stop; EvWrite Fis_moving]
  ++ cancellation (movement_task (self w)) ++ [EvCreateTask (tasks_created w)].

(** The two outcomes of [start_delivery]: refused, or launched. *)
Lemma start_delivery_outcome (env : Env) (pickup delivery : Point)
    (path' : list Point) (w : World) :
  (exists e,
      start_delivery env pickup delivery path' w
      = (Ok (Failed (str e)), rejected (str e) w, [EvMode IDLE; EvWrite Ferror_message]))
  \/ (exists duration pct,
      (2 <= length path')%nat
      /\ result_of (BatteryModel.can_complete_route
                      (_calculate_path_distance env path') settings.ROBOT_SPEED_KMH
                      (battery (self w))) = Ok true
      /\ start_delivery env pickup delivery path' w
         = (Ok (Started duration pct (_calculate_path_distance env path') (length path')),
            launched pickup delivery path' w, launch_log w)).
Proof.
  rewrite can_complete_route_spec.
  destruct (length path' <? 2)%nat eqn:Hlen.
  { left. eexists. unfold start_delivery, try_except.
    rewrite Hlen, bind_raise. by rewrite start_delivery_handler. }
  destruct (BatteryModel.calculate_consumption (battery (self w))
              (_calculate_path_distance env path') settings.ROBOT_SPEED_KMH 0)
    as [required|e] eqn:Hc.
  2:{ left. eexists. unfold start_delivery, try_except.
      rewrite Hlen, bind_ret, on_battery_run, can_complete_route_spec, Hc.
      by rewrite start_delivery_handler. }
  destruct (Qle_bool required (current_charge_kwh (stats (battery (self w))) * (9 # 10)))
    eqn:Hcheck.
  2:{ left. unfold start_delivery, try_except.
      rewrite Hlen, bind_ret, on_battery_run, can_complete_route_spec, Hc, Hcheck.
      rewrite after_nil, with_battery_same. cbn [negb].
      rewrite bind_assoc, on_battery_run.
      unfold BatteryModel.estimate_range. rewrite bind_get, bind_lift_res.
      destruct (py_div _ _) as [remaining|e].
      - unfold ret at 1. rewrite after_nil, with_battery_same, bind_raise.
        eexists. by rewrite start_delivery_handler.
      - rewrite with_battery_same. eexists. by rewrite start_delivery_handler. }
  destruct (py_div (current_charge_kwh (stats (battery (self w))))
              (capacity_kwh (stats (battery (self w))))) as [ratio|e] eqn:Hratio.
  2:{ left. eexists. unfold start_delivery, try_except.
      rewrite Hlen, bind_ret, on_battery_run, can_complete_route_spec, Hc, Hcheck.
      rewrite after_nil, with_battery_same. cbn [negb].
      rewrite bind_ret, on_battery_run.
      unfold BatteryModel.get_percentage at 1. rewrite bind_get, bind_lift_res, Hratio.
      rewrite with_battery_same. by rewrite start_delivery_handler. }
  right. eexists. eexists. split; [apply Nat.ltb_ge in Hlen; lia|].
  split; [reflexivity|].
  unfold start_delivery, try_except.
  rewrite Hlen, bind_ret, on_battery_run, can_complete_route_spec, Hc, Hcheck.
  rewrite after_nil, with_battery_same. cbn [negb].
  rewrite bind_ret, on_battery_run.
  unfold BatteryModel.get_percentage at 1. rewrite bind_get, bind_lift_res, Hratio.
  unfold ret at 1. rewrite after_nil, with_battery_same.
  rewrite set_mode_run. rewrite !write_run. rewrite bind_get.
  unfold launch_log, cancellation, launched. controller_fields.
  destruct w as [[rid st bat pth obs flag task moving limits noise] nd nt].
  controller_fields. cbn [self battery] in Hratio.
  destruct task as [[tid done]|]; [destruct done|]; cbn [negb task_done task_id];
    py_rewrite; rewrite on_battery_run; controller_fields;
    unfold BatteryModel.get_percentage; rewrite bind_get, bind_lift_res, Hratio;
    unfold ret; rewrite ?after_after, ?after_nil; cbn [app after];
    controller_values; reflexivity.
Qed.

Ltac run_ret :=
  repeat match goal with
         | |- context [@ret ?S ?A ?x ?b] =>
             change (@ret S A x b) with (@Ok A x, b, @nil Event)
         end.

(** The call cut at its suspension point and run alone is the call. *)
Lemma start_delivery_split (env : Env) (pickup delivery : Point)
    (path' : list Point) (w : World) :
  start_delivery env pickup delivery path' w
  = start_delivery_alone env pickup delivery path' w.
Proof.
  assert (Hfail : forall e w',
    bind (on_exception e) (fun r => ret (A:=StartResult + nat) (inl r)) w'
    = (Ok (inl (Failed (str e))), rejected (str e) w',
       [EvMode IDLE; EvWrite Ferror_message])).
  { intros e w'. rewrite bind_after. unfold on_exception.
    rewrite start_delivery_handler. reflexivity. }
  unfold start_delivery_alone, start_delivery_until_await.
  destruct (length path' <? 2)%nat eqn:Hlen.
  { unfold start_delivery, try_except.
    rewrite Hlen, !bind_raise, start_delivery_handler, Hfail. reflexivity. }
  destruct (BatteryModel.calculate_consumption (battery (self w))
              (_calculate_path_distance env path') settings.ROBOT_SPEED_KMH 0)
    as [required|e] eqn:Hc.
  2:{ unfold start_delivery, try_except.
      rewrite Hlen, !bind_ret, !on_battery_run, !can_complete_route_spec, Hc.
      rewrite start_delivery_handler, Hfail. reflexivity. }
  destruct (Qle_bool required (current_charge_kwh (stats (battery (self w))) * (9 # 10)))
    eqn:Hcheck.
  2:{ unfold start_delivery, try_except.
      rewrite Hlen, !bind_ret, !on_battery_run, !can_complete_route_spec, Hc, Hcheck.
      rewrite ?after_nil, ?with_battery_same. cbn [negb].
      rewrite !bind_assoc, !on_battery_run.
      unfold BatteryModel.estimate_range. rewrite !bind_get, !bind_lift_res.
      destruct (py_div _ _) as [remaining|e].
      - run_ret. cbn [after app]. rewrite ?after_nil, ?with_battery_same, ?bind_raise.
        rewrite start_delivery_handler, Hfail. reflexivity.
      - rewrite ?with_battery_same. rewrite start_delivery_handler, Hfail. reflexivity. }
  destruct (py_div (current_charge_kwh (stats (battery (self w))))
              (capacity_kwh (stats (battery (self w))))) as [ratio|e] eqn:Hratio.
  2:{ unfold start_delivery, try_except.
      rewrite Hlen, !bind_ret, !on_battery_run, !can_complete_route_spec, Hc, Hcheck.
      rewrite ?after_nil, ?with_battery_same. cbn [negb].
      rewrite !bind_ret, !on_battery_run.
      unfold BatteryModel.get_percentage at 1 3. rewrite !bind_get, !bind_lift_res, Hratio.
      rewrite ?with_battery_same. rewrite start_delivery_handler, Hfail. reflexivity. }
  unfold start_delivery, try_except.
  rewrite Hlen, !bind_ret, !on_battery_run, !can_complete_route_spec, Hc, Hcheck.
  rewrite ?after_nil, ?with_battery_same. cbn [negb].
  rewrite !bind_ret, !on_battery_run.
  unfold BatteryModel.get_percentage at 1 3. rewrite !bind_get, !bind_lift_res, Hratio.
  run_ret. cbn [after app]. rewrite ?after_nil, ?with_battery_same.
  rewrite !set_mode_run. rewrite !write_run. rewrite !bind_get.
  controller_fields.
  destruct w as [[rid st bat pth obs flag task moving limits noise] nd nt].
  controller_fields. cbn [self battery] in Hratio.
  assert (Hpct : forall (A : Type) (k : Q -> Py World A) w',
             battery (self w') = bat ->
             bind (on_battery BatteryModel.get_percentage) k w'
             = k (ratio * 100) (on_self (with_battery bat) w')).
  { intros A k w' Hbat. rewrite on_battery_run, Hbat.
    unfold BatteryModel.get_percentage. rewrite bind_get, bind_lift_res, Hratio.
    run_ret. apply after_nil. }
  destruct task as [[tid done]|]; [destruct done|]; cbn [negb task_done task_id];
    unfold start_delivery_resumed, start_delivery_launch, try_except, task_ended;
    do 3 (py_rewrite; controller_fields;
          rewrite ?decide_True by reflexivity;
          rewrite ?Hpct by reflexivity;
          run_ret; cbn [after app fst snd]);
    controller_values; reflexivity.
Qed.

(** C2 (as amended).  A [start_delivery] that starts a mission while
    the previous movement task [t] is still active writes the mission
    fields first, then cancels [t] and awaits its end, and only then
    creates the new task, which it leaves in [movement_task]; nothing
    suspends the call between the writes and the cancellation. *)
Theorem start_delivery_replaces_task (env : Env) (pickup delivery : Point)
    (path' : list Point) (w : World) (t : Task) (r : StartResult) :
  movement_task (self w) = Some t ->
  task_done t = false ->
  result_of (start_delivery env pickup delivery path' w) = Ok r ->
  is_started r = true ->
  let out := start_delivery env pickup delivery path' w in
  log_of out = replacement_log (task_id t) (tasks_created w)
  /\ movement_task (self (state_of out)) = Some (mkTask (tasks_created w) false).
Proof.
  intros Ht Hdone Hr Hstarted out. subst out.
  destruct (start_delivery_outcome env pickup delivery path' w)
    as [[e Hout] | (duration & pct & _ & _ & Hout)]; rewrite Hout in *.
  { injection Hr as <-. discriminate. }
  cbn [log_of state_of fst snd].
  assert (Hlog : launch_log w = replacement_log (task_id t) (tasks_created w)).
  { unfold launch_log, cancellation. by rewrite Ht, Hdone. }
  rewrite Hlog. split; reflexivity.
Qed.

(** A first mission under way, about to be replaced. *)
Definition mission_under_way : World :=
  state_of (start_delivery quiet_env (0, 0) (0, 1) [(0, 0); (0, 1)] fresh_world).

Lemma start_delivery_replaces_task_witness :
  log_of (start_delivery quiet_env (0, 0) (0, 2) [(0, 0); (0, 2)] mission_under_way)
  = replacement_log 0 1.
Proof.
  refine (proj1 (start_delivery_replaces_task quiet_env (0, 0) (0, 2)
                   [(0, 0); (0, 2)] mission_under_way (mkTask 0 false)
                   (Started (60 # 15000) (25000 # 250) 1 2) _ _ _ _)).
  - reflexivity.
  - reflexivity.
  - vm_compute. reflexivity.
  - reflexivity.
Defined.

(** Two requests that overlap while the mission above is under way.
    The first call runs to its suspension point: it has cancelled the
    task 0 and waits for its end.  Before that task has run again, the
    second call runs to the same point: the task is not done yet, so it
    cancels it and waits for it too.  The task ends, and the two calls
    are resumed one after the other. *)
Definition first_call :=
  start_delivery_until_await quiet_env (0, 0) (0, 2) [(0, 0); (0, 2)] mission_under_way.

Definition second_call :=
  start_delivery_until_await quiet_env (0, 0) (0, 3) [(0, 0); (0, 3)]
    (state_of first_call).

Definition first_resumed :=
  start_delivery_resumed quiet_env [(0, 0); (0, 2)] (task_ended 0 (state_of second_call)).

Definition second_resumed :=
  start_delivery_resumed quiet_env [(0, 0); (0, 3)] (state_of first_resumed).

Definition overlap_log : list Event :=
  log_of first_call ++ log_of second_call
  ++ log_of first_resumed ++ log_of second_resumed.

(** C2 as stated fails twice.  In one call the target is written at
    position 2 of the log and the previous task is awaited at position
    10.  And when two calls overlap, each creates a movement task after
    the end of the old one: the tasks 1 and 2 are both live, the first
    of them no longer held by [movement_task], and both drive the robot
    along the path of the second call. *)
Lemma start_delivery_two_live_tasks :
  movement_task (self mission_under_way) = Some (mkTask 0 false)
  /\ ~ awaited_before_writes 0
         (log_of (start_delivery quiet_env (0, 0) (0, 2) [(0, 0); (0, 2)]
                    mission_under_way))
  /\ result_of first_call = Ok (inr 0%nat)
  /\ result_of second_call = Ok (inr 0%nat)
  /\ (exists r1 r2,
        result_of first_resumed = Ok r1 /\ is_started r1 = true
        /\ result_of second_resumed = Ok r2 /\ is_started r2 = true)
  /\ 1%nat ∈ live_tasks {[0%nat]} overlap_log
  /\ 2%nat ∈ live_tasks {[0%nat]} overlap_log
  /\ movement_task (self (state_of second_resumed)) = Some (mkTask 2 false)
  /\ path (self (state_of second_resumed)) = [(0, 0); (0, 3)].
Proof.
  split; [reflexivity|]. split.
  { intros H. specialize (H 2%nat 10%nat (EvWrite Ftarget)).
    assert (10 < 2)%nat; [|lia].
    apply H; vm_compute; reflexivity. }
  split; [by vm_compute|]. split; [by vm_compute|]. split.
  { eexists. eexists. split; [vm_compute; reflexivity|]. split; [reflexivity|].
    split; [vm_compute; reflexivity|]. reflexivity. }
  assert (Hlog : overlap_log
                 = [EvMode PICKUP; EvWrite Fcurrent; EvWrite Ftarget; EvWrite Fpath;
                    EvWrite Ftotal_path; EvWrite Fpath_index; EvWrite Fdistance_traveled;
                    EvWrite Femergency_stop; EvWrite Fis_moving;
                    EvCancel 0; EvAwaitTask 0;
                    EvMode PICKUP; EvWrite Fcurrent; EvWrite Ftarget; EvWrite Fpath;
                    EvWrite Ftotal_path; EvWrite Fpath_index; EvWrite Fdistance_traveled;
                    EvWrite Femergency_stop; EvWrite Fis_moving;
                    EvCancel 0; EvAwaitTask 0;
                    EvCreateTask 1; EvCreateTask 2]) by (by vm_compute).
  rewrite Hlog. cbn [live_tasks].
  split; [set_solver|]. split; [set_solver|].
  split; by vm_compute.
Qed.

End ControllerFacts.

(** ** The subscriber registry *)

Section RegistryFacts.

Import ConnectionManager.

Lemma connect_no_empty_entry (net : Net) (ws : nat) (rid : string) (m : Registry) :
  no_empty_entry m -> no_empty_entry (state_of (connect net ws rid m)).
Proof.
  intros Hm. unfold connect.
  destruct (accept_ok net ws); [|by rewrite bind_raise].
  rewrite bind_ret, bind_get.
  assert (Hins : forall m' : Registry,
             (forall r s, r <> rid -> m' !! r = Some s -> s <> ∅) ->
             no_empty_entry (<[rid := {[ws]} ∪ default ∅ (m' !! rid)]> m')).
  { intros m' Hm' r s. destruct (decide (rid = r)) as [<- | Hne].
    - rewrite lookup_insert_eq. intros [= <-]. set_solver.
    - rewrite lookup_insert_ne by done. by apply Hm'. }
  destruct (m !! rid) eqn:Hrid; py_rewrite; unfold modify; cbn [state_of fst snd];
    apply Hins; intros r s Hne.
  - apply Hm.
  - rewrite lookup_insert_ne by done. apply Hm.
Qed.

Lemma disconnect_no_empty_entry (ws : nat) (rid : string) (m : Registry) :
  no_empty_entry m -> no_empty_entry (state_of (disconnect ws rid m)).
Proof.
  intros Hm. unfold disconnect. rewrite bind_get.
  destruct (m !! rid) as [s|] eqn:Hrid; [|exact Hm].
  rewrite bind_modify, bind_get, lookup_insert_eq. cbn [from_option id].
  destruct (decide (s ∖ {[ws]} = ∅)) as [He | Hne]; unfold modify, ret;
    cbn [state_of fst snd]; intros r s'.
  - destruct (decide (rid = r)) as [<- | Hr].
    + by rewrite lookup_delete_eq.
    + rewrite lookup_delete_ne, lookup_insert_ne by done. apply Hm.
  - destruct (decide (rid = r)) as [<- | Hr].
    + rewrite lookup_insert_eq. by intros [= <-].
    + rewrite lookup_insert_ne by done. apply Hm.
Qed.

(** Disconnecting the last subscriber of a robot deletes its entry. *)
Lemma disconnect_last (ws : nat) (rid : string) (m : Registry) :
  m !! rid = Some {[ws]} -> state_of (disconnect ws rid m) !! rid = None.
Proof.
  intros Hrid. unfold disconnect. rewrite bind_get, Hrid.
  rewrite bind_modify, bind_get, lookup_insert_eq. cbn [from_option id].
  destruct (decide (({[ws]} : gset nat) ∖ {[ws]} = ∅)) as [He | Hne].
  - unfold modify. cbn [state_of fst snd]. apply lookup_delete_eq.
  - exfalso. apply Hne. apply difference_diag_L.
Qed.

(** Broadcasting to a robot without an entry sends nothing. *)
Lemma broadcast_without_entry (net : Net) (rid : string) (m : Registry) :
  m !! rid = None -> broadcast_robot_state net rid m = (Ok tt, m, []).
Proof. intros Hrid. unfold broadcast_robot_state. by rewrite bind_get, Hrid. Qed.

(** A network on which every handshake and send goes through, and one
    on which every send fails. *)
Definition open_net : Net := mkNet (fun _ => true) (fun _ => true).
Definition broken_net : Net := mkNet (fun _ => true) (fun _ => false).

(** One subscriber, number 7, of robot R001. *)
Definition one_subscriber : Registry := state_of (connect open_net 7 "R001" init).

(** C10.  The code at the failing input: the registry with the one
    subscriber has no empty entry; a broadcast whose send to it fails
    prunes it and leaves R001 mapped to the empty set, where
    [disconnect] of the same subscriber deletes the entry. *)
Theorem broadcast_leaves_empty_entry :
  one_subscriber !! "R001"%string = Some {[7%nat]}
  /\ no_empty_entry one_subscriber
  /\ log_of (broadcast_robot_state broken_net "R001" one_subscriber) = [EvSend 7]
  /\ state_of (broadcast_robot_state broken_net "R001" one_subscriber) !! "R001"%string
     = Some ∅
  /\ ~ no_empty_entry (state_of (broadcast_robot_state broken_net "R001" one_subscriber))
  /\ state_of (disconnect 7 "R001" one_subscriber) !! "R001"%string = None.
Proof.
  assert (H1 : one_subscriber !! "R001"%string = Some {[7%nat]}).
  { unfold one_subscriber, connect, init. cbn [accept_ok open_net].
    rewrite bind_ret, bind_get, lookup_empty, bind_modify.
    unfold modify. cbn [state_of fst snd].
    rewrite lookup_insert_eq. cbn [from_option id].
    rewrite ?lookup_insert_eq. cbn [from_option id]. f_equal; set_solver. }
  assert (H2 : broadcast_robot_state broken_net "R001" one_subscriber
               = (Ok tt, <["R001"%string := ∅]> one_subscriber, [EvSend 7])).
  { unfold broadcast_robot_state. rewrite bind_get, H1.
    rewrite elements_singleton. cbn [send_all send_ok broken_net].
    rewrite bind_assoc, bind_emit, bind_ret.
    replace (elements ({[7%nat]} ∪ (∅ : gset nat))) with [7%nat]
      by (by rewrite union_empty_r_L, elements_singleton).
    cbn [discard_all]. rewrite bind_modify. unfold ret. cbn [after app].
    rewrite H1. cbn [from_option id]. by rewrite difference_diag_L. }
  split; [exact H1|]. split.
  { apply connect_no_empty_entry. intros r s. unfold init. by rewrite lookup_empty. }
  rewrite H2. cbn [log_of state_of fst snd].
  split; [reflexivity|]. split; [apply lookup_insert_eq|]. split.
  - intros H. apply (H "R001"%string ∅); [apply lookup_insert_eq | reflexivity].
  - by apply disconnect_last.
Qed.

End RegistryFacts.

(** ** The cost of an edge in the A* searches *)

Section RoutingFacts.

Import RoutingEngine.

Lemma weight_factor_ge_1 (r : string) : 1 <= weight_factor r.
Proof.
  unfold weight_factor. destruct (road_type_weights !! r) as [x|] eqn:Hr;
    cbn [from_option id]; [|vm_compute; discriminate].
  apply elem_of_list_to_map_2 in Hr.
  repeat (apply elem_of_cons in Hr as [[= _ ->] | Hr]; [vm_compute; discriminate|]).
  by apply elem_of_nil in Hr.
Qed.

Lemma weight_of_class (d : EdgeData) (r : string) :
  road_class d = Some r -> weight (Attributes d) = Ok (length_m d * weight_factor r).
Proof.
  unfold road_class, weight.
  destruct (default (RoadStr "residential") (highway d)) as [s | [|s l]];
    [intros [= ->] | discriminate | intros [= ->]]; reflexivity.
Qed.

(** An edge of the grid that [_create_fallback_graph] builds, here of
    100 m, and what networkx hands a weight function for it: the
    dictionary [{0: {'length': 100, 'highway': 'residential'}}]. *)
Definition fallback_edge : EdgeData := mkEdgeData 100 (Some (RoadStr "residential")).

Definition fallback_adjacency : EdgeDict := ParallelEdges 0 fallback_edge [].

(** C8 (the code departs from the claim).  The closure of
    [RoutingEngine.calculate_route_astar] is written to cost an edge at
    its length times the factor of its road class, with the table of
    the claim (1.0 for motorway and trunk, 1.2 for primary and
    secondary, 1.5 for tertiary and residential, 2.0 for service and
    unclassified, 3.0 for path and footway, 1.5 for a class that is not
    in the table), and it does so on an attribute dictionary.  On the
    graphs of the repository it is handed the dictionary of the
    parallel edges and raises [KeyError] at the first edge; and the A*
    search that routes are computed with, in [_osm_route], takes the
    length alone.  For an edge of the fallback grid the claim's cost is
    150: the first search raises, the second takes 100. *)
Theorem astar_edge_cost_unweighted :
  (forall d r, road_class d = Some r ->
      astar_edge_cost RoutingEngineAstar (Attributes d)
      = Ok (length_m d * weight_factor r))
  /\ (weight_factor "motorway" = 1 /\ weight_factor "trunk" = 1
      /\ weight_factor "primary" = 12 # 10 /\ weight_factor "secondary" = 12 # 10
      /\ weight_factor "tertiary" = 15 # 10 /\ weight_factor "residential" = 15 # 10
      /\ weight_factor "service" = 2 /\ weight_factor "unclassified" = 2
      /\ weight_factor "path" = 3 /\ weight_factor "footway" = 3)
  /\ (forall r, road_type_weights !! r = None -> weight_factor r = 15 # 10)
  /\ (forall r, 1 <= weight_factor r)
  /\ (forall key d others,
        astar_edge_cost RoutingEngineAstar (ParallelEdges key d others) = Raise KeyError)
  /\ (forall key d, astar_edge_cost OsmRoute (ParallelEdges key d []) = Ok (length_m d))
  /\ (road_class fallback_edge = Some "residential"%string
      /\ length_m fallback_edge * weight_factor "residential" == 150
      /\ astar_edge_cost RoutingEngineAstar fallback_adjacency = Raise KeyError
      /\ astar_edge_cost OsmRoute fallback_adjacency = Ok 100).
Proof.
  split; [exact weight_of_class|].
  split; [by vm_compute|].
  split; [intros r Hr; unfold weight_factor; by rewrite Hr|].
  split; [exact weight_factor_ge_1|].
  split; [reflexivity|]. split; [reflexivity|].
  split; [reflexivity|]. split; [by vm_compute|]. split; reflexivity.
Qed.

End RoutingFacts.

(** ** The movement task *)

Section MissionFacts.

Import RobotController.

(** The modes written, in order. *)
Definition mode_events (log : list Event) : list RobotMode :=
  omap (fun ev => match ev with EvMode m => Some m | _ => None end) log.

Lemma mode_events_app l1 l2 : mode_events (l1 ++ l2) = mode_events l1 ++ mode_events l2.
Proof. apply omap_app. Qed.

(** What a step of the movement leaves alone: the path, the index
    into it and [is_moving]; the mode and the emergency flag either
    stay, or become EMERGENCY and set. *)
Definition steady (w w' : World) (l : list Event) : Prop :=
  path (self w') = path (self w)
  /\ path_index (state (self w')) = path_index (state (self w))
  /\ is_moving (self w') = is_moving (self w)
  /\ Forall (fun m => m = EMERGENCY) (mode_events l)
  /\ ((mode (state (self w')) = mode (state (self w))
       /\ emergency_stop_activated (self w') = emergency_stop_activated (self w))
      \/ (mode (state (self w')) = EMERGENCY
          /\ emergency_stop_activated (self w') = true)).

Definition Steady {A} (c : Py World A) : Prop :=
  forall w, steady w (state_of (c w)) (log_of (c w)).

Lemma steady_refl w : steady w w [].
Proof. unfold steady. repeat split; auto. Qed.

Lemma steady_trans w w1 w2 l1 l2 :
  steady w w1 l1 -> steady w1 w2 l2 -> steady w w2 (l1 ++ l2).
Proof.
  intros (Hp1 & Hi1 & Hm1 & Hl1 & H1) (Hp2 & Hi2 & Hm2 & Hl2 & H2).
  unfold steady. rewrite mode_events_app, Forall_app.
  repeat split; try congruence; try assumption.
  destruct H2 as [[Ha Hb] | [Ha Hb]]; [|right; auto].
  destruct H1 as [[Hc Hd] | [Hc Hd]]; [left | right]; split; congruence.
Qed.

Lemma Steady_bind {A B} (c : Py World A) (k : A -> Py World B) :
  Steady c -> (forall a, Steady (k a)) -> Steady (bind c k).
Proof.
  intros Hc Hk w. specialize (Hc w). rewrite bind_after.
  destruct (c w) as [[[a|e] w1] l1]; cbn [state_of log_of fst snd] in *.
  - specialize (Hk a w1). destruct (k a w1) as [[r w2] l2].
    cbn [after state_of log_of fst snd] in *. by eapply steady_trans.
  - exact Hc.
Qed.

Lemma Steady_ret {A} (a : A) : Steady (ret a).
Proof. intros w. apply steady_refl. Qed.

Lemma Steady_raise {A} e : Steady (raise e : Py World A).
Proof. intros w. apply steady_refl. Qed.

Lemma Steady_get : Steady get.
Proof. intros w. apply steady_refl. Qed.

Lemma Steady_lift_res {A} (r : Res A) : Steady (lift_res r).
Proof. intros w. apply steady_refl. Qed.

Lemma Steady_sleep : Steady sleep.
Proof. intros w. unfold steady. cbn. repeat split; auto. Qed.

Lemma Steady_draw env {A} (oracle : Env -> nat -> A) : Steady (draw env oracle).
Proof.
  intros w. unfold draw. py_rewrite. unfold ret. cbn [state_of log_of fst snd].
  unfold steady. cbn. repeat split; auto.
Qed.

(** A write that is not to the mission's own fields. *)
Lemma Steady_write f upd :
  (forall c, path (upd c) = path c
             /\ path_index (state (upd c)) = path_index (state c)
             /\ is_moving (upd c) = is_moving c
             /\ mode (state (upd c)) = mode (state c)
             /\ emergency_stop_activated (upd c) = emergency_stop_activated c) ->
  Steady (write f upd).
Proof.
  intros Hupd w. unfold write. py_rewrite. unfold emit.
  cbn [state_of log_of fst snd self on_self app].
  destruct (Hupd (self w)) as (H1 & H2 & H3 & H4 & H5).
  unfold steady. cbn [self]. repeat split; auto; by constructor.
Qed.

Lemma Steady_on_battery {A} (c : Py BatteryModel A) :
  (forall b, log_of (c b) = []) -> Steady (on_battery c).
Proof.
  intros Hc w. unfold on_battery, zoom. specialize (Hc (battery (self w))).
  destruct (c (battery (self w))) as [[r b] l]. cbn [log_of state_of fst snd] in *.
  subst l. unfold steady. cbn. repeat split; auto.
Qed.

Lemma consume_energy_silent d s g b : log_of (BatteryModel.consume_energy d s g b) = [].
Proof.
  destruct (consume_energy_cases b d s g)
    as [[_ H] | [[_ (e & _ & H)] | [[_ (c & _ & _ & H)] | [_ (c & _ & _ & _ & _ & _ & H & _)]]]];
    cbn zeta in *; try (by rewrite H); exact H.
Qed.

(** The emergency of [_move_to_point]: the flag and the mode together. *)
Lemma Steady_emergency {A} (a : A) :
  Steady (exec write Femergency_stop (with_emergency_stop_activated true) in
          exec set_mode EMERGENCY in ret a)%py.
Proof.
  intros w. unfold write, set_mode. py_rewrite. unfold ret.
  cbn [state_of log_of fst snd self on_self app].
  unfold steady. cbn. repeat split; auto; by repeat constructor.
Qed.

Ltac steady :=
  repeat first
    [ apply Steady_ret | apply Steady_raise | apply Steady_get
    | apply Steady_lift_res | apply Steady_sleep | apply Steady_draw
    | apply Steady_emergency
    | apply Steady_on_battery; intros; apply consume_energy_silent
    | apply Steady_write; intros; cbn; by repeat split
    | apply Steady_bind; [|intros ?] ].

Ltac steady_cases :=
  repeat (steady;
          try match goal with
              | |- Steady (if ?b then _ else _) => destruct b
              | |- Steady (match ?x with _ => _ end) => destruct x
              end).

Lemma Steady_traffic_factor env : Steady (_get_traffic_factor env).
Proof. unfold _get_traffic_factor. steady_cases. Qed.

Lemma Steady_road_type_speed r : Steady (_get_road_type_speed r).
Proof. unfold _get_road_type_speed. steady_cases. Qed.

Lemma Steady_handle_obstacle env : Steady (_handle_obstacle env).
Proof. unfold _handle_obstacle. steady_cases. Qed.

Lemma Steady_check_obstacles env : Steady (_check_obstacles env).
Proof. unfold _check_obstacles. steady_cases. Qed.

Lemma Steady_move_step env lat1 lon1 lat2 lon2 distance speed time steps step :
  Steady (move_step env lat1 lon1 lat2 lon2 distance speed time steps step).
Proof. unfold move_step, _estimate_grade. steady_cases. Qed.

Lemma Steady_for_steps (body : nat -> Py World bool) range :
  (forall step, Steady (body step)) -> Steady (for_steps body range).
Proof.
  intros Hbody. induction range as [|step rest IH]; cbn [for_steps].
  - apply Steady_ret.
  - apply Steady_bind; [apply Hbody|]. intros [|]; [exact IH | apply Steady_ret].
Qed.

Lemma Steady_move_to_point env target segment_index :
  Steady (_move_to_point env target segment_index).
Proof.
  unfold _move_to_point.
  apply Steady_bind; [steady|intros ?].
  apply Steady_bind; [steady|intros ?].
  apply Steady_bind; [apply Steady_road_type_speed|intros ?].
  apply Steady_bind; [apply Steady_traffic_factor|intros ?].
  apply Steady_bind; [steady|intros ?].
  apply Steady_bind; [|intros ?; steady].
  apply Steady_for_steps. intros step. apply Steady_move_step.
Qed.


(** *** The loop over the waypoints *)

(** No draw of [random()] is below the obstacle thresholds. *)
Definition no_obstacles (env : Env) : Prop := forall n, (5 # 100) <= random env n.

Lemma check_obstacles_none env w :
  no_obstacles env ->
  _check_obstacles env w
  = (Ok false, mkWorld (self w) (S (S (draws w))) (tasks_created w), []).
Proof.
  intros Hno. unfold _check_obstacles, draw. py_rewrite. cbn [draws self tasks_created].
  assert (H5 : Qlt_bool (random env (S (draws w))) (5 # 100) = false)
    by (apply Qlt_bool_false_iff, Hno).
  assert (H1 : Qlt_bool (random env (S (draws w))) (1 # 100) = false).
  { apply Qlt_bool_false_iff. specialize (Hno (S (draws w))). lra. }
  destruct (rush_hour _); unfold ret; by rewrite ?H5, ?H1.
Qed.

(** Where a mission launched in PICKUP can be while its task runs:
    still on its way, stopped in an emergency, or arrived and in
    TRANSIT. *)
Definition on_course (w : World) : Prop :=
  (mode (state (self w)) = PICKUP
   /\ emergency_stop_activated (self w) = false
   /\ (path_index (state (self w)) < last_index w)%Z)
  \/ (mode (state (self w)) = EMERGENCY /\ emergency_stop_activated (self w) = true)
  \/ (mode (state (self w)) = TRANSIT
      /\ (last_index w <= path_index (state (self w)))%Z).

(** The condition of the [while]. *)
Definition loop_open (w : World) : bool :=
  (path_index (state (self w)) <? last_index w)%Z
  && negb (emergency_stop_activated (self w)).

Definition transit_or_emergency (m : RobotMode) : Prop := m = TRANSIT \/ m = EMERGENCY.

Definition loop_post (w : World) (out : Res bool * World * list Event) : Prop :=
  path (self (state_of out)) = path (self w)
  /\ is_moving (self (state_of out)) = is_moving (self w)
  /\ Forall transit_or_emergency (mode_events (log_of out))
  /\ ((result_of out = Ok true
       /\ on_course (state_of out) /\ loop_open (state_of out) = false)
      \/ exists e, result_of out = Raise e).

Lemma loop_post_after w w' l out :
  path (self w') = path (self w) ->
  is_moving (self w') = is_moving (self w) ->
  Forall transit_or_emergency (mode_events l) ->
  loop_post w' out -> loop_post w (after l out).
Proof.
  intros Hp Hm Hl (Hp' & Hm' & Hl' & Hr). unfold loop_post.
  rewrite state_of_after, log_of_after, result_of_after, mode_events_app, Forall_app.
  repeat split; try congruence; assumption.
Qed.

Lemma loop_post_raise w w' l e :
  path (self w') = path (self w) ->
  is_moving (self w') = is_moving (self w) ->
  Forall transit_or_emergency (mode_events l) ->
  loop_post w (Raise e, w', l).
Proof.
  intros Hp Hm Hl. unfold loop_post. cbn [state_of log_of result_of fst snd].
  repeat split; try assumption. right. by exists e.
Qed.

Lemma emergency_is_allowed l :
  Forall (fun m => m = EMERGENCY) (mode_events l) ->
  Forall transit_or_emergency (mode_events l).
Proof. intros H. eapply Forall_impl; [exact H|]. intros m ->. by right. Qed.

Lemma move_loop_spec env (Hno : no_obstacles env) fuel :
  forall w,
    on_course w ->
    (Z.to_nat (last_index w - path_index (state (self w))) < fuel)%nat ->
    loop_post w (move_loop env fuel w).
Proof.
  induction fuel as [|fuel IH]; intros w Hc Hfuel; [lia|].
  cbn [move_loop]. rewrite bind_get. fold (loop_open w).
  destruct (loop_open w) eqn:Hopen.
  2:{ unfold ret, loop_post. cbn [state_of log_of result_of fst snd mode_events omap].
      repeat split; auto; by constructor. }
  unfold loop_open in Hopen. apply andb_true_iff in Hopen as [Hlt Hflag].
  apply Z.ltb_lt in Hlt. apply negb_true_iff in Hflag. rewrite Hflag.
  destruct Hc as [(Hmode & _ & _) | [(_ & Hc) | (_ & Hc)]]; [|congruence|lia].
  rewrite bind_after, (check_obstacles_none env w Hno), after_nil.
  rewrite write_run, bind_get.
  set (w2 := on_self (with_state (RobotState.with_obstacle_detected false))
               (mkWorld (self w) (S (S (draws w))) (tasks_created w))).
  assert (H2 : path (self w2) = path (self w) /\ is_moving (self w2) = is_moving (self w)
               /\ mode (state (self w2)) = PICKUP
               /\ emergency_stop_activated (self w2) = false
               /\ path_index (state (self w2)) = path_index (state (self w)))
    by (subst w2; cbn; auto).
  destruct H2 as (Hp2 & Hm2 & Hmode2 & Hflag2 & Hi2).
  apply (loop_post_after w w2); [exact Hp2 | exact Hm2 | by constructor |].
  rewrite bind_lift_res.
  destruct (py_index (path (self w2)) (path_index (state (self w2)) + 1)) as [next|e].
  2:{ apply loop_post_raise; auto; by constructor. }
  rewrite bind_after.
  pose proof (Steady_move_to_point env next (path_index (state (self w2))) w2) as Hst.
  destruct (_move_to_point env next (path_index (state (self w2))) w2) as [[[[]|e] w3] l3];
    cbn [state_of log_of fst snd] in Hst;
    destruct Hst as (Hp3 & Hi3 & Hm3 & Hl3 & Hmode3).
  2:{ apply loop_post_raise; auto; by apply emergency_is_allowed. }
  apply (loop_post_after w2 w3); [exact Hp3 | exact Hm3 | by apply emergency_is_allowed |].
  rewrite bind_get, write_run, bind_get.
  set (w4 := on_self (with_state (RobotState.with_path_index
                                    (path_index (state (self w3)) + 1))) w3).
  assert (H4 : path (self w4) = path (self w3) /\ is_moving (self w4) = is_moving (self w3)
               /\ mode (state (self w4)) = mode (state (self w3))
               /\ emergency_stop_activated (self w4) = emergency_stop_activated (self w3)
               /\ path_index (state (self w4)) = (path_index (state (self w3)) + 1)%Z)
    by (subst w4; cbn; auto).
  destruct H4 as (Hp4 & Hm4 & Hmode4 & Hflag4 & Hi4).
  assert (Hlast : last_index w4 = last_index w) by (unfold last_index; congruence).
  apply (loop_post_after w3 w4); [exact Hp4 | exact Hm4 | by constructor |].
  rewrite bind_lift_res.
  destruct (py_div _ _) as [progress|e].
  2:{ apply loop_post_raise; auto; by constructor. }
  assert (Hnext : forall w5,
             path (self w5) = path (self w) ->
             path_index (state (self w5)) = (path_index (state (self w)) + 1)%Z ->
             on_course w5 ->
             loop_post w5 (bind sleep (fun _ => move_loop env fuel) w5)).
  { intros w5 Hp5 Hi5 Hc5. unfold sleep. rewrite bind_emit.
    apply (loop_post_after w5 w5); [reflexivity | reflexivity | by constructor |].
    apply IH; [exact Hc5|].
    assert (last_index w5 = last_index w) by (unfold last_index; congruence).
    lia. }
  assert (Hp : path (self w4) = path (self w)) by congruence.
  assert (Hi : path_index (state (self w4)) = (path_index (state (self w)) + 1)%Z)
    by congruence.
  destruct (last_index w4 <=? path_index (state (self w4)))%Z eqn:Hend.
  - apply Z.leb_le in Hend.
    destruct Hmode3 as [[Hsame Hsamef] | [Hem Hemf]].
    + rewrite Hmode4, Hsame, Hmode2. cbv iota. rewrite set_mode_run.
      set (w5 := on_self (with_state (RobotState.with_mode TRANSIT)) w4).
      assert (H5 : path (self w5) = path (self w4)
                   /\ is_moving (self w5) = is_moving (self w4)
                   /\ mode (state (self w5)) = TRANSIT
                   /\ path_index (state (self w5)) = path_index (state (self w4)))
        by (subst w5; cbn; auto).
      destruct H5 as (Hp5 & Hm5 & Hmode5 & Hi5).
      apply (loop_post_after w4 w5); [exact Hp5 | exact Hm5 | by repeat constructor |].
      apply Hnext; [congruence | congruence |].
      right. right. split; [exact Hmode5|].
      assert (last_index w5 = last_index w4) by (unfold last_index; congruence).
      lia.
    + rewrite Hmode4, Hem. cbv iota. rewrite bind_ret.
      apply Hnext; [exact Hp | exact Hi |].
      right. left. split; congruence.
  - apply Z.leb_gt in Hend. rewrite bind_ret.
    apply Hnext; [exact Hp | exact Hi |].
    destruct Hmode3 as [[Hsame Hsamef] | [Hem Hemf]].
    + left. repeat split; try congruence; lia.
    + right. left. split; congruence.
Qed.

(** C1.  What the code does instead.  The movement task of a mission
    launched on a path of at least 2 points, with no obstacle on the
    way and fuel for every waypoint, terminates; the only modes it
    writes are TRANSIT and EMERGENCY, and it ends in one of the two,
    in EMERGENCY only with the emergency flag set (a battery failure)
    or an error message recorded (a fault).  It never enters DELIVERY,
    RETURN or IDLE, and [is_moving] is still true when it has ended. *)
Theorem mission_stops_in_transit (env : Env) (pickup delivery : Point)
    (path' : list Point) (w : World) (fuel : nat) :
  (2 <= length path')%nat ->
  no_obstacles env ->
  (length path' <= fuel)%nat ->
  let out := _move_along_path env fuel (launched pickup delivery path' w) in
  mode (state (self (launched pickup delivery path' w))) = PICKUP
  /\ result_of out = Ok true
  /\ Forall transit_or_emergency (mode_events (log_of out))
  /\ transit_or_emergency (mode (state (self (state_of out))))
  /\ (mode (state (self (state_of out))) = EMERGENCY ->
      emergency_stop_activated (self (state_of out)) = true
      \/ is_Some (error_message (state (self (state_of out)))))
  /\ is_moving (self (state_of out)) = true.
Proof.
  intros Hlen Hno Hfuel out. split; [reflexivity|].
  set (w0 := launched pickup delivery path' w) in *.
  assert (Hspec : loop_post w0 (move_loop env fuel w0)).
  { apply (move_loop_spec env Hno).
    - left. subst w0. unfold last_index. cbn. repeat split; lia.
    - subst w0. unfold last_index. cbn. lia. }
  subst out. unfold _move_along_path, try_except.
  destruct (move_loop env fuel w0) as [[[r|e] w1] l1];
    destruct Hspec as (Hp & Hm & Hl & [(Hr & Hc & Hopen) | [e' He]]);
    cbn [state_of log_of result_of fst snd] in *; try discriminate.
  - split; [exact Hr|]. split; [exact Hl|].
    assert (Hmoving : is_moving (self w1) = true) by (rewrite Hm; reflexivity).
    destruct Hc as [(Hmode & Hflag & Hlt) | [(Hmode & Hflag) | (Hmode & _)]].
    + unfold loop_open in Hopen. rewrite Hflag in Hopen.
      apply Z.ltb_lt in Hlt. rewrite Hlt in Hopen. discriminate.
    + split; [rewrite Hmode; unfold transit_or_emergency; by right|]. split; [intros _; by left|exact Hmoving].
    + split; [rewrite Hmode; unfold transit_or_emergency; by left|]. split; [congruence|exact Hmoving].
  - rewrite set_mode_run, write_run. unfold ret.
    cbn [after state_of log_of result_of fst snd app].
    split; [reflexivity|]. split.
    { rewrite mode_events_app, Forall_app. split; [exact Hl|].
      cbn. constructor; [unfold transit_or_emergency; by right | constructor]. }
    split; [unfold transit_or_emergency; cbn; by right|]. split; [intros _; right; by eexists|].
    cbn. rewrite Hm. reflexivity.
Qed.

(** Three waypoints on a quiet afternoon. *)
Definition three_points : list Point := [(0, 0); (0, 1 # 100000); (0, 2 # 100000)].

Lemma quiet_env_no_obstacles : no_obstacles quiet_env.
Proof. intros n. vm_compute. discriminate. Qed.

Lemma mission_stops_in_transit_witness :
  result_of (_move_along_path quiet_env 3
               (launched (0, 0) (0, 2 # 100000) three_points fresh_world)) = Ok true
  /\ is_moving (self (state_of (_move_along_path quiet_env 3
                 (launched (0, 0) (0, 2 # 100000) three_points fresh_world)))) = true.
Proof.
  pose proof (mission_stops_in_transit quiet_env (0, 0) (0, 2 # 100000)
                three_points fresh_world 3) as H.
  cbn zeta in H.
  destruct H as (_ & Hr & _ & _ & _ & Hm).
  - vm_compute. lia.
  - exact quiet_env_no_obstacles.
  - vm_compute. lia.
  - split; [exact Hr | exact Hm].
Defined.

(** The same mission, run: launched by [start_delivery] on a full
    battery, the task reaches the last waypoint, writes TRANSIT once and
    ends there, without an emergency and with [is_moving] still true. *)
Lemma quiet_mission_ends_in_transit :
  let started := start_delivery quiet_env (0, 0) (0, 2 # 100000) three_points fresh_world in
  let out := _move_along_path quiet_env 3 (state_of started) in
  state_of started = launched (0, 0) (0, 2 # 100000) three_points fresh_world
  /\ result_of out = Ok true
  /\ mode_events (log_of started ++ log_of out) = [PICKUP; TRANSIT]
  /\ mode (state (self (state_of out))) = TRANSIT
  /\ path_index (state (self (state_of out))) = last_index (state_of out)
  /\ emergency_stop_activated (self (state_of out)) = false
  /\ error_message (state (self (state_of out))) = None
  /\ is_moving (self (state_of out)) = true.
Proof. vm_compute. repeat split. Qed.

End MissionFacts.

(** * Further properties *)

(** ** The battery model: accounting, refusals and monotonicity *)

Section BatteryAccounts.

Import BatteryModel.

(** The factor by which the age of the battery divides a consumption. *)
Definition health_factor (b : BatteryModel) : Q :=
  1 + (1000 - cycles (stats b)) * cycle_degradation b.

(** What [consume_energy] can change besides the charge, the current,
    and the health: the cycle count, by a tenth of a cycle at most. *)
Lemma consume_energy_frame (b : BatteryModel) (d s g : Q) :
  let b' := state_of (consume_energy d s g b) in
  consumption_rate b' = consumption_rate b
  /\ regenerative_braking_efficiency b' = regenerative_braking_efficiency b
  /\ temperature_derate_factor b' = temperature_derate_factor b
  /\ cycle_degradation b' = cycle_degradation b
  /\ capacity_kwh (stats b') = capacity_kwh (stats b)
  /\ charging (stats b') = charging (stats b)
  /\ (cycles (stats b') = cycles (stats b)
      \/ cycles (stats b') = cycles (stats b) + (1 # 10)).
Proof.
  cbn zeta. unfold consume_energy. rewrite bind_get.
  destruct (charging (stats b)) eqn:Hch.
  { unfold ret. battery_fields. rewrite Hch. repeat split; auto. }
  rewrite bind_lift_res.
  destruct (calculate_consumption b d s g) as [c|e].
  2:{ battery_fields. rewrite Hch. repeat split; auto. }
  destruct (Qlt_bool (current_charge_kwh (stats b)) c).
  { unfold ret. battery_fields. rewrite Hch. repeat split; auto. }
  rewrite bind_modify.
  assert (Hamps : forall k : Q -> Py BatteryModel ConsumeResult, forall b',
    (exists e, bind (if Qlt_bool 0 d
              then
               bind (lift_res (py_div d s)) (fun t => lift_res (py_div (c * 1000) (t * 3600)))
              else ret 0) k b' = (Raise e, b', []))
    \/ exists amps, bind (if Qlt_bool 0 d
              then
               bind (lift_res (py_div d s)) (fun t => lift_res (py_div (c * 1000) (t * 3600)))
              else ret 0) k b' = k amps b').
  { intros k b'. destruct (Qlt_bool 0 d).
    - rewrite bind_assoc, bind_lift_res. destruct (py_div d s) as [t|e].
      + rewrite bind_lift_res. destruct (py_div (c * 1000) (t * 3600)) as [a|e]; eauto.
      + eauto.
    - right. exists 0. by rewrite bind_ret. }
  match goal with
  | |- context [bind _ ?k ?b'] =>
      destruct (Hamps k b') as [[e He]|[amps He]]; rewrite He; clear He Hamps
  end.
  { battery_fields. rewrite Hch. repeat split; auto. }
  py_rewrite. battery_fields.
  destruct (py_div (current_charge_kwh (stats b) - c) (capacity_kwh (stats b)))
    as [ratio|e] eqn:Hratio.
  2:{ battery_fields. rewrite Hch. repeat split; auto. }
  unfold _update_health, get_percentage.
  destruct (Qlt_bool (8 # 10) (1 - ratio)); py_rewrite; battery_fields; rewrite Hratio;
    py_rewrite; battery_fields; rewrite Hratio; py_rewrite; unfold ret; battery_fields;
    rewrite Hch; repeat split; auto.
Qed.

(** X1.  A [consume_energy] that is refused, because the battery is
    charging or because the charge does not cover the consumption,
    leaves the battery exactly as it was; the refusal names its reason. *)
Theorem consume_energy_refusal (b : BatteryModel) (d s g : Q) (r : ConsumeResult) :
  result_of (consume_energy d s g b) = Ok r ->
  success r = false ->
  state_of (consume_energy d s g b) = b
  /\ ((r = RobotIsCharging /\ charging (stats b) = true)
      \/ (exists c, r = InsufficientBattery c (current_charge_kwh (stats b))
                    /\ calculate_consumption b d s g = Ok c
                    /\ current_charge_kwh (stats b) < c
                    /\ charging (stats b) = false)).
Proof.
  intros Hr Hs.
  destruct (consume_energy_cases b d s g)
    as [[Hch H] | [[_ (e & _ & H)] | [[Hch (c & Hc & Hlt & H)]
       | [_ (c & _ & _ & _ & _ & _ & _ & H)]]]]; cbn zeta in *.
  - rewrite H in *. injection Hr as <-. split; [reflexivity|]. by left.
  - rewrite H in Hr. discriminate.
  - rewrite H in *. injection Hr as <-. split; [reflexivity|]. right. by exists c.
  - destruct (H r Hr) as (ratio & pct & _ & -> & _). discriminate.
Qed.

Lemma consume_energy_refusal_witness :
  state_of (consume_energy 1000 15 0 battery_on_charger) = battery_on_charger.
Proof.
  refine (proj1 (consume_energy_refusal battery_on_charger 1000 15 0 RobotIsCharging _ _)).
  - reflexivity.
  - reflexivity.
Defined.


(** X2.  A [consume_energy] that succeeds was not refused: the battery
    was not charging and the consumption that [calculate_consumption]
    computes did not exceed the charge.  It reports that consumption,
    the charge that the battery then holds and the percentage of that
    charge, and stores the health of that charge.  The charge is not
    negative afterwards and, when the consumption is not negative, not
    higher than before; the cycle count is as before or a tenth
    higher. *)
Theorem consume_energy_accounting (b : BatteryModel) (d s g : Q) (r : ConsumeResult) :
  result_of (consume_energy d s g b) = Ok r ->
  success r = true ->
  let b' := state_of (consume_energy d s g b) in
  exists c ratio,
    calculate_consumption b d s g = Ok c
    /\ charging (stats b) = false
    /\ c <= current_charge_kwh (stats b)
    /\ py_div (current_charge_kwh (stats b')) (capacity_kwh (stats b')) = Ok ratio
    /\ r = Consumed c (current_charge_kwh (stats b')) (ratio * 100)
    /\ result_of (get_percentage b') = Ok (ratio * 100)
    /\ health (stats b') = classify ratio
    /\ 0 <= current_charge_kwh (stats b')
    /\ (0 <= c -> current_charge_kwh (stats b') <= current_charge_kwh (stats b))
    /\ (cycles (stats b') = cycles (stats b)
        \/ cycles (stats b') = cycles (stats b) + (1 # 10)).
Proof.
  unfold consume_energy. rewrite bind_get.
  destruct (charging (stats b)) eqn:Hch.
  { unfold ret. cbn [result_of fst]. intros [= <-]. discriminate. }
  rewrite bind_lift_res.
  destruct (calculate_consumption b d s g) as [c|e]; [|discriminate].
  destruct (Qlt_bool (current_charge_kwh (stats b)) c) eqn:Hlt.
  { unfold ret. cbn [result_of fst]. intros [= <-]. discriminate. }
  apply Qlt_bool_false_iff in Hlt.
  rewrite bind_modify.
  assert (Hamps : forall k : Q -> Py BatteryModel ConsumeResult, forall b',
    (exists e, bind (if Qlt_bool 0 d
              then
               bind (lift_res (py_div d s)) (fun t => lift_res (py_div (c * 1000) (t * 3600)))
              else ret 0) k b' = (Raise e, b', []))
    \/ exists amps, bind (if Qlt_bool 0 d
              then
               bind (lift_res (py_div d s)) (fun t => lift_res (py_div (c * 1000) (t * 3600)))
              else ret 0) k b' = k amps b').
  { intros k b'. destruct (Qlt_bool 0 d).
    - rewrite bind_assoc, bind_lift_res. destruct (py_div d s) as [t|e].
      + rewrite bind_lift_res. destruct (py_div (c * 1000) (t * 3600)) as [a|e]; eauto.
      + eauto.
    - right. exists 0. by rewrite bind_ret. }
  match goal with
  | |- context [bind _ ?k ?b'] =>
      destruct (Hamps k b') as [[e He]|[amps He]]; rewrite He; clear He Hamps
  end.
  { discriminate. }
  py_rewrite. battery_fields.
  destruct (py_div (current_charge_kwh (stats b) - c) (capacity_kwh (stats b)))
    as [ratio|e] eqn:Hratio; [|discriminate].
  unfold _update_health, get_percentage.
  destruct (Qlt_bool (8 # 10) (1 - ratio)) eqn:Hdod; py_rewrite; battery_fields;
    rewrite Hratio; py_rewrite; battery_fields;
    rewrite Hratio; py_rewrite; unfold ret; battery_fields;
    intros [= <-] _; exists c, ratio; cbn zeta;
    py_rewrite; battery_fields; rewrite ?Hratio;
    (repeat split; auto; try (cbn [result_of fst]; reflexivity); try lra).
Qed.

Lemma consume_energy_accounting_witness :
  exists c ratio,
    calculate_consumption full_battery 1000 15 0 = Ok c
    /\ result_of (consume_energy 1000 15 0 full_battery)
       = Ok (Consumed c
               (current_charge_kwh (stats (state_of (consume_energy 1000 15 0 full_battery))))
               (ratio * 100)).
Proof.
  destruct (consume_energy_accounting full_battery 1000 15 0
              (Consumed (81800000000000 # 1200000000000000)
                 (29182000000000000 # 12000000000000000)
                 (29182000000000000000 # 300000000000000000)))
    as (c & ratio & Hc & _ & _ & _ & Hr & _).
  - vm_compute. reflexivity.
  - reflexivity.
  - exists c, ratio. split; [exact Hc|]. rewrite <- Hr. vm_compute. reflexivity.
Defined.

(** X3.  Consuming over no distance succeeds on a battery that is not
    charging (with a charge that is not negative, a capacity and a health
    factor that are not zero): the consumption is zero and the charge is
    what it was. *)
Theorem consume_energy_zero_distance (b : BatteryModel) (s g : Q) :
  charging (stats b) = false ->
  0 <= current_charge_kwh (stats b) ->
  ~ capacity_kwh (stats b) == 0 ->
  ~ health_factor b == 0 ->
  exists c pct b',
    consume_energy 0 s g b
    = (Ok (Consumed c (current_charge_kwh (stats b) - c) pct), b', [])
    /\ c == 0
    /\ current_charge_kwh (stats b') == current_charge_kwh (stats b).
Proof.
  intros Hch Hcur Hcap Hhf.
  assert (Hc : exists c, calculate_consumption b 0 s g = Ok c /\ c == 0).
  { unfold calculate_consumption. fold (health_factor b).
    rewrite (py_div_ok _ _ Hhf).
    destruct (Qlt_bool g 0); eexists; (split; [reflexivity|]); field; exact Hhf. }
  destruct Hc as (c & Hc & Hc0).
  assert (Hle : c <= current_charge_kwh (stats b)) by (rewrite Hc0; exact Hcur).
  destruct (consume_energy_succeeds b 0 s g c Hch Hc Hle Hcap) as (pct & b' & Hrun).
  { left. lra. }
  exists c, pct, b'. split; [exact Hrun|]. split; [exact Hc0|].
  destruct (consume_energy_cases b 0 s g)
    as [[H _] | [[_ (e & He & _)] | [[_ (c' & Hc' & Hlt & _)]
       | [_ (c' & Hc' & _ & Hnew & _)]]]]; cbn zeta in *; try congruence.
  - rewrite Hc in Hc'. injection Hc' as <-. lra.
  - rewrite Hc in Hc'. injection Hc' as <-. rewrite Hrun in Hnew.
    cbn [state_of fst snd] in Hnew. rewrite Hnew. lra.
Qed.

Lemma consume_energy_zero_distance_witness :
  exists c pct b',
    consume_energy 0 15 3 full_battery
    = (Ok (Consumed c (current_charge_kwh (stats full_battery) - c) pct), b', [])
    /\ c == 0.
Proof.
  destruct (consume_energy_zero_distance full_battery 15 3) as (c & pct & b' & H1 & H2 & _).
  - reflexivity.
  - vm_compute. discriminate.
  - vm_compute. intros [=].
  - vm_compute. intros [=].
  - exists c, pct, b'. split; [exact H1 | exact H2].
Defined.


(** The consumption as one expression of the battery's parameters. *)
Lemma calculate_consumption_value (b : BatteryModel) (d s g : Q) :
  ~ health_factor b == 0 ->
  exists c,
    calculate_consumption b d s g = Ok c
    /\ c == d / 1000 * consumption_rate b * (1 + (1 # 100) * (s / 10) ^ 2)
            * (1 + (5 # 100) * g) * temperature_derate_factor b / health_factor b
            * (if Qlt_bool g 0
               then 1 - py_min (- g * (1 # 100) * regenerative_braking_efficiency b) (1 # 2)
               else 1).
Proof.
  intros Hhf. unfold calculate_consumption. fold (health_factor b).
  rewrite (py_div_ok _ _ Hhf).
  destruct (Qlt_bool g 0); eexists; (split; [reflexivity|]); field; exact Hhf.
Qed.

(** A battery whose parameters have their physical signs. *)
Definition sound_parameters (b : BatteryModel) : Prop :=
  0 <= consumption_rate b
  /\ 0 <= temperature_derate_factor b
  /\ 0 < health_factor b
  /\ 0 <= regenerative_braking_efficiency b <= 1.

Lemma grade_term_monotone (e g1 g2 : Q) :
  0 <= e <= 1 -> -20 <= g1 -> g1 <= g2 ->
  0 <= (1 + (5 # 100) * g1)
       * (if Qlt_bool g1 0 then 1 - py_min (- g1 * (1 # 100) * e) (1 # 2) else 1)
  /\ (1 + (5 # 100) * g1)
     * (if Qlt_bool g1 0 then 1 - py_min (- g1 * (1 # 100) * e) (1 # 2) else 1)
     <= (1 + (5 # 100) * g2)
        * (if Qlt_bool g2 0 then 1 - py_min (- g2 * (1 # 100) * e) (1 # 2) else 1).
Proof.
  intros He Hg1 Hg12.
  assert (Hmin : forall g, -20 <= g -> g < 0 ->
             py_min (- g * (1 # 100) * e) (1 # 2) == - g * (1 # 100) * e).
  { intros g Hlo Hneg. unfold py_min.
    destruct (Qlt_bool (1 # 2) (- g * (1 # 100) * e)) eqn:E; [|reflexivity].
    apply Qlt_bool_iff in E. nra. }
  assert (HA : 0 <= 1 + (5 # 100) * g1 <= 1 + (5 # 100) * g2) by lra.
  assert (HB : 0 <= (if Qlt_bool g1 0 then 1 - py_min (- g1 * (1 # 100) * e) (1 # 2) else 1)
               <= (if Qlt_bool g2 0 then 1 - py_min (- g2 * (1 # 100) * e) (1 # 2) else 1)).
  { destruct (Qlt_bool g1 0) eqn:E1; destruct (Qlt_bool g2 0) eqn:E2;
      [apply Qlt_bool_iff in E1; apply Qlt_bool_iff in E2
      |apply Qlt_bool_iff in E1; apply Qlt_bool_false_iff in E2
      |apply Qlt_bool_false_iff in E1; apply Qlt_bool_iff in E2
      |apply Qlt_bool_false_iff in E1; apply Qlt_bool_false_iff in E2].
    - pose proof (Hmin g1 Hg1 E1) as M1.
      assert (Hg2 : -20 <= g2) by lra. pose proof (Hmin g2 Hg2 E2) as M2.
      assert (g1 <= e * g1) by nra. assert (e * g1 <= e * g2) by nra. lra.
    - pose proof (Hmin g1 Hg1 E1) as M1.
      assert (g1 <= e * g1) by nra. assert (e * g1 <= 0) by nra. lra.
    - lra.
    - lra. }
  split.
  - apply Qmult_le_0_compat; [apply HA | apply HB].
  - apply Qmult_le_compat_nonneg; [exact HA | exact HB].
Qed.

(** X5.  On a battery with sound parameters, over a distance that is
    not negative and on a grade of -20 percent or more, the consumption
    is not negative, a steeper grade never costs less, and a higher
    speed never costs less. *)
Theorem calculate_consumption_monotone (b : BatteryModel) (d s1 s2 g1 g2 : Q) :
  sound_parameters b ->
  0 <= d -> -20 <= g1 -> g1 <= g2 -> 0 <= s1 -> s1 <= s2 ->
  exists c11 c12 c21,
    calculate_consumption b d s1 g1 = Ok c11
    /\ calculate_consumption b d s1 g2 = Ok c12
    /\ calculate_consumption b d s2 g1 = Ok c21
    /\ 0 <= c11 /\ c11 <= c12 /\ c11 <= c21.
Proof.
  intros (Hrate & Htemp & Hhf & He) Hd Hg1 Hg12 Hs1 Hs12.
  assert (Hhf' : ~ health_factor b == 0) by lra.
  destruct (calculate_consumption_value b d s1 g1 Hhf') as (c11 & H11 & E11).
  destruct (calculate_consumption_value b d s1 g2 Hhf') as (c12 & H12 & E12).
  destruct (calculate_consumption_value b d s2 g1 Hhf') as (c21 & H21 & E21).
  exists c11, c12, c21. repeat split; try assumption.
  all: destruct (grade_term_monotone _ g1 g2 He Hg1 Hg12) as [G0 G12].
  all: set (G1 := (1 + (5 # 100) * g1)
                  * (if Qlt_bool g1 0
                     then 1 - py_min (- g1 * (1 # 100) * regenerative_braking_efficiency b)
                                     (1 # 2)
                     else 1)) in *.
  all: set (G2 := (1 + (5 # 100) * g2)
                  * (if Qlt_bool g2 0
                     then 1 - py_min (- g2 * (1 # 100) * regenerative_braking_efficiency b)
                                     (1 # 2)
                     else 1)) in *.
  all: assert (Hinv : 0 < / health_factor b) by (by apply Qinv_lt_0_compat).
  all: set (K := d / 1000 * consumption_rate b * temperature_derate_factor b
                 * / health_factor b).
  all: assert (Hkm : 0 <= d / 1000) by (apply Qle_shift_div_l; lra).
  all: assert (HK : 0 <= K)
         by (unfold K;
             apply Qmult_le_0_compat;
               [apply Qmult_le_0_compat; [apply Qmult_le_0_compat|]|];
             first [assumption | apply Qlt_le_weak; assumption]).
  all: assert (F11 : c11 == K * (1 + (1 # 100) * (s1 / 10) ^ 2) * G1)
         by (rewrite E11; unfold K, G1; field; exact Hhf').
  all: assert (F12 : c12 == K * (1 + (1 # 100) * (s1 / 10) ^ 2) * G2)
         by (rewrite E12; unfold K, G2; field; exact Hhf').
  all: assert (F21 : c21 == K * (1 + (1 # 100) * (s2 / 10) ^ 2) * G1)
         by (rewrite E21; unfold K, G1; field; exact Hhf').
  all: assert (T1 : 0 <= s1 / 10) by (apply Qle_shift_div_l; lra).
  all: assert (T12 : s1 / 10 <= s2 / 10)
         by (unfold Qdiv; apply Qmult_le_compat_r; [assumption | apply Qinv_le_0_compat; lra]).
  all: assert (Q12 : (s1 / 10) ^ 2 <= (s2 / 10) ^ 2)
         by (change ((s1 / 10) * (s1 / 10) <= (s2 / 10) * (s2 / 10));
             apply Qmult_le_compat_nonneg; split; assumption).
  all: assert (Q1 : 0 <= (s1 / 10) ^ 2)
         by (change (0 <= (s1 / 10) * (s1 / 10)); by apply Qmult_le_0_compat).
  all: assert (S1 : 1 <= 1 + (1 # 100) * (s1 / 10) ^ 2) by lra.
  all: assert (S12 : 1 + (1 # 100) * (s1 / 10) ^ 2 <= 1 + (1 # 100) * (s2 / 10) ^ 2) by lra.
  - rewrite F11. apply Qmult_le_0_compat; [apply Qmult_le_0_compat; lra | exact G0].
  - rewrite F11, F12. apply Qmult_le_compat_nonneg; [|split; [exact G0 | exact G12]].
    split; [apply Qmult_le_0_compat; lra | lra].
  - rewrite F11, F21. apply Qmult_le_compat_r; [|exact G0].
    apply Qmult_le_compat_nonneg; [split; [exact HK | lra] | split; [lra | exact S12]].
Qed.


Lemma full_battery_sound : sound_parameters full_battery.
Proof. repeat split; vm_compute; congruence. Qed.

Lemma calculate_consumption_monotone_witness :
  exists c11 c12 c21,
    calculate_consumption full_battery 1000 10 (-3) = Ok c11
    /\ calculate_consumption full_battery 1000 10 3 = Ok c12
    /\ calculate_consumption full_battery 1000 20 (-3) = Ok c21
    /\ 0 <= c11 /\ c11 <= c12 /\ c11 <= c21.
Proof.
  apply (calculate_consumption_monotone full_battery 1000 10 20 (-3) 3).
  - exact full_battery_sound.
  - vm_compute. discriminate.
  - vm_compute. discriminate.
  - vm_compute. discriminate.
  - vm_compute. discriminate.
  - vm_compute. discriminate.
Defined.

(** X4.  On a battery with sound parameters and on a grade of -20
    percent or more, a longer distance never costs less, at any speed;
    and no distance costs nothing. *)
Theorem calculate_consumption_monotone_distance (b : BatteryModel) (d1 d2 s g : Q) :
  sound_parameters b ->
  -20 <= g -> d1 <= d2 ->
  exists c0 c1 c2,
    calculate_consumption b 0 s g = Ok c0
    /\ calculate_consumption b d1 s g = Ok c1
    /\ calculate_consumption b d2 s g = Ok c2
    /\ c0 == 0 /\ c1 <= c2.
Proof.
  intros (Hrate & Htemp & Hhf & He) Hg Hd.
  assert (Hhf' : ~ health_factor b == 0) by lra.
  destruct (calculate_consumption_value b 0 s g Hhf') as (c0 & H0 & E0).
  destruct (calculate_consumption_value b d1 s g Hhf') as (c1 & H1 & E1).
  destruct (calculate_consumption_value b d2 s g Hhf') as (c2 & H2 & E2).
  exists c0, c1, c2. repeat split; try assumption.
  { rewrite E0. field. exact Hhf'. }
  destruct (grade_term_monotone _ g g He Hg (Qle_refl g)) as [G0 _].
  set (G := (1 + (5 # 100) * g)
            * (if Qlt_bool g 0
               then 1 - py_min (- g * (1 # 100) * regenerative_braking_efficiency b) (1 # 2)
               else 1)) in *.
  assert (Hinv : 0 < / health_factor b) by (by apply Qinv_lt_0_compat).
  assert (Q1 : 0 <= (s / 10) ^ 2).
  { change (0 <= (s / 10) * (s / 10)).
    destruct (Qlt_le_dec (s / 10) 0) as [Hn | Hp]; [|by apply Qmult_le_0_compat].
    setoid_replace (s / 10 * (s / 10)) with ((- (s / 10)) * (- (s / 10)))
      using relation Qeq by ring.
    apply Qmult_le_0_compat; lra. }
  set (K := (1 # 1000) * consumption_rate b * temperature_derate_factor b
            * / health_factor b * (1 + (1 # 100) * (s / 10) ^ 2) * G).
  assert (HK : 0 <= K).
  { unfold K. apply Qmult_le_0_compat; [|exact G0].
    apply Qmult_le_0_compat; [|lra].
    apply Qmult_le_0_compat; [|lra].
    apply Qmult_le_0_compat; [|exact Htemp].
    apply Qmult_le_0_compat; [lra | exact Hrate]. }
  assert (F1 : c1 == d1 * K) by (rewrite E1; unfold K, G; field; exact Hhf').
  assert (F2 : c2 == d2 * K) by (rewrite E2; unfold K, G; field; exact Hhf').
  rewrite F1, F2. apply Qmult_le_compat_r; assumption.
Qed.

Lemma calculate_consumption_monotone_distance_witness :
  exists c0 c1 c2,
    calculate_consumption full_battery 0 15 2 = Ok c0
    /\ calculate_consumption full_battery 300 15 2 = Ok c1
    /\ calculate_consumption full_battery 700 15 2 = Ok c2
    /\ c0 == 0 /\ c1 <= c2.
Proof.
  apply (calculate_consumption_monotone_distance full_battery 300 700 15 2).
  - exact full_battery_sound.
  - vm_compute. discriminate.
  - vm_compute. discriminate.
Defined.

(** X6.  No sequence of [consume_energy] and [charge] calls changes the
    capacity, the consumption rate, the regeneration efficiency, the
    temperature factor or the degradation per cycle, and the cycle count
    never goes down. *)
Theorem battery_constants_and_cycles (ops : list Op) (b : BatteryModel) :
  let b' := foldl exec_op b ops in
  capacity_kwh (stats b') = capacity_kwh (stats b)
  /\ consumption_rate b' = consumption_rate b
  /\ regenerative_braking_efficiency b' = regenerative_braking_efficiency b
  /\ temperature_derate_factor b' = temperature_derate_factor b
  /\ cycle_degradation b' = cycle_degradation b
  /\ cycles (stats b) <= cycles (stats b').
Proof.
  revert b. induction ops as [|op ops IH]; intros b; cbn [foldl].
  { repeat split; auto. lra. }
  destruct (IH (exec_op b op)) as (H1 & H2 & H3 & H4 & H5 & H6).
  assert (Hop : capacity_kwh (stats (exec_op b op)) = capacity_kwh (stats b)
                /\ consumption_rate (exec_op b op) = consumption_rate b
                /\ regenerative_braking_efficiency (exec_op b op)
                   = regenerative_braking_efficiency b
                /\ temperature_derate_factor (exec_op b op) = temperature_derate_factor b
                /\ cycle_degradation (exec_op b op) = cycle_degradation b
                /\ cycles (stats b) <= cycles (stats (exec_op b op))).
  { destruct op as [d s g | e]; cbn [exec_op].
    - destruct (consume_energy_frame b d s g) as (F1 & F2 & F3 & F4 & F5 & _ & F7).
      cbn zeta in *. repeat split; auto. destruct F7 as [-> | ->]; lra.
    - rewrite charge_spec. battery_fields. repeat split; auto. lra. }
  destruct Hop as (O1 & O2 & O3 & O4 & O5 & O6).
  cbn zeta. repeat split; try congruence. lra.
Qed.

(** X7.  A [charge] with positive energy sets the charging flag, and
    from then on every [consume_energy] is refused and changes nothing,
    however many are tried; only a [charge] with no positive energy
    clears the flag. *)
Theorem charging_blocks_consumption (b : BatteryModel) (e : Q) :
  0 < e ->
  let b1 := state_of (charge e b) in
  charging (stats b1) = true
  /\ (forall d s g, consume_energy d s g b1 = (Ok RobotIsCharging, b1, []))
  /\ (forall moves : list (Q * Q * Q),
        foldl (fun b m => state_of (consume_energy m.1.1 m.1.2 m.2 b)) b1 moves = b1)
  /\ (forall e', e' <= 0 -> charging (stats (state_of (charge e' b1))) = false)
  /\ (forall e', 0 < e' -> charging (stats (state_of (charge e' b1))) = true).
Proof.
  intros He b1.
  assert (Hch : charging (stats b1) = true).
  { subst b1. rewrite charge_spec. battery_fields. by apply Qlt_bool_iff. }
  assert (Hrefuse : forall d s g, consume_energy d s g b1 = (Ok RobotIsCharging, b1, [])).
  { intros d s g. unfold consume_energy. by rewrite bind_get, Hch. }
  split; [exact Hch|]. split; [exact Hrefuse|]. split; [|split].
  - induction moves as [|m moves IH]; cbn [foldl]; [reflexivity|].
    by rewrite Hrefuse.
  - intros e' He'. rewrite charge_spec. battery_fields. by apply Qlt_bool_false_iff.
  - intros e' He'. rewrite charge_spec. battery_fields. by apply Qlt_bool_iff.
Qed.

Lemma charging_blocks_consumption_witness :
  consume_energy 1000 15 0 (state_of (charge 1 full_battery))
  = (Ok RobotIsCharging, state_of (charge 1 full_battery), []).
Proof.
  refine (proj1 (proj2 (charging_blocks_consumption full_battery 1 _)) 1000 15 0).
  vm_compute. reflexivity.
Defined.

(** The health classes from worst to best. *)
Definition health_rank (h : BatteryHealth) : nat :=
  match h with
  | CRITICAL => 0 | POOR => 1 | FAIR => 2 | GOOD => 3 | EXCELLENT => 4
  end.

(** X8.  The health classification is monotone: a battery holding a
    larger share of its capacity is never classified worse. *)
Theorem classify_monotone (r1 r2 : Q) :
  r1 <= r2 -> (health_rank (classify r1) <= health_rank (classify r2))%nat.
Proof.
  intros Hr. unfold classify.
  destruct (Qlt_bool (8 # 10) r1) eqn:A1; destruct (Qlt_bool (8 # 10) r2) eqn:A2;
  destruct (Qlt_bool (6 # 10) r1) eqn:B1; destruct (Qlt_bool (6 # 10) r2) eqn:B2;
  destruct (Qlt_bool (4 # 10) r1) eqn:C1; destruct (Qlt_bool (4 # 10) r2) eqn:C2;
  destruct (Qlt_bool (2 # 10) r1) eqn:D1; destruct (Qlt_bool (2 # 10) r2) eqn:D2;
  cbn [health_rank]; try lia; exfalso;
  repeat match goal with
         | H : Qlt_bool _ _ = true |- _ => apply Qlt_bool_iff in H
         | H : Qlt_bool _ _ = false |- _ => apply Qlt_bool_false_iff in H
         end; lra.
Qed.

Lemma classify_monotone_witness :
  (health_rank (classify (3 # 10)) <= health_rank (classify (7 # 10)))%nat.
Proof.
  apply classify_monotone. vm_compute. discriminate.
Defined.


(** X9.  The feasibility check and the range estimate disagree in a
    known direction.  On a battery with sound parameters, a positive
    consumption rate, a positive temperature factor and a positive
    charge, every route that [can_complete_route] accepts is at most 0.9
    times the health factor times the estimated range, scaled by the
    temperature factor; and whenever the temperature factor times the
    speed factor is below 0.9 times the health factor, as on a new
    battery at the nominal speed, a route longer than the announced
    range is accepted. *)
Theorem accepted_route_and_range (b : BatteryModel) (s range : Q) :
  sound_parameters b ->
  0 < consumption_rate b ->
  0 < temperature_derate_factor b ->
  0 < current_charge_kwh (stats b) ->
  result_of (estimate_range s b) = Ok range ->
  (forall d, 0 <= d ->
     result_of (can_complete_route d s b) = Ok true ->
     d * temperature_derate_factor b <= (9 # 10) * health_factor b * range)
  /\ (temperature_derate_factor b * (1 + (1 # 100) * (s / 10) ^ 2)
      < (9 # 10) * health_factor b ->
      exists d, range < d /\ result_of (can_complete_route d s b) = Ok true).
Proof.
  intros (_ & _ & Hhf & _) Hrate Htemp Hcur Hrange.
  assert (Hhf' : ~ health_factor b == 0) by lra.
  assert (Hrate' : ~ consumption_rate b == 0) by lra.
  unfold estimate_range in Hrange.
  rewrite bind_get, bind_lift_res, (py_div_ok _ _ Hrate') in Hrange.
  unfold ret in Hrange. cbn [result_of fst] in Hrange. injection Hrange as <-.
  set (cur := current_charge_kwh (stats b)) in *.
  set (rate := consumption_rate b) in *.
  set (tf := temperature_derate_factor b) in *.
  set (hf := health_factor b) in *.
  assert (Q1 : 0 <= (s / 10) ^ 2).
  { change (0 <= (s / 10) * (s / 10)).
    destruct (Qlt_le_dec (s / 10) 0) as [Hn | Hp]; [|by apply Qmult_le_0_compat].
    setoid_replace (s / 10 * (s / 10)) with ((- (s / 10)) * (- (s / 10)))
      using relation Qeq by ring.
    apply Qmult_le_0_compat; lra. }
  set (S := 1 + (1 # 100) * (s / 10) ^ 2) in *.
  assert (HS : 1 <= S) by (unfold S; lra).
  split.
  - intros d Hd Hcan.
    rewrite can_complete_route_spec in Hcan.
    destruct (calculate_consumption_value b d s 0 Hhf') as (c & Hc & Ec).
    rewrite Hc in Hcan. cbn [result_of fst] in Hcan. injection Hcan as Hcan.
    apply Qle_bool_iff in Hcan.
    change (Qlt_bool 0 0) with false in Ec. cbv iota in Ec.
    fold cur rate tf hf S in Ec, Hcan.
    assert (Ec' : c * hf * 1000 == d * rate * tf * S).
    { rewrite Ec. field. exact Hhf'. }
    assert (Hbase : 0 <= d * rate * tf)
      by (apply Qmult_le_0_compat; [apply Qmult_le_0_compat|]; lra).
    assert (Hsf : d * rate * tf <= d * rate * tf * S) by nra.
    assert (Hchf : c * hf <= cur * (9 # 10) * hf)
      by (apply Qmult_le_compat_r; lra).
    assert (Hmain : d * tf * rate <= (9 # 10) * hf * (cur * 1000)) by lra.
    setoid_replace ((9 # 10) * hf * (cur / rate * 1000))
      with ((9 # 10) * hf * (cur * 1000) / rate) using relation Qeq by (field; exact Hrate').
    apply Qle_shift_div_l; [exact Hrate | exact Hmain].
  - intros Hgap.
    assert (HT : 0 < tf * S) by nra.
    assert (HT' : ~ tf * S == 0) by lra.
    set (range := cur / rate * 1000) in *.
    assert (Hrange : 0 < range).
    { unfold range. apply Qmult_lt_0_compat; [|lra].
      apply Qlt_shift_div_l; [exact Hrate | lra]. }
    exists ((9 # 10) * hf / (tf * S) * range). split.
    + assert (Hq : 1 < (9 # 10) * hf / (tf * S))
        by (apply Qlt_shift_div_l; [exact HT | lra]).
      nra.
    + rewrite can_complete_route_spec.
      destruct (calculate_consumption_value b ((9 # 10) * hf / (tf * S) * range) s 0 Hhf')
        as (c & Hc & Ec).
      rewrite Hc. cbn [result_of fst]. f_equal. apply Qle_bool_iff.
      change (Qlt_bool 0 0) with false in Ec. cbv iota in Ec.
      fold cur rate tf hf S in Ec |- *.
      assert (Ec' : c == cur * (9 # 10)).
      { rewrite Ec. unfold range. field. repeat split; lra. }
      rewrite Ec'. apply Qle_refl.
Qed.

Lemma accepted_route_and_range_witness :
  exists d, (2500000 # 80) < d
            /\ result_of (can_complete_route d 15 full_battery) = Ok true.
Proof.
  refine (proj2 (accepted_route_and_range full_battery 15 (2500000 # 80) _ _ _ _ _) _).
  - exact full_battery_sound.
  - vm_compute. reflexivity.
  - vm_compute. reflexivity.
  - vm_compute. reflexivity.
  - vm_compute. reflexivity.
  - vm_compute. reflexivity.
Defined.

End BatteryAccounts.

(** ** The subscriber registry: membership, round trip and broadcast *)

Section RegistryAccounts.

Import ConnectionManager.

(** The subscribers of a robot; none when it has no entry. *)
Definition subscribers (m : Registry) (robot_id : string) : gset nat :=
  default ∅ (m !! robot_id).

Lemma connect_accepted (net : Net) (ws : nat) (rid : string) (m : Registry) :
  accept_ok net ws = true ->
  connect net ws rid m = (Ok tt, <[rid := {[ws]} ∪ subscribers m rid]> m, []).
Proof.
  intros Hacc. unfold connect, subscribers. rewrite Hacc, bind_ret, bind_get.
  destruct (m !! rid) as [s|] eqn:Hrid.
  - rewrite bind_ret. unfold modify. by rewrite Hrid.
  - rewrite bind_modify. unfold modify.
    rewrite lookup_insert_eq. cbn [from_option id]. by rewrite insert_insert_eq.
Qed.

Lemma disconnect_present (ws : nat) (rid : string) (m : Registry) (s : gset nat) :
  m !! rid = Some s ->
  disconnect ws rid m
  = (Ok tt,
     (if decide (s ∖ {[ws]} = ∅) then delete rid m else <[rid := s ∖ {[ws]}]> m),
     []).
Proof.
  intros Hrid. unfold disconnect. rewrite bind_get, Hrid, bind_modify, bind_get.
  rewrite lookup_insert_eq. cbn [from_option id].
  destruct (decide (s ∖ {[ws]} = ∅)); unfold modify, ret; [|reflexivity].
  by rewrite delete_insert_eq.
Qed.

(** X10.  Connect and disconnect are a round trip: on a registry whose
    entry for the robot is absent or not empty, connecting a handle that
    was not subscribed and disconnecting it again gives the registry
    back, entry for entry. *)
Theorem connect_disconnect_round_trip (net : Net) (ws : nat) (rid : string)
    (m : Registry) :
  accept_ok net ws = true ->
  ws ∉ subscribers m rid ->
  m !! rid <> Some ∅ ->
  state_of (disconnect ws rid (state_of (connect net ws rid m))) = m.
Proof.
  intros Hacc Hnew Hne. rewrite (connect_accepted net ws rid m Hacc).
  cbn [state_of fst snd].
  rewrite (disconnect_present ws rid _ ({[ws]} ∪ subscribers m rid))
    by apply lookup_insert_eq.
  cbn [state_of fst snd].
  assert (Hback : ({[ws]} ∪ subscribers m rid) ∖ {[ws]} = subscribers m rid).
  { rewrite difference_union_distr_l_L, difference_diag_L, union_empty_l_L.
    apply difference_disjoint_L. by apply disjoint_singleton_r. }
  rewrite Hback. unfold subscribers in *.
  destruct (m !! rid) as [s|] eqn:Hrid; cbn [from_option id] in *.
  - destruct (decide (s = ∅)) as [-> | Hs]; [congruence|].
    rewrite insert_insert_eq. by apply insert_id.
  - destruct (decide ((∅ : gset nat) = ∅)); [|congruence].
    rewrite delete_insert_eq. by apply delete_id.
Qed.

Lemma one_subscriber_lookup : one_subscriber !! "R001"%string = Some {[7%nat]}.
Proof.
  unfold one_subscriber. rewrite (connect_accepted open_net 7 "R001" init eq_refl).
  cbn [state_of fst snd]. rewrite lookup_insert_eq. unfold subscribers, init.
  rewrite lookup_empty. cbn [from_option id]. by rewrite union_empty_r_L.
Qed.

Lemma connect_disconnect_round_trip_witness :
  state_of (disconnect 8 "R001" (state_of (connect open_net 8 "R001" one_subscriber)))
  = one_subscriber.
Proof.
  apply (connect_disconnect_round_trip open_net 8 "R001" one_subscriber).
  - reflexivity.
  - unfold subscribers. rewrite one_subscriber_lookup. cbn [from_option id].
    intros H%elem_of_singleton. discriminate.
  - rewrite one_subscriber_lookup. intros [=].
Defined.


(** X11.  A handle is subscribed at most once: after an accepted
    connect it is among the robot's subscribers, connecting it again
    changes nothing, and the other robots keep their subscribers.  A
    refused handshake raises and leaves the registry as it was. *)
Theorem connect_membership (net : Net) (ws : nat) (rid : string) (m : Registry) :
  (accept_ok net ws = true ->
   let m1 := state_of (connect net ws rid m) in
   ws ∈ subscribers m1 rid
   /\ subscribers m1 rid = {[ws]} ∪ subscribers m rid
   /\ state_of (connect net ws rid m1) = m1
   /\ (forall other, other <> rid -> m1 !! other = m !! other))
  /\ (accept_ok net ws = false ->
      connect net ws rid m = (Raise WebSocketDisconnect, m, [])).
Proof.
  split.
  - intros Hacc. cbn zeta. rewrite (connect_accepted net ws rid m Hacc).
    cbn [state_of fst snd].
    assert (Hsub : subscribers (<[rid := {[ws]} ∪ subscribers m rid]> m) rid
                   = {[ws]} ∪ subscribers m rid).
    { unfold subscribers at 1. by rewrite lookup_insert_eq. }
    split; [rewrite Hsub; apply elem_of_union_l; by apply elem_of_singleton|].
    split; [exact Hsub|]. split.
    + rewrite (connect_accepted net ws rid _ Hacc). cbn [state_of fst snd].
      rewrite Hsub, insert_insert_eq. f_equal.
      rewrite (assoc_L (∪)). by rewrite union_idemp_L.
    + intros other Hother. by rewrite lookup_insert_ne.
  - intros Hacc. unfold connect. by rewrite Hacc, bind_raise.
Qed.

Lemma connect_membership_witness :
  state_of (connect open_net 7 "R001" one_subscriber) = one_subscriber.
Proof.
  refine (proj1 (proj2 (proj2
            (proj1 (connect_membership open_net 7 "R001" init) _)))).
  reflexivity.
Defined.

(** The calls of the clients of the registry. *)
Inductive RegistryOp :=
| OpConnect (websocket : nat) (robot_id : string)
| OpDisconnect (websocket : nat) (robot_id : string).

Definition registry_op (net : Net) (m : Registry) (op : RegistryOp) : Registry :=
  match op with
  | OpConnect ws rid => state_of (connect net ws rid m)
  | OpDisconnect ws rid => state_of (disconnect ws rid m)
  end.

(** X12.  Connections and disconnections keep the registry free of
    empty entries, in any order and whatever the network answers; a
    disconnect touches no other robot, and it leaves the robot it names
    without an empty entry even on a registry that had one. *)
Theorem connect_disconnect_invariant (net : Net) :
  (forall ops m,
      no_empty_entry m -> no_empty_entry (foldl (registry_op net) m ops))
  /\ (forall ws rid m other,
        other <> rid -> state_of (disconnect ws rid m) !! other = m !! other)
  /\ (forall ws rid m, state_of (disconnect ws rid m) !! rid <> Some ∅).
Proof.
  split; [|split].
  - induction ops as [|op ops IH]; intros m Hm; [exact Hm|].
    cbn [foldl]. apply IH. destruct op as [ws rid | ws rid]; cbn [registry_op].
    + by apply connect_no_empty_entry.
    + by apply disconnect_no_empty_entry.
  - intros ws rid m other Hother.
    destruct (m !! rid) as [s|] eqn:Hrid.
    + rewrite (disconnect_present ws rid m s Hrid). cbn [state_of fst snd].
      destruct (decide (s ∖ {[ws]} = ∅)).
      * by rewrite lookup_delete_ne.
      * by rewrite lookup_insert_ne.
    + unfold disconnect. by rewrite bind_get, Hrid.
  - intros ws rid m.
    destruct (m !! rid) as [s|] eqn:Hrid.
    + rewrite (disconnect_present ws rid m s Hrid). cbn [state_of fst snd].
      destruct (decide (s ∖ {[ws]} = ∅)).
      * by rewrite lookup_delete_eq.
      * rewrite lookup_insert_eq. congruence.
    + unfold disconnect. rewrite bind_get, Hrid. unfold ret. cbn [state_of fst snd].
      by rewrite Hrid.
Qed.

Lemma connect_disconnect_invariant_witness :
  no_empty_entry
    (foldl (registry_op open_net) init
       [OpConnect 7 "R001"; OpConnect 8 "R001"; OpDisconnect 7 "R001";
        OpDisconnect 8 "R001"]).
Proof.
  apply (proj1 (connect_disconnect_invariant open_net)).
  intros rid s. unfold init. by rewrite lookup_empty.
Defined.

(** *** Broadcasting *)

Lemma send_all_run (net : Net) (conns : list nat) (acc : gset nat) (m : Registry) :
  send_all net conns acc m
  = (Ok (acc ∪ list_to_set (filter (fun ws => send_ok net ws = false) conns)),
     m, EvSend <$> conns).
Proof.
  revert acc. induction conns as [|c conns IH]; intros acc; cbn [send_all].
  - unfold ret. cbn [fmap list_fmap]. rewrite filter_nil. cbn [list_to_set].
    by rewrite union_empty_r_L.
  - rewrite bind_emit. destruct (send_ok net c) eqn:Hc.
    + rewrite IH. cbn [after app fmap list_fmap].
      rewrite filter_cons_False by congruence. reflexivity.
    + rewrite IH. cbn [after app fmap list_fmap].
      rewrite filter_cons_True by assumption. cbn [list_to_set].
      do 2 f_equal. f_equal. rewrite (comm_L (∪) {[c]} acc). by rewrite (assoc_L (∪)).
Qed.

Lemma discard_all_run (rid : string) (conns : list nat) (m : Registry) (s : gset nat) :
  m !! rid = Some s ->
  discard_all rid conns m = (Ok tt, <[rid := s ∖ list_to_set conns]> m, []).
Proof.
  revert m s. induction conns as [|c conns IH]; intros m s Hrid; cbn [discard_all].
  - unfold ret. cbn [list_to_set]. rewrite difference_empty_L. by rewrite insert_id.
  - rewrite bind_modify, Hrid. cbn [from_option id].
    rewrite (IH _ (s ∖ {[c]})) by apply lookup_insert_eq.
    rewrite insert_insert_eq. cbn [list_to_set].
    do 2 f_equal. f_equal. apply set_eq. intros x.
    rewrite !elem_of_difference, elem_of_union. tauto.
Qed.

(** X13.  A broadcast to a robot with subscribers never raises: it
    sends to every subscriber exactly once, whether or not earlier sends
    failed; afterwards the robot's subscribers are exactly those whose
    send went through, and the other robots are untouched. *)
Theorem broadcast_sends_once (net : Net) (rid : string) (m : Registry) (s : gset nat) :
  m !! rid = Some s ->
  let out := broadcast_robot_state net rid m in
  result_of out = Ok tt
  /\ log_of out = EvSend <$> elements s
  /\ NoDup (log_of out)
  /\ state_of out !! rid = Some (filter (fun ws => send_ok net ws = true) s)
  /\ (forall other, other <> rid -> state_of out !! other = m !! other).
Proof.
  intros Hrid. cbn zeta. unfold broadcast_robot_state.
  rewrite bind_get, Hrid, bind_after, send_all_run.
  rewrite (discard_all_run rid _ m s Hrid).
  cbn [after result_of log_of state_of fst snd]. rewrite app_nil_r.
  split; [reflexivity|]. split; [reflexivity|]. split; [|split].
  - apply NoDup_fmap_2; [|apply NoDup_elements]. by intros x y [= ->].
  - rewrite lookup_insert_eq. f_equal. apply set_eq. intros x.
    rewrite elem_of_difference, elem_of_list_to_set, elem_of_elements, elem_of_union,
      elem_of_list_to_set, elem_of_filter, list_elem_of_filter, elem_of_elements.
    destruct (send_ok net x); split.
    + intros [Hx _]. by split.
    + intros [_ Hx]. split; [exact Hx|]. intros [H | [H _]]; [by apply elem_of_empty in H | discriminate].
    + intros [Hx Hn]. exfalso. apply Hn. right. by split.
    + intros [H _]. discriminate.
  - intros other Hother. by rewrite lookup_insert_ne.
Qed.

(** Subscribers 7 and 8; only the sends to 8 go through. *)
Definition two_subscribers : Registry :=
  state_of (connect open_net 8 "R001" one_subscriber).

Definition flaky_net : Net := mkNet (fun _ => true) (fun ws => Nat.eqb ws 8).

Lemma broadcast_sends_once_witness :
  state_of (broadcast_robot_state flaky_net "R001" two_subscribers) !! "R001"%string
  = Some (filter (fun ws => send_ok flaky_net ws = true) ({[8%nat]} ∪ {[7%nat]})).
Proof.
  refine (proj1 (proj2 (proj2 (proj2
            (broadcast_sends_once flaky_net "R001" two_subscribers
               ({[8%nat]} ∪ {[7%nat]}) _))))).
  unfold two_subscribers. rewrite (connect_accepted open_net 8 "R001" _ eq_refl).
  cbn [state_of fst snd]. rewrite lookup_insert_eq. unfold subscribers.
  by rewrite one_subscriber_lookup.
Defined.

End RegistryAccounts.

(** ** The controller: emergency stop, mission start, snapshots *)

Section ControllerAccounts.

Import RobotController.

(** The controller after an emergency stop. *)
Definition stopped (w : World) : World :=
  on_self (fun c =>
    with_state (fun s => RobotState.with_current_speed_kmh 0
                           (RobotState.with_mode EMERGENCY s))
               (with_emergency_stop_activated true c)) w.

Lemma emergency_stop_run (w : World) :
  emergency_stop w
  = (Ok tt, stopped w, [EvWrite Femergency_stop; EvMode EMERGENCY; EvWrite Fspeed]).
Proof.
  unfold emergency_stop. rewrite write_run, set_mode_run.
  unfold write. rewrite bind_modify. unfold emit, stopped.
  cbn [after app].
  destruct w as [[rid [] bat pth obs flag task moving limits noise] nd nt].
  reflexivity.
Qed.

(** X14.  [emergency_stop] never raises; from any state it sets the
    emergency flag, the mode EMERGENCY and the speed 0 and changes
    nothing else, and a second call changes nothing at all. *)
Theorem emergency_stop_idempotent (w : World) :
  let w1 := state_of (emergency_stop w) in
  result_of (emergency_stop w) = Ok tt
  /\ w1 = stopped w
  /\ emergency_stop_activated (self w1) = true
  /\ mode (state (self w1)) = EMERGENCY
  /\ current_speed_kmh (state (self w1)) = 0
  /\ path (self w1) = path (self w)
  /\ path_index (state (self w1)) = path_index (state (self w))
  /\ battery (self w1) = battery (self w)
  /\ movement_task (self w1) = movement_task (self w)
  /\ state_of (emergency_stop w1) = w1.
Proof.
  cbn zeta. rewrite !emergency_stop_run. cbn [state_of result_of fst snd].
  repeat split.
Qed.

Lemma resume_after_emergency (w : World) :
  mode (state (self w)) = EMERGENCY ->
  state_of (resume_mission w)
  = on_self (fun c => with_state (RobotState.with_mode TRANSIT)
                        (with_emergency_stop_activated false c)) w.
Proof.
  intros Hmode. unfold resume_mission. rewrite write_run, bind_get. controller_fields.
  destruct (decide (mode (state (self w)) = EMERGENCY)) as [_ | Hne]; [|contradiction].
  unfold set_mode. rewrite bind_modify. unfold emit. controller_fields. reflexivity.
Qed.

(** X15.  An emergency stop followed by a resume leaves the robot in
    TRANSIT with the flag clear and the speed 0, whatever the mode was
    before, an idle robot included; every other field is as it was. *)
Theorem stop_then_resume (w : World) :
  state_of (resume_mission (state_of (emergency_stop w)))
  = on_self (fun c =>
       with_state (fun s => RobotState.with_current_speed_kmh 0
                              (RobotState.with_mode TRANSIT s))
                  (with_emergency_stop_activated false c)) w.
Proof.
  rewrite emergency_stop_run. cbn [state_of fst snd].
  rewrite resume_after_emergency by reflexivity.
  destruct w as [[rid [] bat pth obs flag task moving limits noise] nd nt].
  reflexivity.
Qed.


(** What [start_delivery] asks of a mission. *)
Definition startable (env : Env) (path' : list Point) (w : World) : Prop :=
  (2 <= length path')%nat
  /\ result_of (BatteryModel.can_complete_route
                  (_calculate_path_distance env path') settings.ROBOT_SPEED_KMH
                  (battery (self w))) = Ok true
  /\ ~ capacity_kwh (stats (battery (self w))) == 0.

(** X16.  [start_delivery] starts a mission exactly when the path has
    at least 2 points, the battery passes [can_complete_route] for the
    length of the path at the nominal speed, and the capacity is not
    zero.  It then puts the robot at the pickup point in PICKUP with
    index 0, distance 0, the emergency flag clear and [is_moving] set,
    and reports the distance of the path, the duration at the nominal
    speed and the battery percentage; otherwise it fails with a
    message. *)
Theorem start_delivery_succeeds_iff (env : Env) (pickup delivery : Point)
    (path' : list Point) (w : World) :
  let distance := _calculate_path_distance env path' in
  (startable env path' w ->
   start_delivery env pickup delivery path' w
   = (Ok (Started (distance / 1000 / settings.ROBOT_SPEED_KMH * 60)
            (current_charge_kwh (stats (battery (self w)))
             / capacity_kwh (stats (battery (self w))) * 100)
            distance (length path')),
      launched pickup delivery path' w, launch_log w))
  /\ (~ startable env path' w ->
      exists msg, result_of (start_delivery env pickup delivery path' w) = Ok (Failed msg)).
Proof.
  cbn zeta. unfold startable. rewrite can_complete_route_spec.
  destruct (length path' <? 2)%nat eqn:Hlen.
  { apply Nat.ltb_lt in Hlen. split; [intros (H & _); lia|]. intros _.
    eexists. unfold start_delivery, try_except.
    apply Nat.ltb_lt in Hlen. rewrite Hlen, bind_raise.
    by rewrite start_delivery_handler. }
  destruct (BatteryModel.calculate_consumption (battery (self w))
              (_calculate_path_distance env path') settings.ROBOT_SPEED_KMH 0)
    as [required|e] eqn:Hc.
  2:{ split; [intros (_ & H & _); discriminate|]. intros _.
      eexists. unfold start_delivery, try_except.
      rewrite Hlen, bind_ret, on_battery_run, can_complete_route_spec, Hc.
      by rewrite start_delivery_handler. }
  destruct (Qle_bool required (current_charge_kwh (stats (battery (self w))) * (9 # 10)))
    eqn:Hcheck.
  2:{ split; [intros (_ & H & _); discriminate|]. intros _.
      unfold start_delivery, try_except.
      rewrite Hlen, bind_ret, on_battery_run, can_complete_route_spec, Hc, Hcheck.
      rewrite after_nil, with_battery_same. cbn [negb].
      rewrite bind_assoc, on_battery_run.
      unfold BatteryModel.estimate_range. rewrite bind_get, bind_lift_res.
      destruct (py_div _ _) as [remaining|e].
      - unfold ret at 1. rewrite after_nil, with_battery_same, bind_raise.
        eexists. by rewrite start_delivery_handler.
      - rewrite with_battery_same. eexists. by rewrite start_delivery_handler. }
  destruct (py_div (current_charge_kwh (stats (battery (self w))))
              (capacity_kwh (stats (battery (self w))))) as [ratio|e] eqn:Hratio.
  2:{ split.
      - intros (_ & _ & Hcap). rewrite (py_div_ok _ _ Hcap) in Hratio. discriminate.
      - intros _. eexists. unfold start_delivery, try_except.
        rewrite Hlen, bind_ret, on_battery_run, can_complete_route_spec, Hc, Hcheck.
        rewrite after_nil, with_battery_same. cbn [negb].
        rewrite bind_ret, on_battery_run.
        unfold BatteryModel.get_percentage at 1. rewrite bind_get, bind_lift_res, Hratio.
        rewrite with_battery_same. by rewrite start_delivery_handler. }
  pose proof (py_div_inv _ _ _ Hratio) as [Hcap Hr].
  split.
  2:{ intros Hno. exfalso. apply Hno. split; [apply Nat.ltb_ge in Hlen; lia|].
      split; [reflexivity | exact Hcap]. }
  intros _. subst ratio.
  unfold start_delivery, try_except.
  rewrite Hlen, bind_ret, on_battery_run, can_complete_route_spec, Hc, Hcheck.
  rewrite after_nil, with_battery_same. cbn [negb].
  rewrite bind_ret, on_battery_run.
  unfold BatteryModel.get_percentage at 1. rewrite bind_get, bind_lift_res, Hratio.
  unfold ret at 1. rewrite after_nil, with_battery_same.
  rewrite set_mode_run. rewrite !write_run. rewrite bind_get.
  unfold launch_log, cancellation, launched. controller_fields.
  destruct w as [[rid st bat pth obs flag task moving limits noise] nd nt].
  controller_fields. cbn [self battery] in Hratio.
  destruct task as [[tid done]|]; [destruct done|]; cbn [negb task_done task_id];
    py_rewrite; rewrite on_battery_run; controller_fields;
    unfold BatteryModel.get_percentage; rewrite bind_get, bind_lift_res, Hratio;
    unfold ret; rewrite ?after_after, ?after_nil; cbn [app after];
    controller_values; reflexivity.
Qed.

Lemma start_delivery_succeeds_iff_witness :
  state_of (start_delivery quiet_env (0, 0) (0, 2 # 100000) three_points fresh_world)
  = launched (0, 0) (0, 2 # 100000) three_points fresh_world.
Proof.
  rewrite (proj1 (start_delivery_succeeds_iff quiet_env (0, 0) (0, 2 # 100000)
                    three_points fresh_world)).
  - reflexivity.
  - split; [vm_compute; lia|]. split; [vm_compute; reflexivity|].
    vm_compute. intros [=].
Defined.


Lemma path_distance_loop_snoc (env : Env) (p : list Point) (a b : Point) :
  forall total,
    path_distance_loop env total (p ++ [a; b])
    = path_distance_loop env total (p ++ [a]) + haversine env a b.
Proof.
  induction p as [|x p IH]; intros total; [reflexivity|].
  destruct p as [|y p]; [reflexivity|].
  cbn [app] in *. cbn [path_distance_loop]. apply IH.
Qed.

Lemma path_distance_loop_ge (env : Env) :
  (forall a b, 0 <= haversine env a b) ->
  forall path' total, total <= path_distance_loop env total path'.
Proof.
  intros Hpos. induction path' as [|a path' IH]; intros total; [apply Qle_refl|].
  destruct path' as [|b path']; [apply Qle_refl|].
  cbn [path_distance_loop].
  eapply Qle_trans; [|apply (IH (total + _haversine_distance env a b))].
  specialize (Hpos a b). unfold _haversine_distance. lra.
Qed.

(** X17.  The distance of a path with fewer than 2 points is 0; a
    waypoint appended to a path adds the great-circle distance from the
    last point to it, the sum being taken from the first segment to the
    last as the code takes it; and the distance is not negative, and
    not shortened by a waypoint more, when the great-circle distance is
    not negative. *)
Theorem path_distance_splits (env : Env) :
  (forall path', (length path' < 2)%nat -> _calculate_path_distance env path' = 0)
  /\ (forall p a b,
        _calculate_path_distance env (p ++ [a; b])
        = _calculate_path_distance env (p ++ [a]) + haversine env a b)
  /\ ((forall a b, 0 <= haversine env a b) ->
      forall p a b,
        0 <= _calculate_path_distance env p
        /\ _calculate_path_distance env (p ++ [a])
           <= _calculate_path_distance env (p ++ [a; b])).
Proof.
  split; [|split].
  - intros [|a [|b rest]] Hlen; cbn in *; try reflexivity; lia.
  - intros p a b. apply path_distance_loop_snoc.
  - intros Hpos p a b. split.
    + apply (path_distance_loop_ge env Hpos).
    + unfold _calculate_path_distance. rewrite path_distance_loop_snoc.
      specialize (Hpos a b). lra.
Qed.

Lemma path_distance_splits_witness :
  0 <= _calculate_path_distance quiet_env three_points
  /\ _calculate_path_distance quiet_env (three_points ++ [(0, 0)])
     <= _calculate_path_distance quiet_env (three_points ++ [(0, 0); (0, 1)]).
Proof.
  apply (proj2 (proj2 (path_distance_splits quiet_env))).
  intros a b. vm_compute. discriminate.
Defined.


(** *** Snapshots *)

(** X18.  The progress that a snapshot reports is 0 without a path;
    with a path it is the index over the number of points, times 100,
    so while the index is that of a waypoint it is at least 0 and
    strictly below 100, at the last waypoint too. *)
Theorem progress_below_100 (s : RobotState) :
  (total_path s = None \/ total_path s = Some [] ->
   RobotState.get_progress_percentage s = Ok 0)
  /\ (forall l,
        total_path s = Some l ->
        (0 <= path_index s < Z.of_nat (length l))%Z ->
        exists p,
          RobotState.get_progress_percentage s = Ok p
          /\ p == inject_Z (path_index s) / inject_Z (Z.of_nat (length l)) * 100
          /\ 0 <= p /\ p < 100).
Proof.
  split.
  - intros [H | H]; unfold RobotState.get_progress_percentage; by rewrite H.
  - intros l Hl [Hlo Hhi]. unfold RobotState.get_progress_percentage. rewrite Hl.
    destruct l as [|x l]; [cbn in Hhi; lia|].
    set (n := Z.of_nat (length (x :: l))) in *.
    assert (Hn : inject_Z 0 < inject_Z n) by (rewrite <- Zlt_Qlt; lia).
    change (0 < inject_Z n) in Hn.
    assert (Hn' : ~ inject_Z n == 0) by lra.
    rewrite (py_div_ok _ _ Hn'). eexists. split; [reflexivity|]. split; [reflexivity|].
    assert (H0 : inject_Z 0 <= inject_Z (path_index s)) by (rewrite <- Zle_Qle; lia).
    change (0 <= inject_Z (path_index s)) in H0.
    assert (H1 : inject_Z (path_index s) < inject_Z n) by (rewrite <- Zlt_Qlt; lia).
    assert (Hq0 : 0 <= inject_Z (path_index s) / inject_Z n)
      by (apply Qle_shift_div_l; lra).
    assert (Hq1 : inject_Z (path_index s) / inject_Z n < 1)
      by (apply Qlt_shift_div_r; lra).
    split; lra.
Qed.

(** The state of a robot that has reached the last of three waypoints. *)
Definition at_last_waypoint : RobotState :=
  RobotState.with_path_index 2
    (RobotState.with_total_path (Some three_points) (RobotState.default 0)).

Lemma progress_below_100_witness :
  exists p, RobotState.get_progress_percentage at_last_waypoint = Ok p /\ p < 100.
Proof.
  destruct (proj2 (progress_below_100 at_last_waypoint) three_points)
    as (p & Hp & _ & _ & Hlt).
  - reflexivity.
  - vm_compute. split; [discriminate | reflexivity].
  - exists p. split; [exact Hp | exact Hlt].
Defined.

Lemma to_dict_ok (s : RobotState) :
  exists progress,
    RobotState.to_dict s
    = Ok (RobotState.mkStateDict (mode s) (current_lat s, current_lon s)
            (battery_percentage s) (current_speed_kmh s) (current_delivery_id s)
            (obstacle_detected s) progress).
Proof.
  unfold RobotState.to_dict, RobotState.get_progress_percentage.
  destruct (total_path s) as [[|x l]|]; eexists; reflexivity.
Qed.

Lemma battery_to_dict_fails (b : BatteryModel) :
  capacity_kwh (stats b) == 0 \/ consumption_rate b == 0 ->
  BatteryModel.to_dict b = (Raise ZeroDivisionError, b, []).
Proof.
  intros H. unfold BatteryModel.to_dict, BatteryModel.get_percentage,
    BatteryModel.estimate_range.
  rewrite bind_assoc, bind_get, bind_assoc, bind_lift_res.
  unfold py_div at 1.
  destruct (Qeq_bool (capacity_kwh (stats b)) 0) eqn:Hcap; [reflexivity|].
  destruct H as [H | H]; [apply Qeq_bool_iff in H; congruence|].
  rewrite bind_ret, bind_assoc, bind_get, bind_assoc, bind_lift_res.
  unfold py_div. apply Qeq_bool_iff in H. by rewrite H.
Qed.

Lemma battery_to_dict_ok (b : BatteryModel) :
  ~ capacity_kwh (stats b) == 0 -> ~ consumption_rate b == 0 ->
  BatteryModel.to_dict b
  = (Ok (BatteryModel.mkBatteryDict
           (current_charge_kwh (stats b) / capacity_kwh (stats b) * 100)
           (current_charge_kwh (stats b) / consumption_rate b * 1000 / 1000)
           (health (stats b)) (charging (stats b)) (cycles (stats b))
           (temperature_c (stats b))),
     b, []).
Proof.
  intros Hcap Hrate. unfold BatteryModel.to_dict, BatteryModel.get_percentage,
    BatteryModel.estimate_range.
  rewrite bind_assoc, bind_get, bind_assoc, bind_lift_res, (py_div_ok _ _ Hcap).
  rewrite bind_ret, bind_assoc, bind_get, bind_assoc, bind_lift_res, (py_div_ok _ _ Hrate).
  by rewrite bind_ret, bind_get.
Qed.

(** X19.  [get_state] never raises and changes nothing of the
    controller.  It answers the degraded snapshot, with the message of
    the division by zero, exactly when the capacity or the consumption
    rate of the battery is zero; otherwise it answers the full snapshot,
    with the mode, the position and the battery percentage of the
    moment. *)
Theorem get_state_never_raises (env : Env) (w : World) :
  let out := get_state env w in
  let b := battery (self w) in
  (exists snapshot, result_of out = Ok snapshot)
  /\ self (state_of out) = self w
  /\ log_of out = []
  /\ (capacity_kwh (stats b) == 0 \/ consumption_rate b == 0 ->
      out = (Ok (ErrorSnapshot (robot_id (self w)) MsgFloatDivisionByZero), w, []))
  /\ (~ capacity_kwh (stats b) == 0 -> ~ consumption_rate b == 0 ->
      exists state_dict battery_details traffic_factor,
        result_of out
        = Ok (FullSnapshot state_dict battery_details (robot_id (self w))
                (is_moving (self w))
                (path_index (state (self w)),
                 match path (self w) with
                 | [] => 0%Z
                 | _ => (Z.of_nat (length (path (self w))) - 1)%Z
                 end)
                traffic_factor)
        /\ RobotState.dict_mode state_dict = mode (state (self w))
        /\ RobotState.dict_position state_dict
           = (current_lat (state (self w)), current_lon (state (self w)))
        /\ BatteryModel.dict_percentage battery_details
           = current_charge_kwh (stats b) / capacity_kwh (stats b) * 100
        /\ BatteryModel.dict_health battery_details = health (stats b)).
Proof.
  cbn zeta.
  destruct (Qeq_dec (capacity_kwh (stats (battery (self w)))) 0) as [Hcap | Hcap];
    [|destruct (Qeq_dec (consumption_rate (battery (self w))) 0) as [Hrate | Hrate]].
  1,2: assert (Hzero : capacity_kwh (stats (battery (self w))) == 0
                       \/ consumption_rate (battery (self w)) == 0) by tauto.
  1,2: assert (Hout : get_state env w
                      = (Ok (ErrorSnapshot (robot_id (self w)) MsgFloatDivisionByZero),
                         w, []))
         by (unfold get_state, try_except;
             rewrite bind_get; destruct (to_dict_ok (state (self w))) as [progress ->];
             rewrite bind_lift_res, on_battery_run, (battery_to_dict_fails _ Hzero);
             rewrite with_battery_same, bind_get; reflexivity).
  1,2: rewrite Hout; cbn [state_of log_of result_of fst snd];
       (split; [by eexists|]); repeat split; try reflexivity; intros; contradiction.
  unfold get_state, try_except.
  rewrite bind_get. destruct (to_dict_ok (state (self w))) as [progress ->].
  rewrite bind_lift_res, on_battery_run, (battery_to_dict_ok _ Hcap Hrate).
  rewrite after_nil, with_battery_same.
  unfold _get_traffic_factor, draw. py_rewrite.
  destruct (rush_hour _); [|destruct (_ || _)]; py_rewrite; unfold ret;
    cbn [state_of log_of result_of fst snd app self];
    (split; [by eexists|]); (split; [reflexivity|]); (split; [reflexivity|]);
    (split; [intros [H | H]; contradiction|]); intros _ _;
    do 3 eexists; (split; [reflexivity|]); repeat split.
Qed.

(** A controller whose battery was built with capacity 0. *)
Definition no_capacity : World :=
  on_self (with_battery (BatteryModel.init 0)) fresh_world.

Lemma get_state_never_raises_witness :
  get_state quiet_env no_capacity
  = (Ok (ErrorSnapshot "R001" MsgFloatDivisionByZero), no_capacity, []).
Proof.
  refine (proj1 (proj2 (proj2 (proj2 (get_state_never_raises quiet_env no_capacity)))) _).
  left. reflexivity.
Defined.


(** *** Moving along a segment *)






Lemma draw_run (env : Env) {A B} (oracle : Env -> nat -> A) (k : A -> Py World B) w :
  bind (draw env oracle) k w
  = k (oracle env (draws w)) (mkWorld (self w) (S (draws w)) (tasks_created w)).
Proof. unfold draw. py_rewrite. reflexivity. Qed.

Lemma traffic_factor_run (env : Env) {B} (k : Q -> Py World B) w :
  exists f, bind (_get_traffic_factor env) k w
            = k f (mkWorld (self w) (S (draws w)) (tasks_created w)).
Proof.
  unfold _get_traffic_factor. rewrite bind_assoc, draw_run.
  destruct (rush_hour _); [|destruct (_ || _)]; rewrite bind_ret; eauto.
Qed.



(** X21.  With the emergency flag set the movement task ends at once:
    the loop of [_move_along_path] is not entered, so nothing is
    written, nothing is awaited and the mode is left as it is; and a
    segment takes no sub-step, so the robot is exactly where and as it
    was. *)
Theorem emergency_ends_movement (env : Env) (fuel : nat) (target : Point)
    (segment_index : Z) (w : World) :
  emergency_stop_activated (self w) = true ->
  _move_along_path env (S fuel) w = (Ok true, w, [])
  /\ (is_Some (speed_limits (self w) !! "default"%string) ->
      result_of (_move_to_point env target segment_index w) = Ok tt
      /\ self (state_of (_move_to_point env target segment_index w)) = self w
      /\ log_of (_move_to_point env target segment_index w) = []).
Proof.
  intros Hflag. split.
  - unfold _move_along_path, try_except. cbn [move_loop].
    rewrite bind_get, Hflag, andb_false_r. reflexivity.
  - intros [dflt Hdflt].
    pose (P := fun out : Res unit * World * list Event =>
      result_of out = Ok tt /\ self (state_of out) = self w /\ log_of out = []).
    change (P (_move_to_point env target segment_index w)).
    unfold _move_to_point.
    rewrite draw_run, bind_get. cbn [self].
    unfold _get_road_type_speed at 1. rewrite bind_assoc, bind_get. cbn [self].
    rewrite Hdflt, bind_ret.
    match goal with
    | |- context [bind (_get_traffic_factor env) ?k ?w0] =>
        destruct (traffic_factor_run env k w0) as [f ->]
    end.
    unfold uniform. rewrite bind_assoc, draw_run, bind_ret.
    cbn [self draws tasks_created].
    match goal with
    | |- context [seq 0 (Z.to_nat ?steps)] =>
        assert (Hsteps : (1 <= steps)%Z) by (unfold py_max;
          match goal with |- context [(1 <? ?x)%Z] => destruct (Z.ltb_spec 1 x) end; lia);
        destruct (Z.to_nat steps) as [|n] eqn:Hn; [lia|]
    end.
    cbn [seq for_steps]. rewrite !bind_assoc.
    unfold move_step at 1. rewrite bind_assoc, bind_get. cbn [self].
    rewrite Hflag, !bind_ret, draw_run. subst P. cbn beta. unfold ret.
    cbn [result_of state_of log_of fst snd self]. auto.
Qed.

Lemma emergency_ends_movement_witness :
  _move_along_path quiet_env 1 (state_of (emergency_stop mission_under_way))
  = (Ok true, state_of (emergency_stop mission_under_way), []).
Proof.
  apply (emergency_ends_movement quiet_env 0 (0, 1) 0
           (state_of (emergency_stop mission_under_way))).
  reflexivity.
Defined.

End ControllerAccounts.

(** ** Routes: the points that the map service hands to the controller *)

Section RouteAccounts.

Import MapService.

Variable graph : Graph.
Variable interpolate : Point -> Point -> Q -> Point.

(** The edges that a route runs over. *)
Fixpoint route_edges (route : list nat) : list EdgeData :=
  match route with
  | u :: (v :: _) as rest => get_edge_data graph u v :: route_edges rest
  | _ => []
  end.

(** The number of points that the edges of a route add. *)
Definition points_added (edges : list EdgeData) : nat :=
  foldr (fun d acc => (Z.to_nat (num_points (length_m d)) + acc)%nat) 0%nat edges.

Lemma num_points_ge_2 (d : Q) : (2 <= num_points d)%Z.
Proof.
  unfold num_points, py_max.
  match goal with |- context [(2 <? ?x)%Z] => destruct (Z.ltb_spec 2 x) end; lia.
Qed.

Lemma length_edge_points (i u v : nat) :
  length (edge_points graph interpolate i u v)
  = ((if (i =? 0)%nat then 1 else 0)
     + Z.to_nat (num_points (length_m (get_edge_data graph u v))))%nat.
Proof.
  unfold edge_points. cbn zeta.
  pose proof (num_points_ge_2 (length_m (get_edge_data graph u v))) as Hn.
  rewrite !length_app, length_map, length_seq. cbn [length].
  destruct (i =? 0)%nat; cbn [length]; lia.
Qed.

Lemma route_loop_spec (route : list nat) :
  forall i coords total,
    (route_loop graph interpolate i route coords total).2
    == total + physical_length (route_edges route)
    /\ length (route_loop graph interpolate i route coords total).1
       = (length coords
          + (match route with
             | _ :: _ :: _ => if (i =? 0)%nat then 1 else 0
             | _ => 0
             end)
          + points_added (route_edges route))%nat.
Proof.
  induction route as [|u rest IH]; intros i coords total.
  { cbn. split; [lra | lia]. }
  destruct rest as [|v rest].
  { cbn. split; [lra | lia]. }
  change (route_loop graph interpolate i (u :: v :: rest) coords total)
    with (route_loop graph interpolate (S i) (v :: rest)
            (coords ++ edge_points graph interpolate i u v)
            (total + length_m (get_edge_data graph u v))).
  destruct (IH (S i) (coords ++ edge_points graph interpolate i u v)
              (total + length_m (get_edge_data graph u v))) as [Hd Hl].
  split.
  - rewrite Hd. change (route_edges (u :: v :: rest))
      with (get_edge_data graph u v :: route_edges (v :: rest)).
    cbn [physical_length foldr]. unfold physical_length. ring.
  - rewrite Hl, length_app, length_edge_points.
    change (route_edges (u :: v :: rest))
      with (get_edge_data graph u v :: route_edges (v :: rest)).
    cbn [points_added foldr]. fold (points_added (route_edges (v :: rest))).
    destruct rest as [|x rest]; cbn [Nat.eqb]; lia.
Qed.


(** The points of a route, edge after edge. *)
Fixpoint dense (i : nat) (route : list nat) : list Point :=
  match route with
  | u :: (v :: _) as rest => edge_points graph interpolate i u v ++ dense (S i) rest
  | _ => []
  end.

Lemma route_loop_coords (route : list nat) :
  forall i coords total,
    (route_loop graph interpolate i route coords total).1 = coords ++ dense i route.
Proof.
  induction route as [|u rest IH]; intros i coords total.
  { cbn. by rewrite app_nil_r. }
  destruct rest as [|v rest].
  { cbn. by rewrite app_nil_r. }
  change (route_loop graph interpolate i (u :: v :: rest) coords total)
    with (route_loop graph interpolate (S i) (v :: rest)
            (coords ++ edge_points graph interpolate i u v)
            (total + length_m (get_edge_data graph u v))).
  rewrite IH, <- app_assoc. reflexivity.
Qed.

Lemma osm_route_coords (route : list nat) :
  (_osm_route graph interpolate route).1.1 = dense 0 route.
Proof.
  unfold _osm_route.
  pose proof (route_loop_coords route 0 [] 0) as H.
  destruct (route_loop graph interpolate 0 route [] 0) as [coords total].
  exact H.
Qed.

Lemma points_added_lower (edges : list EdgeData) :
  (2 * length edges <= points_added edges)%nat.
Proof.
  induction edges as [|d edges IH]; cbn [points_added foldr length]; [lia|].
  fold (points_added edges). pose proof (num_points_ge_2 (length_m d)). lia.
Qed.

Lemma length_route_edges (route : list nat) :
  length (route_edges route) = (length route - 1)%nat.
Proof.
  induction route as [|u [|v rest] IH]; [reflexivity | reflexivity |].
  change (route_edges (u :: v :: rest))
    with (get_edge_data graph u v :: route_edges (v :: rest)).
  cbn [length] in *. lia.
Qed.


Lemma dense_sublist (route : list nat) :
  forall i, (0 < i)%nat -> sublist (node_coord graph <$> tail route) (dense i route).
Proof.
  induction route as [|u rest IH]; intros i Hi; [constructor|].
  destruct rest as [|v rest]; [constructor|].
  change (dense i (u :: v :: rest))
    with (edge_points graph interpolate i u v ++ dense (S i) (v :: rest)).
  cbn [tail]. rewrite fmap_cons.
  apply (sublist_app [node_coord graph v] _ (node_coord graph <$> tail (v :: rest)));
    [|apply IH; lia].
  unfold edge_points. cbn zeta. rewrite app_assoc. apply sublist_inserts_l.
  reflexivity.
Qed.

Lemma dense_last (route : list nat) :
  forall i, (2 <= length route)%nat ->
    last (dense i route) = node_coord graph <$> last route.
Proof.
  induction route as [|u rest IH]; intros i Hlen; [cbn in Hlen; lia|].
  destruct rest as [|v rest]; [cbn in Hlen; lia|].
  change (dense i (u :: v :: rest))
    with (edge_points graph interpolate i u v ++ dense (S i) (v :: rest)).
  change (last (u :: v :: rest)) with (last (v :: rest)).
  rewrite last_app. destruct rest as [|x rest].
  - cbn [dense last]. unfold edge_points. cbn zeta.
    rewrite !app_assoc, last_snoc. reflexivity.
  - rewrite (IH (S i)) by (cbn [length]; lia).
    destruct (last (v :: x :: rest)) as [n|] eqn:Hlast; [reflexivity|].
    apply last_None in Hlast. discriminate.
Qed.

(** X23.  The path that [_osm_route] returns for a route of at least
    two nodes starts at the first node of the route, ends at its last
    node and passes through all its nodes in their order. *)
Theorem osm_route_through_nodes (route : list nat) :
  (2 <= length route)%nat ->
  let coords := (_osm_route graph interpolate route).1.1 in
  head coords = node_coord graph <$> head route
  /\ last coords = node_coord graph <$> last route
  /\ sublist (node_coord graph <$> route) coords.
Proof.
  intros Hlen. cbn zeta. rewrite osm_route_coords.
  split; [|split].
  - destruct route as [|u [|v rest]]; cbn [length] in Hlen; try lia. reflexivity.
  - by apply dense_last.
  - destruct route as [|u [|v rest]]; cbn [length] in Hlen; try lia.
    change (dense 0 (u :: v :: rest))
      with (edge_points graph interpolate 0 u v ++ dense 1 (v :: rest)).
    unfold edge_points. cbn zeta. cbn [Nat.eqb].
    rewrite !fmap_cons.
    apply (sublist_app ([node_coord graph u] ++ [node_coord graph v]) _
             (node_coord graph <$> tail (v :: rest)));
      [|apply dense_sublist; lia].
    apply sublist_app; [reflexivity|]. apply sublist_inserts_l. reflexivity.
Qed.


(** The message of a refused [start_delivery] is "Invalid path" for
    the paths of fewer than 2 points and for no other. *)
Lemma start_delivery_invalid_path (env : Env) (pickup delivery : Point)
    (path' : list Point) (w : World) :
  result_of (RobotController.start_delivery env pickup delivery path' w)
  = Ok (Failed MsgInvalidPath)
  <-> (length path' < 2)%nat.
Proof.
  destruct (length path' <? 2)%nat eqn:Hlen.
  { split; [intros _; by apply Nat.ltb_lt|]. intros _.
    unfold RobotController.start_delivery, try_except.
    rewrite Hlen, bind_raise. by rewrite start_delivery_handler. }
  split; [|intros H; apply Nat.ltb_ge in Hlen; lia].
  unfold RobotController.start_delivery, try_except.
  rewrite Hlen, bind_ret, on_battery_run, can_complete_route_spec.
  destruct (BatteryModel.calculate_consumption (battery (self w))
              (RobotController._calculate_path_distance env path')
              settings.ROBOT_SPEED_KMH 0) as [required|e] eqn:Hc.
  2:{ apply calculate_consumption_raises in Hc as ->.
      rewrite start_delivery_handler. discriminate. }
  destruct (Qle_bool required (current_charge_kwh (stats (battery (self w))) * (9 # 10)))
    eqn:Hcheck.
  2:{ rewrite after_nil, with_battery_same. cbn [negb].
      rewrite bind_assoc, on_battery_run.
      unfold BatteryModel.estimate_range. rewrite bind_get, bind_lift_res.
      unfold py_div. destruct (Qeq_bool _ 0).
      - rewrite with_battery_same, start_delivery_handler. discriminate.
      - unfold ret at 1. rewrite after_nil, with_battery_same, bind_raise.
        rewrite start_delivery_handler. discriminate. }
  rewrite after_nil, with_battery_same. cbn [negb].
  rewrite bind_ret, on_battery_run.
  unfold BatteryModel.get_percentage at 1. rewrite bind_get, bind_lift_res.
  destruct (py_div (current_charge_kwh (stats (battery (self w))))
              (capacity_kwh (stats (battery (self w))))) as [ratio|e] eqn:Hratio.
  2:{ unfold py_div in Hratio. destruct (Qeq_bool _ 0); [|discriminate].
      injection Hratio as <-.
      rewrite with_battery_same, start_delivery_handler. discriminate. }
  unfold ret at 1. rewrite after_nil, with_battery_same.
  rewrite set_mode_run. rewrite !write_run. rewrite bind_get.
  controller_fields.
  destruct w as [[rid st bat pth obs flag task moving limits noise] nd nt].
  controller_fields. cbn [self battery] in Hratio.
  destruct task as [[tid done]|]; [destruct done|]; cbn [negb task_done task_id];
    py_rewrite; rewrite on_battery_run; controller_fields;
    unfold BatteryModel.get_percentage; rewrite bind_get, bind_lift_res, Hratio;
    unfold ret; rewrite ?after_after, ?after_nil; cbn [app after result_of fst];
    discriminate.
Qed.


Lemma osm_route_length (route : list nat) :
  length (_osm_route graph interpolate route).1.1
  = match route with
    | _ :: _ :: _ => S (points_added (route_edges route))
    | _ => 0%nat
    end.
Proof.
  unfold _osm_route.
  pose proof (route_loop_spec route 0 [] 0) as [_ Hl].
  destruct (route_loop graph interpolate 0 route [] 0) as [coords total].
  cbn [fst snd] in *. rewrite Hl.
  destruct route as [|u [|v rest]];
    cbn [length Nat.eqb route_edges points_added foldr]; lia.
Qed.

Lemma straight_line_length (env : Env) (start_lat start_lon end_lat end_lon : Q) :
  length (_get_straight_line_route env start_lat start_lon end_lat end_lon).1.1 = 21%nat.
Proof. reflexivity. Qed.

(** X24.  [start_delivery] answers "Invalid path" for the path that
    [_osm_route] makes of a route exactly when the route has a single
    node (pickup and delivery nearest to the same node) or none; it
    never answers so for the path that [get_route] returns when the
    routing has failed. *)
Theorem route_and_invalid_path (env : Env) (pickup delivery : Point) (w : World) :
  (forall route,
      result_of (RobotController.start_delivery env pickup delivery
                   (_osm_route graph interpolate route).1.1 w)
      = Ok (Failed MsgInvalidPath)
      <-> (length route <= 1)%nat)
  /\ (forall e start_lat start_lon end_lat end_lon,
        result_of (RobotController.start_delivery env pickup delivery
                     (get_route env (Raise e) start_lat start_lon end_lat end_lon).1.1 w)
        <> Ok (Failed MsgInvalidPath)).
Proof.
  split.
  - intros route. rewrite start_delivery_invalid_path.
    pose proof (osm_route_length route) as Hl.
    pose proof (points_added_lower (route_edges route)) as Hlow.
    rewrite length_route_edges in Hlow.
    destruct route as [|u [|v rest]]; cbn [length] in *; lia.
  - intros e start_lat start_lon end_lat end_lon.
    rewrite start_delivery_invalid_path. cbn [get_route].
    rewrite straight_line_length. lia.
Qed.

(** X25.  When the routing fails, [get_route] returns the straight
    line: 21 points, the first of them the start, with the great-circle
    distance from the start to the end as its distance and a duration
    that is not negative when that distance is not. *)
Theorem get_route_fallback (env : Env) (e : exn)
    (start_lat start_lon end_lat end_lon : Q) :
  let out := get_route env (Raise e) start_lat start_lon end_lat end_lon in
  length out.1.1 = 21%nat
  /\ (exists first_point,
        head out.1.1 = Some first_point
        /\ first_point.1 == start_lat /\ first_point.2 == start_lon)
  /\ out.1.2 = haversine env (start_lat, start_lon) (end_lat, end_lon)
  /\ (0 <= out.1.2 -> 0 <= out.2).
Proof.
  cbn zeta. cbn [get_route]. split; [reflexivity|]. split.
  - eexists. split; [reflexivity|]. cbn [fst snd]. split; field.
  - split; [reflexivity|]. unfold _get_straight_line_route. cbn [fst snd].
    unfold settings.ROBOT_SPEED_KMH. intros Hd.
    set (distance := haversine env (start_lat, start_lon) (end_lat, end_lon)) in *.
    assert (Hkm : 0 <= distance / 1000) by (apply Qle_shift_div_l; lra).
    assert (Hhours : 0 <= distance / 1000 / 15) by (apply Qle_shift_div_l; lra).
    apply Qmult_le_0_compat; [exact Hhours | lra].
Qed.

End RouteAccounts.

(** A street of nodes a thousandth of a degree apart, joined by edges
    of 35 m, and the interpolation of a straight line. *)
Definition street : MapService.Graph :=
  MapService.mkGraph (fun n => (0, inject_Z (Z.of_nat n) / 1000))
    (fun _ _ => mkEdgeData 35 None).

Definition along (u v : Point) (t : Q) : Point :=
  (u.1 + (v.1 - u.1) * t, u.2 + (v.2 - u.2) * t).


Lemma osm_route_through_nodes_witness :
  let coords := (MapService._osm_route street along [0; 1; 2]%nat).1.1 in
  head coords = MapService.node_coord street <$> head [0; 1; 2]%nat
  /\ last coords = MapService.node_coord street <$> last [0; 1; 2]%nat
  /\ sublist (MapService.node_coord street <$> [0; 1; 2]%nat) coords.
Proof.
  apply (osm_route_through_nodes street along [0; 1; 2]%nat). cbn [length]. lia.
Defined.

Lemma route_and_invalid_path_witness :
  result_of (RobotController.start_delivery quiet_env (0, 0) (0, 0)
               (MapService._osm_route street along [0]%nat).1.1 fresh_world)
  = Ok (Failed MsgInvalidPath).
Proof.
  apply (proj1 (route_and_invalid_path street along quiet_env (0, 0) (0, 0) fresh_world)).
  cbn [length]. lia.
Defined.
